(** * Shallow embedding of the ALCM firmware core modules

    Modules covered (from [HK32F030M_Project/src]):
    - [event_queue.c] : circular event queue and subscriber chains;
    - [timer.c]       : software timer pool driven by the system tick;
    - [hysteresis.c]  : two-threshold latch;
    - [vesc_serial.c] : telemetry decoding and request bookkeeping;
    - [board_mode.c]  : board mode / submode state machine.

    C integers are modelled as [Z] with their wrap-around written out;
    [float32_t] values are modelled as [Q] (only comparisons and exact
    divisions of small integers are used by the modelled code). *)

From Stdlib Require Import ZArith List Bool Lia QArith Lqa.
Import ListNotations.
Open Scope Z_scope.

(** Array read and write on a C array modelled as a list.  Every access in
    the modelled code is in range; an out-of-range write leaves the list
    unchanged and an out-of-range read yields the default. *)
Fixpoint list_set {A} (l : list A) (i : nat) (x : A) : list A :=
  match l, i with
  | [], _ => []
  | _ :: t, O => x :: t
  | y :: t, S j => y :: list_set t j x
  end.

Definition aget {A} (d : A) (l : list A) (i : Z) : A := nth (Z.to_nat i) l d.
Definition aset {A} (l : list A) (i : Z) (x : A) : list A := list_set l (Z.to_nat i) x.

(** ** event_queue.c *)
Module EventQueue.

(** [event_type_t] with ENABLE_PITCH_EVENTS and ENABLE_ROLL_EVENTS defined
    (config.h). *)
Definition EVENT_NULL := 0.
Definition EVENT_SYS_TICK := 1.
Definition EVENT_BUTTON_DOWN := 3.
Definition EVENT_FOOTPAD_CHANGED := 7.
Definition EVENT_BOARD_MODE_CHANGED := 8.
Definition EVENT_SERIAL_DATA_RX := 9.
Definition EVENT_DUTY_CYCLE_CHANGED := 10.
Definition EVENT_RPM_CHANGED := 11.
Definition EVENT_BATTERY_LEVEL_CHANGED := 12.
Definition EVENT_VESC_ALIVE := 13.
Definition EVENT_COMMAND_NACK := 23.
Definition EVENT_EMERGENCY_FAULT := 26.
Definition NUMBER_OF_EVENTS := 27.

Definition EVENT_QUEUE_SIZE := 8.
Definition MAX_SUBSCRIPTIONS := 32.
Definition SUBSCRIBERS_SIZE := NUMBER_OF_EVENTS + MAX_SUBSCRIPTIONS.

Inductive lcm_status_t := LCM_SUCCESS | LCM_ERROR.

(** [event_struct_t]: the kind and the payload union, the payload kept as an
    opaque word. *)
Record event_struct_t := mkEvent { ev_event : Z; ev_data : Z }.
Definition zero_event := mkEvent 0 0.

(** [subscriber_struct_t]; a callback is an identifier, [None] is NULL. *)
Record subscriber_struct_t := mkSub { s_event : Z; s_callback : option nat; s_next : Z }.
Definition zero_sub := mkSub 0 None 0.

(** The module's static variables. *)
Record state := mkState {
  event_queue_head : Z;
  event_queue_tail : Z;
  event_queue : list event_struct_t;
  subscribers : list subscriber_struct_t;
  next_subscriber_index : Z
}.

Definition set_head (s : state) h :=
  mkState h s.(event_queue_tail) s.(event_queue) s.(subscribers) s.(next_subscriber_index).
Definition set_tail (s : state) t :=
  mkState s.(event_queue_head) t s.(event_queue) s.(subscribers) s.(next_subscriber_index).
Definition set_queue (s : state) q :=
  mkState s.(event_queue_head) s.(event_queue_tail) q s.(subscribers) s.(next_subscriber_index).
Definition set_subs (s : state) sb n :=
  mkState s.(event_queue_head) s.(event_queue_tail) s.(event_queue) sb n.

(** [event_queue_init] *)
Definition event_queue_init : state :=
  mkState 0 0 (repeat zero_event (Z.to_nat EVENT_QUEUE_SIZE))
          (repeat zero_sub (Z.to_nat SUBSCRIBERS_SIZE)) NUMBER_OF_EVENTS.

(** [is_queue_empty] *)
Definition is_queue_empty (s : state) : bool :=
  s.(event_queue_head) =? s.(event_queue_tail).

(** [get_free_index]: reserves the slot at the tail (and advances the tail)
    when the queue is not full. *)
Definition get_free_index (s : state) : option (Z * state) :=
  let next_tail := (s.(event_queue_tail) + 1) mod EVENT_QUEUE_SIZE in
  if negb (next_tail =? s.(event_queue_head))
  then Some (s.(event_queue_tail), set_tail s next_tail)
  else None.

(** [event_queue_push event data]: [data = None] is a NULL pointer.  The C
    condition evaluates [get_free_index] first, then the kind checks. *)
Definition event_queue_push (s : state) (event : Z) (data : option Z)
  : lcm_status_t * state :=
  match get_free_index s with
  | Some (index, s1) =>
      if (event <? NUMBER_OF_EVENTS) && negb (event =? EVENT_NULL) then
        let d := match data with Some x => x | None => 0 end in
        (LCM_SUCCESS, set_queue s1 (aset s1.(event_queue) index (mkEvent event d)))
      else (LCM_ERROR, s1)
  | None => (LCM_ERROR, s)
  end.

(** [event_queue_get_num_events] *)
Definition event_queue_get_num_events (s : state) : Z :=
  let head := s.(event_queue_head) in
  let tail := s.(event_queue_tail) in
  if head <=? tail then tail - head else (EVENT_QUEUE_SIZE - head) + tail.

(** The loop of [notify_subscribers]: the callbacks met on the chain that
    starts at [index].  Every link points to a strictly larger index (see
    [subscribe_event]), so [SUBSCRIBERS_SIZE] iterations bound the loop. *)
Fixpoint chain (fuel : nat) (subs : list subscriber_struct_t) (index : Z) : list nat :=
  match fuel with
  | O => []
  | S f =>
      if (index =? 0) || (SUBSCRIBERS_SIZE <=? index) then []
      else
        let sb := aget zero_sub subs index in
        match sb.(s_callback) with
        | Some cb => cb :: chain f subs sb.(s_next)
        | None => chain f subs sb.(s_next)
        end
  end.

Definition subscribers_of (s : state) (event : Z) : list nat :=
  chain (Z.to_nat SUBSCRIBERS_SIZE) s.(subscribers) event.

(** [notify_subscribers]: the invocations it performs, in order.  Callbacks
    are modelled as observers: an invocation is recorded as the pair of the
    callback and the event it receives. *)
Definition notify_subscribers (s : state) (ev : event_struct_t) : list (nat * event_struct_t) :=
  map (fun cb => (cb, ev)) (subscribers_of s ev.(ev_event)).

(** The loop of [event_queue_pop_and_notify]; at most
    [EVENT_QUEUE_SIZE - 1] events are pending, so that many iterations
    bound it. *)
Fixpoint drain (fuel : nat) (s : state) : list (nat * event_struct_t) * state :=
  match fuel with
  | O => ([], s)
  | S f =>
      if is_queue_empty s then ([], s)
      else
        let ev := aget zero_event s.(event_queue) s.(event_queue_head) in
        let out := notify_subscribers s ev in
        let '(rest, s') := drain f (set_head s ((s.(event_queue_head) + 1) mod EVENT_QUEUE_SIZE)) in
        (out ++ rest, s')
  end.

Definition event_queue_pop_and_notify (s : state) : list (nat * event_struct_t) * state :=
  drain (Z.to_nat EVENT_QUEUE_SIZE) s.

(** The [while] loop of [subscribe_event] that walks to the last
    subscriber of a chain. *)
Fixpoint last_subscriber (fuel : nat) (subs : list subscriber_struct_t) (current : Z) : Z :=
  match fuel with
  | O => current
  | S f =>
      let nx := (aget zero_sub subs current).(s_next) in
      if nx =? 0 then current else last_subscriber f subs nx
  end.

Definition EMERGENCY_FAULT_OVERFLOW := 4.

(** [fault]: pushes an emergency-fault event, ignoring the status. *)
Definition fault (s : state) (f : Z) : state :=
  snd (event_queue_push s EVENT_EMERGENCY_FAULT (Some f)).

(** [subscribe_event]; [cb] is a non-NULL callback. *)
Definition subscribe_event (s : state) (event : Z) (cb : nat) : lcm_status_t * state :=
  if (event <? NUMBER_OF_EVENTS) && negb (event =? EVENT_NULL) then
    if match (aget zero_sub s.(subscribers) event).(s_callback) with
       | None => true | Some _ => false end
    then (LCM_SUCCESS,
          set_subs s (aset s.(subscribers) event (mkSub event (Some cb) 0))
                   s.(next_subscriber_index))
    else if s.(next_subscriber_index) <? SUBSCRIBERS_SIZE then
      let n := s.(next_subscriber_index) in
      let current := last_subscriber (Z.to_nat SUBSCRIBERS_SIZE) s.(subscribers) event in
      let subs1 := aset s.(subscribers) n (mkSub event (Some cb) 0) in
      let c := aget zero_sub subs1 current in
      let subs2 := aset subs1 current (mkSub c.(s_event) c.(s_callback) n) in
      (LCM_SUCCESS, set_subs s subs2 (n + 1))
    else (LCM_ERROR, fault s EMERGENCY_FAULT_OVERFLOW)
  else (LCM_ERROR, s).

(** The pending events, oldest first: the slots from the head, as many as
    [event_queue_get_num_events] reports. *)
Definition pending (s : state) : list event_struct_t :=
  map (fun j => aget zero_event s.(event_queue)
                  ((s.(event_queue_head) + Z.of_nat j) mod EVENT_QUEUE_SIZE))
      (seq 0 (Z.to_nat (event_queue_get_num_events s))).

(** Well-formed queue indices and storage. *)
Definition queue_wf (s : state) : Prop :=
  0 <= s.(event_queue_head) < EVENT_QUEUE_SIZE /\
  0 <= s.(event_queue_tail) < EVENT_QUEUE_SIZE /\
  length s.(event_queue) = Z.to_nat EVENT_QUEUE_SIZE.

End EventQueue.

(** ** Concrete scenarios of the event queue *)
Module EventQueueRuns.
Import EventQueue.

(** Pushes of [(kind, payload)] pairs, in order, ignoring the statuses. *)
Definition push_all (s : state) (evs : list (Z * Z)) : state :=
  fold_left (fun st e => snd (event_queue_push st (fst e) (Some (snd e)))) evs s.

(** Callback [7] subscribed to [EVENT_SYS_TICK]; seven ticks pushed and
    drained, then one more tick pushed and drained: head and tail are back
    at slot 0, whose stored event is the first tick (payload 100). *)
Definition subscribed : state := snd (subscribe_event event_queue_init EVENT_SYS_TICK 7).
Definition wrap_run : list (nat * event_struct_t) * state :=
  let s1 := push_all subscribed (map (fun i => (EVENT_SYS_TICK, 100 + i)) [0;1;2;3;4;5;6]) in
  let '(t1, s2) := event_queue_pop_and_notify s1 in
  let s3 := push_all s2 [(EVENT_SYS_TICK, 107)] in
  let '(t2, s4) := event_queue_pop_and_notify s3 in
  (t1 ++ t2, s4).
Definition after_wrap : state := snd wrap_run.

(** The subscribed queue after seven ticks (payloads 100 to 106) are pushed
    and none is popped: all seven usable slots are taken. *)
Definition full_queue : state :=
  push_all subscribed (map (fun i => (EVENT_SYS_TICK, 100 + i)) [0;1;2;3;4;5;6]).

End EventQueueRuns.

(** ** timer.c *)
Module Timer.

Definition MAX_TIMERS := 8.
Definition INVALID_TIMER_ID := 0.
Definition FIRST_TIMER_ID := INVALID_TIMER_ID + 1.
(** [timer_id_t] is [uint8_t]; [counter] and [timeout] are [uint32_t]. *)
Definition UINT8_MOD := 256.
Definition UINT32_MOD := 4294967296.

(** [timer_t]; a callback is an identifier, [None] is NULL. *)
Record timer_t := mkTimer {
  timeout : Z; counter : Z; callback : option nat; repeat : bool; id : Z
}.
Definition zero_timer := mkTimer 0 0 None false 0.

Record state := mkState { next_timer_id : Z; timers : list timer_t }.

(** [timer_init] (the tick subscription is not part of this state). *)
Definition timer_init : state :=
  mkState FIRST_TIMER_ID (List.repeat zero_timer (Z.to_nat MAX_TIMERS)).

Definition cb_eqb (a b : option nat) : bool :=
  match a, b with
  | Some x, Some y => Nat.eqb x y
  | None, None => true
  | _, _ => false
  end.

(** Index of the first slot satisfying [p] (the [for] loops with [break]). *)
Fixpoint find_slot (p : timer_t -> bool) (l : list timer_t) (i : nat) : option nat :=
  match l with
  | [] => None
  | t :: l' => if p t then Some i else find_slot p l' (S i)
  end.

(** [find_timer_id_by_callback] *)
Definition find_timer_id_by_callback (s : state) (cb : option nat) : Z :=
  match find_slot (fun t => cb_eqb t.(callback) cb) s.(timers) 0 with
  | Some i => (nth i s.(timers) zero_timer).(id)
  | None => INVALID_TIMER_ID
  end.

(** [find_timer_by_id]: the index of the slot. *)
Definition find_timer_by_id (s : state) (timer_id : Z) : option nat :=
  find_slot (fun t => t.(id) =? timer_id) s.(timers) 0.

(** [find_available_timer]: the first slot whose callback is NULL. *)
Definition find_available_timer (s : state) : option nat :=
  find_slot (fun t => match t.(callback) with None => true | Some _ => false end) s.(timers) 0.

(** The [while] loop of [find_next_timer_id]; [next_timer_id++] wraps at
    256.  At most [MAX_TIMERS] ids are in use, so [UINT8_MOD] iterations
    bound the loop. *)
Fixpoint next_id_loop (fuel : nat) (s : state) (n : Z) : Z :=
  match fuel with
  | O => n
  | S f =>
      match find_timer_by_id s n with
      | Some _ => next_id_loop f s ((n + 1) mod UINT8_MOD)
      | None => n
      end
  end.

(** [find_next_timer_id]: returns the id and the updated [next_timer_id]. *)
Definition find_next_timer_id (s : state) : Z * state :=
  let n := next_id_loop (Z.to_nat UINT8_MOD) s s.(next_timer_id) in
  (n, mkState n s.(timers)).

Definition update_slot (s : state) (i : nat) (f : timer_t -> timer_t) : state :=
  mkState s.(next_timer_id) (list_set s.(timers) i (f (nth i s.(timers) zero_timer))).

(** [set_timer timeout callback repeat]: the returned id, the new state and
    whether [fault(EMERGENCY_FAULT_OVERFLOW)] was raised.  In the creation
    path the fields are written before [find_next_timer_id] runs and the
    id after, as in the source. *)
Definition set_timer (s : state) (tmo : Z) (cb : nat) (rep : bool) : Z * state * bool :=
  let timer_id := find_timer_id_by_callback s (Some cb) in
  if timer_id =? INVALID_TIMER_ID then
    match find_available_timer s with
    | Some i =>
        let s1 := update_slot s i (fun t => mkTimer tmo tmo (Some cb) rep t.(id)) in
        let '(nid, s2) := find_next_timer_id s1 in
        let s3 := update_slot s2 i (fun t => mkTimer t.(timeout) t.(counter) t.(callback) t.(repeat) nid) in
        (nid, s3, false)
    | None => (INVALID_TIMER_ID, s, true)
    end
  else
    match find_timer_by_id s timer_id with
    | Some i =>
        (timer_id, update_slot s i (fun t => mkTimer tmo tmo t.(callback) rep t.(id)), false)
    | None => (timer_id, s, false)
    end.

(** [cancel_timer] *)
Definition cancel_timer (s : state) (timer_id : Z) : bool * state :=
  if negb (timer_id =? INVALID_TIMER_ID) then
    match find_timer_by_id s timer_id with
    | Some i => (true, update_slot s i (fun t => mkTimer t.(timeout) t.(counter) None t.(repeat) t.(id)))
    | None => (false, s)
    end
  else (false, s).

(** [is_timer_active] *)
Definition is_timer_active (s : state) (timer_id : Z) : bool :=
  negb (timer_id =? INVALID_TIMER_ID) &&
  match find_timer_by_id s timer_id with
  | Some i => match (nth i s.(timers) zero_timer).(callback) with Some _ => true | None => false end
  | None => false
  end.

(** [timer_active_count] *)
Definition timer_active_count (s : state) : nat :=
  length (filter (fun t => match t.(callback) with Some _ => true | None => false end) s.(timers)).

(** [get_timer_remaining] *)
Definition get_timer_remaining (s : state) (timer_id : Z) : Z :=
  if negb (timer_id =? INVALID_TIMER_ID) then
    match find_timer_by_id s timer_id with
    | Some i => (nth i s.(timers) zero_timer).(counter)
    | None => 0
    end
  else 0.

(** One slot of [timer_system_tick_event_handler]: the callbacks that fire
    and the updated slot.  Callbacks are modelled as observers (they do not
    call back into the pool), so the counter is still 0 when it is tested
    again after the call. *)
Definition tick_slot (t : timer_t) : list nat * timer_t :=
  match t.(callback) with
  | Some c =>
      let cnt := (t.(counter) - 1) mod UINT32_MOD in
      if cnt =? 0 then
        ([c], if t.(repeat) then mkTimer t.(timeout) t.(timeout) (Some c) true t.(id)
              else mkTimer t.(timeout) 0 None false t.(id))
      else ([], mkTimer t.(timeout) cnt (Some c) t.(repeat) t.(id))
  | None => ([], t)
  end.

Fixpoint tick_slots (l : list timer_t) : list nat * list timer_t :=
  match l with
  | [] => ([], [])
  | t :: l' =>
      let '(f1, t') := tick_slot t in
      let '(f2, l'') := tick_slots l' in
      (f1 ++ f2, t' :: l'')
  end.

(** [timer_system_tick_event_handler] *)
Definition timer_system_tick (s : state) : list nat * state :=
  let '(fired, l) := tick_slots s.(timers) in (fired, mkState s.(next_timer_id) l).

(** [n] system ticks. *)
Fixpoint ticks (n : nat) (s : state) : list nat * state :=
  match n with
  | O => ([], s)
  | S k =>
      let '(f1, s1) := timer_system_tick s in
      let '(f2, s2) := ticks k s1 in
      (f1 ++ f2, s2)
  end.

(** Slot [i] of [l] is live with callback [cb] and counter [c], and no
    other slot holds [cb]. *)
Definition armed_slot (i : nat) (cb : nat) (c : Z) (l : list timer_t) : Prop :=
  (i < length l)%nat /\ callback (nth i l zero_timer) = Some cb /\
  counter (nth i l zero_timer) = c /\
  forall j, j <> i -> callback (nth j l zero_timer) <> Some cb.

(** Operations other modules perform on the pool. *)
Inductive op := OpSet (tmo : Z) (cb : nat) (rep : bool) | OpCancel (timer_id : Z) | OpTick.

Definition run_op (s : state) (o : op) : state :=
  match o with
  | OpSet tmo cb rep => snd (fst (set_timer s tmo cb rep))
  | OpCancel i => snd (cancel_timer s i)
  | OpTick => snd (timer_system_tick s)
  end.

Definition run_ops (s : state) (os : list op) : state := fold_left run_op os s.

End Timer.

(** ** hysteresis.c *)
Module Hysteresis.

Inductive hys_state_t := STATE_RESET | STATE_SET | STATE_ERROR.

Definition hys_state_eqb (a b : hys_state_t) : bool :=
  match a, b with
  | STATE_RESET, STATE_RESET | STATE_SET, STATE_SET | STATE_ERROR, STATE_ERROR => true
  | _, _ => false
  end.

Record hysteresis_t := mkHys {
  state : hys_state_t; set_threshold : Q; reset_threshold : Q
}.

(** A zero-initialised static latch ([STATE_RESET] is 0). *)
Definition zero_hysteresis := mkHys STATE_RESET 0 0.

(** [hysteresis_init] on a non-NULL latch [h]. *)
Definition hysteresis_init (h : hysteresis_t) (set_thr reset_thr : Q)
  : EventQueue.lcm_status_t * hysteresis_t :=
  if Qlt_le_dec set_thr reset_thr
  then (EventQueue.LCM_ERROR, mkHys STATE_ERROR h.(set_threshold) h.(reset_threshold))
  else (EventQueue.LCM_SUCCESS, mkHys STATE_RESET set_thr reset_thr).

(** [apply_hysteresis] on a non-NULL latch: the reported state and the
    updated latch. *)
Definition apply_hysteresis (h : hysteresis_t) (value : Q) : hys_state_t * hysteresis_t :=
  if hys_state_eqb h.(state) STATE_RESET && Qle_bool h.(set_threshold) value then
    (STATE_SET, mkHys STATE_SET h.(set_threshold) h.(reset_threshold))
  else if hys_state_eqb h.(state) STATE_SET && negb (Qle_bool h.(reset_threshold) value) then
    (STATE_RESET, mkHys STATE_RESET h.(set_threshold) h.(reset_threshold))
  else (h.(state), h).

(** Feeding a sequence of samples, collecting the reported states. *)
Fixpoint apply_all (h : hysteresis_t) (vs : list Q) : list hys_state_t :=
  match vs with
  | [] => []
  | v :: vs' => let '(r, h') := apply_hysteresis h v in r :: apply_all h' vs'
  end.

End Hysteresis.

(** ** vesc_serial.c *)
Module VescSerial.

Definition COMM_GET_VALUES_SETUP_SELECTIVE := 51.
Definition COMM_GET_VALUES_SETUP_SELECTIVE_RESPONSE_LENGTH := 16.
Definition COMM_GET_VALUES_SETUP_SELECTIVE_MASK := 65968. (* 0x101b0 *)
Definition START_BYTE := 2.
Definition END_BYTE := 3.
Definition MAX_PACKET_LENGTH := 32.
Definition MAX_OUTSTANDING_PACKETS := 5.

(** [emergency_fault_t] codes raised by this module. *)
Definition EMERGENCY_FAULT_OUT_OF_BOUNDS := 2.
Definition EMERGENCY_FAULT_INVALID_LENGTH := 9.
Definition EMERGENCY_FAULT_VESC := 10.
Definition EMERGENCY_FAULT_VESC_COMM_TIMEOUT := 11.

(** Modelled from the spec: [crc16_ccitt], declared in [crc16_ccitt.h]
    whose implementation is not part of the sources; CRC16-CCITT as used by
    the VESC protocol (polynomial 0x1021, initial value 0, no reflection),
    bit by bit. *)
Fixpoint crc_bits (n : nat) (crc : Z) : Z :=
  match n with
  | O => crc
  | S k =>
      let c := if Z.testbit crc 15 then Z.lxor (Z.shiftl crc 1) 4129 else Z.shiftl crc 1 in
      crc_bits k (Z.land c 65535)
  end.

Definition crc16_ccitt (data : list Z) : Z :=
  fold_left (fun crc b => crc_bits 8 (Z.lxor crc (Z.shiftl b 8))) data 0.

(** The fields kept by [comm_get_values_setup_selective_t]
    (ENABLE_VOLTAGE_MONITORING is not defined).  Floats are modelled in
    [Q].  [buffer_get_float16] and [buffer_get_float32] return
    [float16_t], a type declared outside the sources; whatever its
    precision, rounding is monotone and keeps the decoded values (tenths
    of a 16-bit integer, and 32-bit integers) on the same side of each
    bound of the range checks (-100, 0, 100, -25000, 25000), so the checks
    decide as they do in [Q]. *)
Record values_t := mkValues {
  duty_cycle : Q; rpm : Z; battery_level : Q; vfault : Z
}.
Definition zero_values := mkValues 0 0 0 0.

(** The events this module pushes, with their payloads. *)
Inductive push :=
| PushFault (f : Z)
| PushDutyCycle (d : Q)
| PushRpm (r : Z)
| PushBatteryLevel (b : Q)
| PushVescAlive.

(** Byte readers on a payload array [p] at offset [o]. *)
Definition byte_at (p : list Z) (o : nat) : Z := nth o p 0.

Definition buffer_get_int16 (p : list Z) (o : nat) : Z :=
  let u := byte_at p o * 256 + byte_at p (S o) in
  if u <? 32768 then u else u - 65536.

Definition buffer_get_uint32 (p : list Z) (o : nat) : Z :=
  byte_at p o * 16777216 + byte_at p (S o) * 65536 +
  byte_at p (S (S o)) * 256 + byte_at p (S (S (S o))).

Definition buffer_get_int32 (p : list Z) (o : nat) : Z :=
  let u := buffer_get_uint32 p o in
  if u <? 2147483648 then u else u - 4294967296.

(** [buffer_get_float16 (p+o, 10.0f)] *)
Definition buffer_get_float16_10 (p : list Z) (o : nat) : Q :=
  inject_Z (buffer_get_int16 p o) / 10.

(** [process_comm_get_values_setup_selective payload packet_length]: the
    pushes it performs, in order, and the retained values. *)
Definition process_comm_get_values_setup_selective
  (vals : values_t) (payload : list Z) (packet_length : Z) : list push * values_t :=
  if negb (packet_length =? COMM_GET_VALUES_SETUP_SELECTIVE_RESPONSE_LENGTH) then
    ([PushFault EMERGENCY_FAULT_INVALID_LENGTH], vals)
  else if negb (buffer_get_uint32 payload 1 =? COMM_GET_VALUES_SETUP_SELECTIVE_MASK) then
    ([PushFault EMERGENCY_FAULT_OUT_OF_BOUNDS], vals)
  else
    let duty := buffer_get_float16_10 payload 5 in
    if negb (Qle_bool (-100) duty) || negb (Qle_bool duty 100) then
      ([PushFault EMERGENCY_FAULT_OUT_OF_BOUNDS], vals)
    else
      let r := buffer_get_int32 payload 7 in
      if (r <? -25000) || (25000 <? r) then
        ([PushFault EMERGENCY_FAULT_OUT_OF_BOUNDS], vals)
      else
        let batt := buffer_get_float16_10 payload 13 in
        if negb (Qle_bool 0 batt) || negb (Qle_bool batt 100) then
          ([PushFault EMERGENCY_FAULT_OUT_OF_BOUNDS], vals)
        else
          let f := byte_at payload 15 in
          let '(p1, v1) :=
            if negb (Qeq_bool duty vals.(duty_cycle))
            then ([PushDutyCycle duty], mkValues duty vals.(rpm) vals.(battery_level) vals.(vfault))
            else ([], vals) in
          let '(p2, v2) :=
            if negb (r =? v1.(rpm))
            then ([PushRpm r], mkValues v1.(duty_cycle) r v1.(battery_level) v1.(vfault))
            else ([], v1) in
          let '(p3, v3) :=
            if negb (Qeq_bool batt v2.(battery_level))
            then ([PushBatteryLevel batt], mkValues v2.(duty_cycle) v2.(rpm) batt v2.(vfault))
            else ([], v2) in
          let '(p4, v4) :=
            if negb (f =? v3.(vfault))
            then ([PushFault EMERGENCY_FAULT_VESC], mkValues v3.(duty_cycle) v3.(rpm) v3.(battery_level) f)
            else ([], v3) in
          (p1 ++ p2 ++ p3 ++ p4, v4).

(** The module's static variables; the RX ring buffer is modelled by the
    sequence of bytes it holds, oldest first ([ring_buffer_pop] takes the
    first). *)
Record state := mkState {
  rx_bytes : list Z;
  comm_values : values_t;
  vesc_alive : bool;
  outstanding_packet_count : Z;
  vesc_serial_callback : option nat;
  pushes : list push;
  callbacks_called : list nat;
  frames_sent : nat
}.

Definition with_rx s b := mkState b s.(comm_values) s.(vesc_alive) s.(outstanding_packet_count)
  s.(vesc_serial_callback) s.(pushes) s.(callbacks_called) s.(frames_sent).
Definition with_push s p := mkState s.(rx_bytes) s.(comm_values) s.(vesc_alive)
  s.(outstanding_packet_count) s.(vesc_serial_callback) (s.(pushes) ++ p) s.(callbacks_called) s.(frames_sent).

(** [ring_buffer_pop] *)
Definition ring_buffer_pop (s : state) : option (Z * state) :=
  match s.(rx_bytes) with
  | [] => None
  | b :: rest => Some (b, with_rx s rest)
  end.

(** [clear_outstanding_packets] *)
Definition clear_outstanding_packets (s : state) : state :=
  let '(called, cb) :=
    match s.(vesc_serial_callback) with
    | Some c => (s.(callbacks_called) ++ [c], None)
    | None => (s.(callbacks_called), None)
    end in
  mkState s.(rx_bytes) s.(comm_values) s.(vesc_alive) 0 cb s.(pushes) called s.(frames_sent).

(** [process_packet] *)
Definition process_packet (s : state) (payload : list Z) (packet_length : Z) : state :=
  let s1 := if s.(vesc_alive) then s
            else mkState s.(rx_bytes) s.(comm_values) true s.(outstanding_packet_count)
                   s.(vesc_serial_callback) (s.(pushes) ++ [PushVescAlive])
                   s.(callbacks_called) s.(frames_sent) in
  if byte_at payload 0 =? COMM_GET_VALUES_SETUP_SELECTIVE then
    let '(p, v) := process_comm_get_values_setup_selective s1.(comm_values) payload packet_length in
    mkState s1.(rx_bytes) v s1.(vesc_alive) s1.(outstanding_packet_count)
      s1.(vesc_serial_callback) (s1.(pushes) ++ p) s1.(callbacks_called) s1.(frames_sent)
  else s1.

(** The [for] loop reading [n] payload bytes into [payload] from index [i];
    [None] when the buffer runs out (the handler then returns). *)
Fixpoint read_payload (n : nat) (i : nat) (payload : list Z) (s : state)
  : option (list Z) * state :=
  match n with
  | O => (Some payload, s)
  | S k =>
      match ring_buffer_pop s with
      | None => (None, s)
      | Some (b, s1) => read_payload k (S i) (list_set payload i b) s1
      end
  end.

(** The body of the search loop once [START_BYTE] has been read: [inl s]
    when the handler returns in state [s], otherwise [inr] of the last byte
    read, the payload array and the state. *)
Definition read_frame (payload : list Z) (s : state) : state + (Z * list Z * state) :=
  match ring_buffer_pop s with
  | None => inl s
  | Some (packet_length, s1) =>
      if MAX_PACKET_LENGTH <? packet_length then inl s1 else
      match read_payload (Z.to_nat packet_length) 0 payload s1 with
      | (None, s2) => inl s2
      | (Some pl, s2) =>
          match ring_buffer_pop s2 with
          | None => inl s2
          | Some (hi, s3) =>
              match ring_buffer_pop s3 with
              | None => inl s3
              | Some (lo, s4) =>
                  let crc := Z.lor (Z.land (Z.shiftl hi 8) 65535) lo in
                  match ring_buffer_pop s4 with
                  | None => inl s4
                  | Some (byte, s5) =>
                      if (byte =? END_BYTE) &&
                         (crc16_ccitt (firstn (Z.to_nat packet_length) pl) =? crc)
                      then inr (byte, pl, process_packet s5 pl packet_length)
                      else inr (byte, pl, s5)
                  end
              end
          end
      end
  end.

(** The [while] loop of [vesc_serial_rx_event_handler]; every iteration
    consumes at least one byte. *)
Fixpoint rx_loop (fuel : nat) (byte : Z) (payload : list Z) (s : state) : state :=
  match fuel with
  | O => s
  | S f =>
      if byte =? START_BYTE then s else
      match ring_buffer_pop s with
      | None => s
      | Some (b, s1) =>
          if b =? START_BYTE then
            match read_frame payload s1 with
            | inl s2 => s2
            | inr (b', pl, s2) => rx_loop f b' pl s2
            end
          else rx_loop f b payload s1
      end
  end.

(** [vesc_serial_rx_event_handler] *)
Definition vesc_serial_rx_event_handler (s : state) : state :=
  let s1 := clear_outstanding_packets s in
  rx_loop (S (length s1.(rx_bytes))) 0 (List.repeat 0 (Z.to_nat MAX_PACKET_LENGTH)) s1.

(** [vesc_serial_tx_timer_callback]: the post-increment comparison
    [count++ >= MAX_OUTSTANDING_PACKETS] on a [uint8_t], then the send. *)
Definition vesc_serial_tx_timer_callback (s : state) : state :=
  let s1 :=
    if s.(vesc_alive) then
      let old := s.(outstanding_packet_count) in
      let s' := mkState s.(rx_bytes) s.(comm_values) s.(vesc_alive) ((old + 1) mod 256)
                  s.(vesc_serial_callback) s.(pushes) s.(callbacks_called) s.(frames_sent) in
      if MAX_OUTSTANDING_PACKETS <=? old then
        let s'' := with_push s' [PushFault EMERGENCY_FAULT_VESC_COMM_TIMEOUT] in
        clear_outstanding_packets
          (mkState s''.(rx_bytes) s''.(comm_values) false s''.(outstanding_packet_count)
             s''.(vesc_serial_callback) s''.(pushes) s''.(callbacks_called) s''.(frames_sent))
      else s'
    else s in
  mkState s1.(rx_bytes) s1.(comm_values) s1.(vesc_alive) s1.(outstanding_packet_count)
    s1.(vesc_serial_callback) s1.(pushes) s1.(callbacks_called) (S s1.(frames_sent)).

End VescSerial.

(** ** board_mode.c *)
Module BoardMode.
Import Hysteresis.

Inductive board_mode_t :=
| BOARD_MODE_UNKNOWN | BOARD_MODE_OFF | BOARD_MODE_BOOTING | BOARD_MODE_IDLE
| BOARD_MODE_RIDING | BOARD_MODE_CHARGING | BOARD_MODE_FAULT.

Inductive board_submode_t :=
| BOARD_SUBMODE_UNDEFINED
| BOARD_SUBMODE_IDLE_ACTIVE | BOARD_SUBMODE_IDLE_DEFAULT | BOARD_SUBMODE_IDLE_DOZING
| BOARD_SUBMODE_IDLE_SHUTTING_DOWN | BOARD_SUBMODE_IDLE_CONFIG
| BOARD_SUBMODE_RIDING_STOPPED | BOARD_SUBMODE_RIDING_SLOW | BOARD_SUBMODE_RIDING_NORMAL
| BOARD_SUBMODE_RIDING_WARNING | BOARD_SUBMODE_RIDING_DANGER
| BOARD_SUBMODE_FAULT_INTERNAL | BOARD_SUBMODE_FAULT_VESC.

Scheme Equality for board_mode_t.
Scheme Equality for board_submode_t.

(** config.h *)
Definition IDLE_ACTIVE_TIMEOUT := 4000.
Definition IDLE_DEFAULT_TIMEOUT := 120000.
Definition IDLE_DOZING_TIMEOUT := 480000.
Definition IDLE_SHUTTING_DOWN_TIMEOUT := 1000.
Definition STOPPED_RPM_THRESHOLD : Q := 20.
Definition SLOW_RPM_THRESHOLD : Q := 2000.
Definition DUTY_CYCLE_DANGER_THRESHOLD : Q := 90.
Definition DUTY_CYCLE_WARNING_THRESHOLD : Q := 80.
Definition NONE_FOOTPAD := 0.
Definition EMERGENCY_FAULT_INVALID_STATE := 7.

(** The callback identifier of [board_mode_idle_timer_handler] in the timer
    pool. *)
Definition board_mode_idle_timer_handler_cb : nat := 100.

(** The module's static variables, the timer pool it shares with the
    other modules, the values it reads through [vesc_serial_get_duty_cycle],
    [vesc_serial_get_rpm], [vesc_serial_get_imu_roll] and
    [footpads_get_state], and the kinds of the events it pushes. *)
Record state := mkState {
  board_mode : board_mode_t;
  board_submode : board_submode_t;
  board_mode_idle_timer_id : Z;
  timers : Timer.state;
  stopped_rpm_hysteresis : hysteresis_t;
  slow_rpm_hysteresis : hysteresis_t;
  danger_hysteresis : hysteresis_t;
  warning_hysteresis : hysteresis_t;
  vesc_duty_cycle : Q;
  vesc_rpm : Z;
  vesc_imu_roll : Q;
  footpads_state : Z;
  pushed : list Z
}.

Definition with_mode s m sm := mkState m sm s.(board_mode_idle_timer_id) s.(timers)
  s.(stopped_rpm_hysteresis) s.(slow_rpm_hysteresis) s.(danger_hysteresis) s.(warning_hysteresis)
  s.(vesc_duty_cycle) s.(vesc_rpm) s.(vesc_imu_roll) s.(footpads_state) s.(pushed).
Definition with_push s k := mkState s.(board_mode) s.(board_submode) s.(board_mode_idle_timer_id) s.(timers)
  s.(stopped_rpm_hysteresis) s.(slow_rpm_hysteresis) s.(danger_hysteresis) s.(warning_hysteresis)
  s.(vesc_duty_cycle) s.(vesc_rpm) s.(vesc_imu_roll) s.(footpads_state) (s.(pushed) ++ [k]).
Definition with_timers s tid t := mkState s.(board_mode) s.(board_submode) tid t
  s.(stopped_rpm_hysteresis) s.(slow_rpm_hysteresis) s.(danger_hysteresis) s.(warning_hysteresis)
  s.(vesc_duty_cycle) s.(vesc_rpm) s.(vesc_imu_roll) s.(footpads_state) s.(pushed).
Definition with_hys s st sl dg wn := mkState s.(board_mode) s.(board_submode) s.(board_mode_idle_timer_id)
  s.(timers) st sl dg wn
  s.(vesc_duty_cycle) s.(vesc_rpm) s.(vesc_imu_roll) s.(footpads_state) s.(pushed).

(** [fault f]: pushes [EVENT_EMERGENCY_FAULT]. *)
Definition fault (s : state) : state := with_push s EventQueue.EVENT_EMERGENCY_FAULT.

(** [board_mode_idle_timer_id = set_timer(tmo, board_mode_idle_timer_handler, false)] *)
Definition arm_idle_timer (s : state) (tmo : Z) : state :=
  let '(tid, t, flt) := Timer.set_timer s.(timers) tmo board_mode_idle_timer_handler_cb false in
  let s1 := with_timers s tid t in
  if flt then fault s1 else s1.

(** [if (id != INVALID_TIMER_ID && is_timer_active(id)) cancel_timer(id)] *)
Definition cancel_idle_timer (s : state) : state :=
  let tid := s.(board_mode_idle_timer_id) in
  if negb (tid =? Timer.INVALID_TIMER_ID) && Timer.is_timer_active s.(timers) tid
  then with_timers s tid (snd (Timer.cancel_timer s.(timers) tid))
  else s.

(** [set_board_mode] *)
Definition set_board_mode (s : state) (mode : board_mode_t) (submode : board_submode_t) : state :=
  if negb (board_mode_t_beq s.(board_mode) mode) || negb (board_submode_t_beq s.(board_submode) submode)
  then
    let s1 := with_mode (with_push s EventQueue.EVENT_BOARD_MODE_CHANGED) mode submode in
    match mode with
    | BOARD_MODE_IDLE =>
        match submode with
        | BOARD_SUBMODE_IDLE_ACTIVE => arm_idle_timer s1 IDLE_ACTIVE_TIMEOUT
        | BOARD_SUBMODE_IDLE_DEFAULT => arm_idle_timer s1 IDLE_DEFAULT_TIMEOUT
        | BOARD_SUBMODE_IDLE_DOZING => arm_idle_timer s1 IDLE_DOZING_TIMEOUT
        | BOARD_SUBMODE_IDLE_SHUTTING_DOWN => arm_idle_timer s1 IDLE_SHUTTING_DOWN_TIMEOUT
        | BOARD_SUBMODE_IDLE_CONFIG => cancel_idle_timer s1
        | _ => fault s1
        end
    | BOARD_MODE_RIDING => cancel_idle_timer s1
    | BOARD_MODE_FAULT => cancel_idle_timer s1
    | _ => s1
    end
  else s.

(** [board_mode_init], on the zero-initialised latches and the given timer
    pool. *)
Definition board_mode_init (t : Timer.state) : state :=
  let h0 := zero_hysteresis in
  mkState BOARD_MODE_OFF BOARD_SUBMODE_UNDEFINED Timer.INVALID_TIMER_ID t
    (snd (hysteresis_init h0 STOPPED_RPM_THRESHOLD (STOPPED_RPM_THRESHOLD - STOPPED_RPM_THRESHOLD * (1 # 10))))
    (snd (hysteresis_init h0 SLOW_RPM_THRESHOLD (SLOW_RPM_THRESHOLD - SLOW_RPM_THRESHOLD * (1 # 10))))
    (snd (hysteresis_init h0 DUTY_CYCLE_DANGER_THRESHOLD (DUTY_CYCLE_DANGER_THRESHOLD - 5)))
    (snd (hysteresis_init h0 DUTY_CYCLE_WARNING_THRESHOLD (DUTY_CYCLE_WARNING_THRESHOLD - 5)))
    0 0 0 NONE_FOOTPAD [].

(** [(float)abs(rpm)] *)
Definition abs_rpm (r : Z) : Q := inject_Z (Z.abs r).

(** [update_riding_submode] with ENABLE_ROLL_EVENTS defined. *)
Definition update_riding_submode (s : state) : state :=
  let duty_cycle := s.(vesc_duty_cycle) in
  let r := s.(vesc_rpm) in
  let roll := s.(vesc_imu_roll) in
  if negb (Qle_bool roll 45) || negb (Qle_bool (-45) roll) then s else
  let '(d, dg) := apply_hysteresis s.(danger_hysteresis) duty_cycle in
  let s := with_hys s s.(stopped_rpm_hysteresis) s.(slow_rpm_hysteresis) dg s.(warning_hysteresis) in
  if hys_state_eqb d STATE_SET then
    if negb (board_submode_t_beq s.(board_submode) BOARD_SUBMODE_RIDING_DANGER)
    then set_board_mode s BOARD_MODE_RIDING BOARD_SUBMODE_RIDING_DANGER else s
  else
  let '(w, wn) := apply_hysteresis s.(warning_hysteresis) duty_cycle in
  let s := with_hys s s.(stopped_rpm_hysteresis) s.(slow_rpm_hysteresis) s.(danger_hysteresis) wn in
  if hys_state_eqb w STATE_SET then
    if negb (board_submode_t_beq s.(board_submode) BOARD_SUBMODE_RIDING_WARNING)
    then set_board_mode s BOARD_MODE_RIDING BOARD_SUBMODE_RIDING_WARNING else s
  else
  let '(sw, sl) := apply_hysteresis s.(slow_rpm_hysteresis) (abs_rpm r) in
  let s := with_hys s s.(stopped_rpm_hysteresis) sl s.(danger_hysteresis) s.(warning_hysteresis) in
  if hys_state_eqb sw STATE_SET then
    if negb (board_submode_t_beq s.(board_submode) BOARD_SUBMODE_RIDING_NORMAL)
    then set_board_mode s BOARD_MODE_RIDING BOARD_SUBMODE_RIDING_NORMAL else s
  else
  let '(st, stp) := apply_hysteresis s.(stopped_rpm_hysteresis) (abs_rpm r) in
  let s := with_hys s stp s.(slow_rpm_hysteresis) s.(danger_hysteresis) s.(warning_hysteresis) in
  if hys_state_eqb st STATE_SET then
    if negb (board_submode_t_beq s.(board_submode) BOARD_SUBMODE_RIDING_SLOW)
    then set_board_mode s BOARD_MODE_RIDING BOARD_SUBMODE_RIDING_SLOW else s
  else
    if negb (board_submode_t_beq s.(board_submode) BOARD_SUBMODE_RIDING_STOPPED)
    then set_board_mode s BOARD_MODE_RIDING BOARD_SUBMODE_RIDING_STOPPED else s.

(** [board_mode_vesc_alive_event_handler] *)
Definition vesc_alive_handler (s : state) : state :=
  if board_mode_t_beq s.(board_mode) BOARD_MODE_BOOTING
  then set_board_mode s BOARD_MODE_IDLE BOARD_SUBMODE_IDLE_ACTIVE else s.

(** The events [board_mode_command_event_handler] is subscribed to, with
    the payload fields it reads. *)
Inductive command :=
| CmdBoot | CmdShutdown | CmdModeConfig (enable : bool) | CmdButtonUp | CmdImuRoll (roll : Q).

(** [board_mode_command_event_handler] *)
Definition command_handler (s : state) (c : command) : state :=
  match c with
  | CmdBoot =>
      if board_mode_t_beq s.(board_mode) BOARD_MODE_OFF
      then set_board_mode s BOARD_MODE_BOOTING BOARD_SUBMODE_UNDEFINED else s
  | CmdShutdown => set_board_mode s BOARD_MODE_IDLE BOARD_SUBMODE_IDLE_SHUTTING_DOWN
  | CmdModeConfig true =>
      if board_mode_t_beq s.(board_mode) BOARD_MODE_IDLE
      then set_board_mode s BOARD_MODE_IDLE BOARD_SUBMODE_IDLE_CONFIG
      else with_push s EventQueue.EVENT_COMMAND_NACK
  | CmdModeConfig false => set_board_mode s BOARD_MODE_IDLE BOARD_SUBMODE_IDLE_ACTIVE
  | CmdButtonUp =>
      if board_mode_t_beq s.(board_mode) BOARD_MODE_IDLE &&
         board_submode_t_beq s.(board_submode) BOARD_SUBMODE_IDLE_SHUTTING_DOWN
      then set_board_mode s BOARD_MODE_IDLE BOARD_SUBMODE_IDLE_ACTIVE else s
  | CmdImuRoll roll =>
      if board_mode_t_beq s.(board_mode) BOARD_MODE_IDLE &&
         (board_submode_t_beq s.(board_submode) BOARD_SUBMODE_IDLE_ACTIVE ||
          board_submode_t_beq s.(board_submode) BOARD_SUBMODE_IDLE_DEFAULT) &&
         (negb (Qle_bool roll 45) || negb (Qle_bool (-45) roll))
      then set_board_mode s BOARD_MODE_IDLE BOARD_SUBMODE_IDLE_DOZING
      else if board_mode_t_beq s.(board_mode) BOARD_MODE_IDLE &&
              board_submode_t_beq s.(board_submode) BOARD_SUBMODE_IDLE_DOZING &&
              (Qle_bool roll 45 && Qle_bool (-45) roll)
      then set_board_mode s BOARD_MODE_IDLE BOARD_SUBMODE_IDLE_ACTIVE
      else s
  end.

(** [board_mode_idle_timer_handler] *)
Definition idle_timer_handler (s : state) : state :=
  if board_mode_t_beq s.(board_mode) BOARD_MODE_IDLE then
    match s.(board_submode) with
    | BOARD_SUBMODE_IDLE_ACTIVE => set_board_mode s BOARD_MODE_IDLE BOARD_SUBMODE_IDLE_DEFAULT
    | BOARD_SUBMODE_IDLE_DEFAULT => set_board_mode s BOARD_MODE_IDLE BOARD_SUBMODE_IDLE_DOZING
    | BOARD_SUBMODE_IDLE_DOZING => set_board_mode s BOARD_MODE_IDLE BOARD_SUBMODE_IDLE_SHUTTING_DOWN
    | BOARD_SUBMODE_IDLE_SHUTTING_DOWN => set_board_mode s BOARD_MODE_OFF BOARD_SUBMODE_UNDEFINED
    | _ => s
    end
  else s.

(** [board_mode_rpm_changed_event_handler], [data->rpm = r] *)
Definition rpm_changed_handler (s : state) (r : Z) : state :=
  match s.(board_mode) with
  | BOARD_MODE_IDLE => if 0 <? Z.abs r then update_riding_submode s else s
  | BOARD_MODE_RIDING =>
      if (Z.abs r =? 0) && (s.(footpads_state) =? NONE_FOOTPAD)
      then set_board_mode s BOARD_MODE_IDLE BOARD_SUBMODE_IDLE_ACTIVE
      else update_riding_submode s
  | _ => s
  end.

(** [board_mode_duty_cycle_changed_event_handler] *)
Definition duty_cycle_changed_handler (s : state) : state :=
  if board_mode_t_beq s.(board_mode) BOARD_MODE_RIDING then update_riding_submode s else s.

(** [board_mode_emergency_fault_event_handler] *)
Definition emergency_fault_handler (s : state) : state :=
  set_board_mode s BOARD_MODE_FAULT BOARD_SUBMODE_UNDEFINED.

(** [board_mode_footpad_changed_event_handler], [data->footpads_state = fp] *)
Definition footpad_changed_handler (s : state) (fp : Z) : state :=
  match s.(board_mode) with
  | BOARD_MODE_IDLE =>
      if negb (board_submode_t_beq s.(board_submode) BOARD_SUBMODE_IDLE_CONFIG) &&
         negb (fp =? NONE_FOOTPAD)
      then update_riding_submode s else s
  | BOARD_MODE_RIDING =>
      if (fp =? NONE_FOOTPAD) && (s.(vesc_rpm) =? 0)
      then set_board_mode s BOARD_MODE_IDLE BOARD_SUBMODE_IDLE_ACTIVE else s
  | _ => s
  end.

(** Inputs of the state machine: the events it handles, the telemetry and
    footpad values it reads changing, and other modules' use of the shared
    timer pool. *)
Inductive input :=
| InCommand (c : command)
| InVescAlive
| InIdleTimer
| InRpmChanged (r : Z)
| InDutyCycleChanged
| InEmergencyFault
| InFootpadChanged (fp : Z)
| InTelemetry (duty : Q) (r : Z) (roll : Q)
| InFootpads (fp : Z)
| InTimerOp (o : Timer.op).

Definition step (s : state) (i : input) : state :=
  match i with
  | InCommand c => command_handler s c
  | InVescAlive => vesc_alive_handler s
  | InIdleTimer => idle_timer_handler s
  | InRpmChanged r => rpm_changed_handler s r
  | InDutyCycleChanged => duty_cycle_changed_handler s
  | InEmergencyFault => emergency_fault_handler s
  | InFootpadChanged fp => footpad_changed_handler s fp
  | InTelemetry d r roll =>
      mkState s.(board_mode) s.(board_submode) s.(board_mode_idle_timer_id) s.(timers)
        s.(stopped_rpm_hysteresis) s.(slow_rpm_hysteresis) s.(danger_hysteresis) s.(warning_hysteresis)
        d r roll s.(footpads_state) s.(pushed)
  | InFootpads fp =>
      mkState s.(board_mode) s.(board_submode) s.(board_mode_idle_timer_id) s.(timers)
        s.(stopped_rpm_hysteresis) s.(slow_rpm_hysteresis) s.(danger_hysteresis) s.(warning_hysteresis)
        s.(vesc_duty_cycle) s.(vesc_rpm) s.(vesc_imu_roll) fp s.(pushed)
  | InTimerOp o => with_timers s s.(board_mode_idle_timer_id) (Timer.run_op s.(timers) o)
  end.

Definition run (s : state) (is : list input) : state := fold_left step is s.

(** The state after booting the firmware ([board_mode_init] on a fresh
    timer pool) and processing the inputs [is]. *)
Definition run_from_init (is : list input) : state :=
  run (board_mode_init Timer.timer_init) is.

(** The riding submodes in the priority order of the specification
    (DANGER > WARNING > NORMAL > SLOW > STOPPED), chosen from the states
    the four latches of [s] report for its duty cycle and RPM; compared
    with [update_riding_submode] below. *)
Definition priority_submode (s : state) : board_submode_t :=
  if hys_state_eqb (fst (apply_hysteresis s.(danger_hysteresis) s.(vesc_duty_cycle))) STATE_SET
  then BOARD_SUBMODE_RIDING_DANGER
  else if hys_state_eqb (fst (apply_hysteresis s.(warning_hysteresis) s.(vesc_duty_cycle))) STATE_SET
  then BOARD_SUBMODE_RIDING_WARNING
  else if hys_state_eqb (fst (apply_hysteresis s.(slow_rpm_hysteresis) (abs_rpm s.(vesc_rpm)))) STATE_SET
  then BOARD_SUBMODE_RIDING_NORMAL
  else if hys_state_eqb (fst (apply_hysteresis s.(stopped_rpm_hysteresis) (abs_rpm s.(vesc_rpm)))) STATE_SET
  then BOARD_SUBMODE_RIDING_SLOW
  else BOARD_SUBMODE_RIDING_STOPPED.

(** The riding submodes. *)
Definition is_riding_submode (sm : board_submode_t) : bool :=
  match sm with
  | BOARD_SUBMODE_RIDING_STOPPED | BOARD_SUBMODE_RIDING_SLOW | BOARD_SUBMODE_RIDING_NORMAL
  | BOARD_SUBMODE_RIDING_WARNING | BOARD_SUBMODE_RIDING_DANGER => true
  | _ => false
  end.

(** The board is in mode RIDING whenever its submode is a riding one. *)
Definition riding_consistent (s : state) : Prop :=
  is_riding_submode (board_submode s) = true -> board_mode s = BOARD_MODE_RIDING.

(** Whether a live slot of the pool holds the idle-timer callback. *)
Definition idle_timer_pending (s : state) : bool :=
  existsb (fun t => match t.(Timer.callback) with
                    | Some c => Nat.eqb c board_mode_idle_timer_handler_cb
                    | None => false end) s.(timers).(Timer.timers).

End BoardMode.

(** ** Concrete scenarios of the timer pool and the board *)
Module TimerRuns.
Import Timer.

(** Eight timers of other modules armed (callbacks 1..8, filling the pool),
    all cancelled, then 247 arm/cancel cycles of one more callback (50):
    ids 1..255 have been handed out and every slot holds a nonzero id. *)
Definition fill_ops : list op := map (fun i => OpSet 100 (S i) false) (seq 0 8).
Definition cancel_ops : list op := map (fun i => OpCancel (Z.of_nat (S i))) (seq 0 8).
Definition cycle_ops : list op :=
  flat_map (fun i => [OpSet 100 50 false; OpCancel (9 + Z.of_nat i)]) (seq 0 247).
Definition wrap_ops : list op := fill_ops ++ cancel_ops ++ cycle_ops.
Definition wrapped : state := run_ops timer_init wrap_ops.

(** The pool with all eight slots live. *)
Definition full : state := run_ops timer_init fill_ops.

End TimerRuns.

Module BoardModeRuns.
Import BoardMode.

(** Other modules wrap the timer ids, then the board boots and the VESC
    answers: the idle timer is armed for [IDLE_ACTIVE_TIMEOUT]. *)
Definition wrapped_idle : state :=
  run_from_init (map InTimerOp TimerRuns.wrap_ops ++ [InCommand CmdBoot; InVescAlive]).

(** The board booted, put in configuration mode, with the VESC reporting
    3000 rpm and a level board. *)
Definition config_mode : state :=
  run_from_init [InCommand CmdBoot; InVescAlive; InCommand (CmdModeConfig true);
                 InTelemetry 0 3000 0].

(** The board booted, the VESC reporting a duty cycle of 95% at 3000 rpm on a
    level board. *)
Definition high_duty : list input :=
  [InCommand CmdBoot; InVescAlive; InTelemetry 95 3000 0].

End BoardModeRuns.

(** ** ring_buffer.c *)
Module RingBuffer.

(** [ring_buffer_t]: the storage array, the two [uint16_t] indices and the
    size. *)
Record ring_buffer_t := mkRing {
  buffer : list Z; read_idx : Z; write_idx : Z; size : Z
}.

(** [ring_buffer_next]: [(idx + 1U) % buf->size]. *)
Definition ring_buffer_next (buf : ring_buffer_t) (idx : Z) : Z :=
  (idx + 1) mod buf.(size).

(** [ring_buffer_is_empty] *)
Definition ring_buffer_is_empty (buf : ring_buffer_t) : bool :=
  buf.(read_idx) =? buf.(write_idx).

(** [ring_buffer_is_full] *)
Definition ring_buffer_is_full (buf : ring_buffer_t) : bool :=
  ring_buffer_next buf buf.(write_idx) =? buf.(read_idx).

(** [ring_buffer_push buf data]: the result and the updated buffer. *)
Definition ring_buffer_push (buf : ring_buffer_t) (data : Z) : bool * ring_buffer_t :=
  if negb (ring_buffer_is_full buf) then
    (true, mkRing (aset buf.(buffer) buf.(write_idx) data) buf.(read_idx)
             (ring_buffer_next buf buf.(write_idx)) buf.(size))
  else (false, buf).

(** [ring_buffer_pop buf data]: [data] is the value [*data] holds before
    the call, left as it is when the buffer is empty; the result, the new
    [*data] and the updated buffer. *)
Definition ring_buffer_pop (buf : ring_buffer_t) (data : Z) : bool * Z * ring_buffer_t :=
  if negb (ring_buffer_is_empty buf) then
    (true, aget 0 buf.(buffer) buf.(read_idx),
     mkRing buf.(buffer) (ring_buffer_next buf buf.(read_idx)) buf.(write_idx) buf.(size))
  else (false, data, buf).

(** A ring buffer as [vesc_serial_init] sets one up: a nonzero size, an
    array of that size, both indices inside it. *)
Definition ring_wf (buf : ring_buffer_t) : Prop :=
  0 < buf.(size) /\ length buf.(buffer) = Z.to_nat buf.(size) /\
  0 <= buf.(read_idx) < buf.(size) /\ 0 <= buf.(write_idx) < buf.(size).

(** The number of bytes held, and the bytes themselves, oldest first:
    the slots from [read_idx] up to [write_idx], circularly. *)
Definition ring_buffer_count (buf : ring_buffer_t) : Z :=
  (buf.(write_idx) - buf.(read_idx)) mod buf.(size).

Definition ring_buffer_contents (buf : ring_buffer_t) : list Z :=
  map (fun j => aget 0 buf.(buffer) ((buf.(read_idx) + Z.of_nat j) mod buf.(size)))
      (seq 0 (Z.to_nat (ring_buffer_count buf))).

(** The buffer [vesc_serial_init] sets up: [VESC_SERIAL_RX_BUFFER_SIZE]
    (128) zero bytes, both indices at 0. *)
Definition VESC_SERIAL_RX_BUFFER_SIZE := 128.
Definition vesc_serial_rx_buffer_init : ring_buffer_t :=
  mkRing (List.repeat 0 (Z.to_nat VESC_SERIAL_RX_BUFFER_SIZE)) 0 0 VESC_SERIAL_RX_BUFFER_SIZE.

(** [USART1_IRQHandler] (hk32f030m_it.c), its RXNE branch over a run of
    received bytes: each byte read from [RDR] is pushed onto the receive
    buffer; a push that fails (buffer full) drops the byte and nothing else
    is done. *)
Fixpoint usart_rx_bytes (buf : ring_buffer_t) (ds : list Z) : ring_buffer_t :=
  match ds with
  | [] => buf
  | d :: ds' => usart_rx_bytes (snd (ring_buffer_push buf d)) ds'
  end.

End RingBuffer.

(** ** event_queue.c: the remaining query *)
Module EventQueueMore.
Import EventQueue.

(** [event_queue_get_max_items] *)
Definition event_queue_get_max_items : Z := EVENT_QUEUE_SIZE - 1.

End EventQueueMore.

(** ** timer.c: the pool invariant *)
Module TimerMore.
Import Timer.

(** The pool as the timer operations keep it: [MAX_TIMERS] slots, the
    [uint8_t] id counter in range, and no two slots sharing a nonzero
    id. *)
Definition pool_ok (s : state) : Prop :=
  length s.(timers) = Z.to_nat MAX_TIMERS /\ 0 <= s.(next_timer_id) < UINT8_MOD /\
  forall j k, (j < length s.(timers))%nat -> (k < length s.(timers))%nat -> j <> k ->
    (nth j s.(timers) zero_timer).(id) = (nth k s.(timers) zero_timer).(id) ->
    (nth j s.(timers) zero_timer).(id) = 0.

(** Whether slot [t] is live with callback [cb]. *)
Definition holds (cb : nat) (t : timer_t) : bool := cb_eqb t.(callback) (Some cb).

(** Slot [i] of [l] is live with callback [cb], timeout [T], counter [c]
    and repeat flag [rep], and no other slot holds [cb]. *)
Definition live_slot (i : nat) (cb : nat) (T c : Z) (rep : bool) (l : list timer_t) : Prop :=
  (i < length l)%nat /\ callback (nth i l zero_timer) = Some cb /\
  timeout (nth i l zero_timer) = T /\ counter (nth i l zero_timer) = c /\
  repeat (nth i l zero_timer) = rep /\
  forall j, j <> i -> callback (nth j l zero_timer) <> Some cb.

(** [is_timer_repeating] *)
Definition is_timer_repeating (s : state) (timer_id : Z) : bool :=
  negb (timer_id =? INVALID_TIMER_ID) &&
  match find_timer_by_id s timer_id with
  | Some i => (nth i s.(timers) zero_timer).(repeat)
  | None => false
  end.

End TimerMore.

(** [timer_system_tick_event_handler] with what the callbacks do: [run_cb c
    st p] is the pool after callback [c] has run with [system_tick = st]
    on the pool [p] (a callback may call [set_timer] or [cancel_timer]).
    Slot [i]'s counter is decremented, and when it reaches 0 the callback
    runs and the slot's counter and repeat flag are read again, as in the
    source. *)
Module TimerTickCb.
Import Timer.

Definition tick_index (run_cb : nat -> Z -> state -> state) (system_tick : Z)
  (acc : list nat * state) (i : nat) : list nat * state :=
  let '(fired, s) := acc in
  match (nth i s.(timers) zero_timer).(callback) with
  | Some c =>
      let cnt := ((nth i s.(timers) zero_timer).(counter) - 1) mod UINT32_MOD in
      let s1 := update_slot s i (fun t => mkTimer t.(timeout) cnt t.(callback) t.(repeat) t.(id)) in
      if cnt =? 0 then
        let s2 := run_cb c system_tick s1 in
        let t2 := nth i s2.(timers) zero_timer in
        let s3 :=
          if t2.(counter) =? 0 then
            if t2.(repeat)
            then update_slot s2 i (fun t => mkTimer t.(timeout) t.(timeout) t.(callback) t.(repeat) t.(id))
            else update_slot s2 i (fun t => mkTimer t.(timeout) t.(counter) None t.(repeat) t.(id))
          else s2 in
        (fired ++ [c], s3)
      else (fired, s1)
  | None => (fired, s)
  end.

(** The [for] loop over the [MAX_TIMERS] slots. *)
Definition timer_system_tick_cb (run_cb : nat -> Z -> state -> state) (system_tick : Z)
  (s : state) : list nat * state :=
  fold_left (tick_index run_cb system_tick) (seq 0 (Z.to_nat MAX_TIMERS)) ([], s).

(** [n] system ticks; the [system_tick] value of each is one more than the
    last ([systick_ms++] in [SysTick_Handler]). *)
Fixpoint ticks_cb (run_cb : nat -> Z -> state -> state) (n : nat) (system_tick : Z)
  (s : state) : list nat * state :=
  match n with
  | O => ([], s)
  | S k =>
      let '(f1, s1) := timer_system_tick_cb run_cb system_tick s in
      let '(f2, s2) := ticks_cb run_cb k ((system_tick + 1) mod UINT32_MOD) s1 in
      (f1 ++ f2, s2)
  end.

End TimerTickCb.

(** ** vesc_serial.c: the busy check, and the VESC side of the protocol *)
Module VescSerialMore.
Import VescSerial.

Inductive lcm_status_t := LCM_SUCCESS | LCM_BUSY.

(** [vesc_serial_check_busy_and_set_callback] *)
Definition vesc_serial_check_busy_and_set_callback (s : state) (cb : nat) : lcm_status_t * state :=
  if s.(vesc_alive) && (0 <? s.(outstanding_packet_count)) then
    (LCM_BUSY, mkState s.(rx_bytes) s.(comm_values) s.(vesc_alive) s.(outstanding_packet_count)
                 (Some cb) s.(pushes) s.(callbacks_called) s.(frames_sent))
  else (LCM_SUCCESS, s).

(** The framing the VESC applies to a payload (the inverse of what the RX
    handler parses): start byte, length, payload, the CRC's high and low
    bytes, end byte. *)
Definition vesc_frame (pl : list Z) : list Z :=
  let crc := crc16_ccitt pl in
  [START_BYTE; Z.of_nat (length pl)] ++ pl ++ [Z.shiftr crc 8; Z.land crc 255; END_BYTE].

(** Big-endian two's-complement encodings of 16- and 32-bit integers, as
    the VESC writes them into a payload. *)
Definition int16_be_bytes (v : Z) : list Z :=
  let u := v mod 65536 in [u / 256; u mod 256].
Definition int32_be_bytes (v : Z) : list Z :=
  let u := v mod 4294967296 in
  [u / 16777216; (u / 65536) mod 256; (u / 256) mod 256; u mod 256].

End VescSerialMore.

(** ** board_mode.c: which submodes go with which mode *)
Module BoardModeMore.
Import BoardMode.

(** The pairs [set_board_mode] is called with: OFF, BOOTING and FAULT
    with UNDEFINED, IDLE with one of its five submodes, RIDING with one of
    the five riding submodes. *)
Definition mode_submode_ok (m : board_mode_t) (sm : board_submode_t) : bool :=
  match m with
  | BOARD_MODE_OFF | BOARD_MODE_BOOTING | BOARD_MODE_FAULT =>
      board_submode_t_beq sm BOARD_SUBMODE_UNDEFINED
  | BOARD_MODE_IDLE =>
      match sm with
      | BOARD_SUBMODE_IDLE_ACTIVE | BOARD_SUBMODE_IDLE_DEFAULT | BOARD_SUBMODE_IDLE_DOZING
      | BOARD_SUBMODE_IDLE_SHUTTING_DOWN | BOARD_SUBMODE_IDLE_CONFIG => true
      | _ => false
      end
  | BOARD_MODE_RIDING => is_riding_submode sm
  | _ => false
  end.

End BoardModeMore.

(** ** vesc_serial.c: starting and stopping the poll timer *)
Module VescSerialPoll.
Import BoardMode.

Definition POLLING_INTERVAL_MS := 250.

(** The callback identifier of [vesc_serial_tx_timer_callback] in the timer
    pool. *)
Definition vesc_serial_tx_timer_cb : nat := 101.

(** The module's state, the timer pool it shares and its static
    [vesc_serial_tx_timerid]. *)
Record poll_state := mkPoll {
  vs : VescSerial.state;
  pool : Timer.state;
  vesc_serial_tx_timerid : Z
}.

(** [vesc_serial_board_mode_change_event_handler] on the mode carried by the
    event; [fault(EMERGENCY_FAULT_OVERFLOW)] raised by [set_timer] is pushed
    on the module's event list. *)
Definition vesc_serial_board_mode_change (p : poll_state) (mode : board_mode_t) : poll_state :=
  let tid := p.(vesc_serial_tx_timerid) in
  match mode with
  | BOARD_MODE_BOOTING | BOARD_MODE_IDLE | BOARD_MODE_RIDING =>
      if (tid =? Timer.INVALID_TIMER_ID) || negb (Timer.is_timer_active p.(pool) tid) then
        let '(nid, t, flt) :=
          Timer.set_timer p.(pool) POLLING_INTERVAL_MS vesc_serial_tx_timer_cb true in
        let v := if flt then VescSerial.with_push p.(vs)
                               [VescSerial.PushFault EventQueue.EMERGENCY_FAULT_OVERFLOW]
                 else p.(vs) in
        mkPoll v t nid
      else p
  | _ =>
      let s := p.(vs) in
      let v := VescSerial.mkState s.(VescSerial.rx_bytes) s.(VescSerial.comm_values) false
                 s.(VescSerial.outstanding_packet_count) s.(VescSerial.vesc_serial_callback)
                 s.(VescSerial.pushes) s.(VescSerial.callbacks_called) s.(VescSerial.frames_sent) in
      if negb (tid =? Timer.INVALID_TIMER_ID) && Timer.is_timer_active p.(pool) tid then
        mkPoll v (snd (Timer.cancel_timer p.(pool) tid)) Timer.INVALID_TIMER_ID
      else mkPoll v p.(pool) tid
  end.

End VescSerialPoll.

(** * Proofs *)

Ltac mod8_facts :=
  repeat match goal with
  | |- context [?a mod 8] =>
      let r := fresh "r" in let q := fresh "q" in
      pose proof (Z.div_mod a 8 ltac:(lia)); pose proof (Z.mod_pos_bound a 8 ltac:(lia));
      set (r := a mod 8) in *; set (q := a / 8) in *; clearbody r q
  | H : context [?a mod 8] |- _ =>
      let r := fresh "r" in let q := fresh "q" in
      pose proof (Z.div_mod a 8 ltac:(lia)); pose proof (Z.mod_pos_bound a 8 ltac:(lia));
      set (r := a mod 8) in *; set (q := a / 8) in *; clearbody r q
  end.

Lemma nth_list_set {A} (l : list A) (i k : nat) (x d : A) :
  (i < length l)%nat ->
  nth k (list_set l i x) d = if Nat.eqb k i then x else nth k l d.
Proof.
  revert i k; induction l as [|y t IH]; intros i k Hi; simpl in *; [lia|].
  destruct i as [|i], k as [|k]; simpl; try reflexivity; apply IH; lia.
Qed.

Lemma length_list_set {A} (l : list A) i (x : A) : length (list_set l i x) = length l.
Proof. revert i; induction l; intros [|i]; simpl; auto. Qed.

Lemma aget_aset {A} (d x : A) l i k :
  0 <= i -> 0 <= k -> (Z.to_nat i < length l)%nat ->
  aget d (aset l i x) k = if k =? i then x else aget d l k.
Proof.
  intros Hi Hk Hl. unfold aget, aset. rewrite nth_list_set by lia.
  destruct (Nat.eqb_spec (Z.to_nat k) (Z.to_nat i)), (Z.eqb_spec k i); auto; lia.
Qed.

Module EventQueueProofs.
Import EventQueue.

Lemma num_events_mod s :
  queue_wf s ->
  event_queue_get_num_events s = (s.(event_queue_tail) - s.(event_queue_head)) mod 8.
Proof.
  unfold queue_wf, event_queue_get_num_events, EVENT_QUEUE_SIZE. intros (Hh & Ht & _).
  destruct (Z.leb_spec (event_queue_head s) (event_queue_tail s)); mod8_facts; lia.
Qed.

Lemma tail_from_head s :
  queue_wf s ->
  s.(event_queue_tail) = (s.(event_queue_head) + event_queue_get_num_events s) mod 8.
Proof.
  intros Hwf. rewrite num_events_mod by exact Hwf.
  destruct Hwf as (Hh & Ht & _). unfold EVENT_QUEUE_SIZE in *. mod8_facts; lia.
Qed.

(** A successful push appends the event to the pending events. *)
Lemma push_appends s k d :
  queue_wf s -> event_queue_get_num_events s < 7 -> 0 < k < NUMBER_OF_EVENTS ->
  exists s', event_queue_push s k (Some d) = (LCM_SUCCESS, s') /\
    queue_wf s' /\ pending s' = pending s ++ [mkEvent k d] /\
    s'.(subscribers) = s.(subscribers) /\
    event_queue_get_num_events s' = event_queue_get_num_events s + 1.
Proof.
  intros Hwf Hn Hk.
  pose proof (tail_from_head s Hwf) as Htl.
  pose proof (num_events_mod s Hwf) as Hnm.
  destruct s as [h t q sb ns]; unfold queue_wf in Hwf; simpl in *.
  destruct Hwf as (Hh & Ht & Hq). unfold EVENT_QUEUE_SIZE in *.
  unfold event_queue_push, get_free_index; simpl.
  assert (Hne : ((t + 1) mod 8 =? h) = false) by (apply Z.eqb_neq; mod8_facts; lia).
  unfold EVENT_QUEUE_SIZE; rewrite Hne; simpl.
  assert (Hkv : (k <? NUMBER_OF_EVENTS) && negb (k =? EVENT_NULL) = true).
  { unfold EVENT_NULL; apply andb_true_intro; split; [apply Z.ltb_lt | apply negb_true_iff, Z.eqb_neq]; lia. }
  rewrite Hkv. eexists; split; [reflexivity|].
  unfold queue_wf, pending, set_queue, set_tail; simpl.
  assert (Hn' : event_queue_get_num_events (mkState h ((t + 1) mod 8) (aset q t (mkEvent k d)) sb ns)
                = event_queue_get_num_events (mkState h t q sb ns) + 1).
  { rewrite num_events_mod.
    - simpl. rewrite Hnm in Hn |- *. mod8_facts; lia.
    - unfold queue_wf, aset, EVENT_QUEUE_SIZE; simpl; rewrite length_list_set.
      split; [lia|]; split; [mod8_facts; lia|exact Hq]. }
  set (n := event_queue_get_num_events (mkState h t q sb ns)) in *.
  assert (0 <= n) by (rewrite Hnm; apply Z.mod_pos_bound; lia).
  split; [|split; [|split; [reflexivity|exact Hn']]].
  - unfold aset, EVENT_QUEUE_SIZE; rewrite length_list_set; split; [lia|]; split; [mod8_facts; lia|exact Hq].
  - unfold EVENT_QUEUE_SIZE. rewrite Hn'. replace (Z.to_nat (n + 1)) with (S (Z.to_nat n)) by lia.
    rewrite seq_S, map_app. simpl. f_equal.
    + apply map_ext_in. intros j Hj. apply in_seq in Hj.
      rewrite aget_aset by (try mod8_facts; lia).
      destruct (Z.eqb_spec ((h + Z.of_nat j) mod 8) t); [exfalso|reflexivity].
      rewrite Htl in e. mod8_facts; lia.
    + rewrite aget_aset by (try mod8_facts; lia).
      rewrite Z2Nat.id, <- Htl, Z.eqb_refl by lia. reflexivity.
Qed.

Lemma pending_empty s : event_queue_get_num_events s = 0 -> pending s = [].
Proof. intros H. unfold pending. rewrite H. reflexivity. Qed.

Lemma set_head_wf s h : queue_wf s -> 0 <= h < 8 -> queue_wf (set_head s h).
Proof. unfold queue_wf, set_head, EVENT_QUEUE_SIZE; simpl; intuition. Qed.

Lemma pending_pop s :
  queue_wf s -> 0 < event_queue_get_num_events s ->
  pending s = aget zero_event s.(event_queue) s.(event_queue_head)
              :: pending (set_head s ((s.(event_queue_head) + 1) mod EVENT_QUEUE_SIZE)) /\
  event_queue_get_num_events (set_head s ((s.(event_queue_head) + 1) mod EVENT_QUEUE_SIZE))
  = event_queue_get_num_events s - 1.
Proof.
  intros Hwf Hpos.
  pose proof (num_events_mod s Hwf) as Hnm.
  assert (Hwf1 : queue_wf (set_head s ((s.(event_queue_head) + 1) mod EVENT_QUEUE_SIZE))).
  { apply set_head_wf; [exact Hwf|]. unfold EVENT_QUEUE_SIZE; mod8_facts; lia. }
  pose proof (num_events_mod _ Hwf1) as Hnm1.
  destruct s as [h t q sb ns]; unfold queue_wf in Hwf; simpl in *.
  destruct Hwf as (Hh & Ht & Hq). unfold EVENT_QUEUE_SIZE in *.
  assert (Hn1 : event_queue_get_num_events (set_head (mkState h t q sb ns) ((h + 1) mod 8))
                = event_queue_get_num_events (mkState h t q sb ns) - 1).
  { rewrite Hnm1, Hnm. simpl. rewrite Hnm in Hpos. mod8_facts; lia. }
  split; [|exact Hn1].
  unfold pending at 1. simpl.
  remember (event_queue_get_num_events (mkState h t q sb ns)) as n.
  replace (Z.to_nat n) with (S (Z.to_nat (n - 1))) by lia.
  simpl. f_equal.
  - f_equal. unfold EVENT_QUEUE_SIZE. rewrite Z.add_0_r. apply Z.mod_small. lia.
  - unfold pending. rewrite Hn1. simpl. rewrite <- seq_shift, map_map.
    apply map_ext. intros j. unfold EVENT_QUEUE_SIZE. f_equal. mod8_facts; lia.
Qed.

(** Draining delivers every pending event, oldest first, each to the
    callbacks of its kind's chain, and leaves the queue empty. *)
Lemma drain_delivers f s :
  queue_wf s -> (Z.to_nat (event_queue_get_num_events s) <= f)%nat ->
  fst (drain f s) = concat (map (notify_subscribers s) (pending s)) /\
  is_queue_empty (snd (drain f s)) = true /\
  (snd (drain f s)).(subscribers) = s.(subscribers).
Proof.
  revert s; induction f as [|f IH]; intros s Hwf Hf.
  - assert (Hz : event_queue_get_num_events s = 0).
    { rewrite num_events_mod in * by exact Hwf. pose proof (Z.mod_pos_bound
        (event_queue_tail s - event_queue_head s) 8 ltac:(lia)). lia. }
    rewrite pending_empty by exact Hz. simpl. split; [reflexivity|split; [|reflexivity]].
    pose proof (tail_from_head s Hwf) as Ht. rewrite Hz, Z.add_0_r in Ht.
    destruct Hwf as (Hh & _). unfold is_queue_empty, EVENT_QUEUE_SIZE in *.
    rewrite Z.mod_small in Ht by lia. rewrite Ht, Z.eqb_refl. reflexivity.
  - simpl. destruct (is_queue_empty s) eqn:He.
    + assert (Hz : event_queue_get_num_events s = 0).
      { rewrite num_events_mod by exact Hwf. unfold is_queue_empty in He.
        apply Z.eqb_eq in He. rewrite He, Z.sub_diag. reflexivity. }
      rewrite pending_empty by exact Hz. simpl. auto.
    + assert (Hpos : 0 < event_queue_get_num_events s).
      { pose proof (tail_from_head s Hwf) as Ht.
        assert (event_queue_get_num_events s <> 0).
        { intros Hz. rewrite Hz, Z.add_0_r in Ht. destruct Hwf as (Hh & _).
          unfold is_queue_empty, EVENT_QUEUE_SIZE in *.
          rewrite Z.mod_small in Ht by lia. rewrite Ht, Z.eqb_refl in He. discriminate. }
        rewrite num_events_mod in * by exact Hwf.
        pose proof (Z.mod_pos_bound (event_queue_tail s - event_queue_head s) 8 ltac:(lia)). lia. }
      destruct (pending_pop s Hwf Hpos) as [Hp Hn1].
      set (s1 := set_head s ((event_queue_head s + 1) mod EVENT_QUEUE_SIZE)) in *.
      assert (Hwf1 : queue_wf s1).
      { apply set_head_wf; [exact Hwf|]. destruct Hwf as (Hh & _).
        unfold EVENT_QUEUE_SIZE in *; mod8_facts; lia. }
      destruct (IH s1 Hwf1 ltac:(lia)) as (IH1 & IH2 & IH3).
      destruct (drain f s1) as [rest s'] eqn:E. simpl in *.
      rewrite Hp. simpl. rewrite IH1.
      assert (Hns : notify_subscribers s1 = notify_subscribers s) by reflexivity.
      rewrite Hns. auto.
Qed.

(** A run of successful pushes, each of a valid kind, within capacity. *)
Lemma push_all_appends s evs :
  queue_wf s -> Forall (fun e => 0 < fst e < NUMBER_OF_EVENTS) evs ->
  event_queue_get_num_events s + Z.of_nat (length evs) <= 7 ->
  queue_wf (EventQueueRuns.push_all s evs) /\
  pending (EventQueueRuns.push_all s evs) = pending s ++ map (fun e => mkEvent (fst e) (snd e)) evs /\
  (EventQueueRuns.push_all s evs).(subscribers) = s.(subscribers) /\
  event_queue_get_num_events (EventQueueRuns.push_all s evs)
    = event_queue_get_num_events s + Z.of_nat (length evs).
Proof.
  revert s; induction evs as [|[k d] evs IH]; intros s Hwf Hall Hcap.
  - simpl. rewrite app_nil_r. auto with zarith.
  - inversion Hall as [|? ? Hk Hall']; subst. simpl in *.
    destruct (push_appends s k d Hwf ltac:(lia) Hk) as (s' & Hpush & Hwf' & Hp & Hsb & Hn).
    unfold EventQueueRuns.push_all in *. simpl. rewrite Hpush. simpl.
    destruct (IH s' Hwf' Hall' ltac:(lia)) as (A & B & C & D).
    split; [exact A|]. split; [rewrite B, Hp, <- app_assoc; reflexivity|].
    split; [congruence|lia].
Qed.

End EventQueueProofs.

(** ** The event queue: claims *)
Module EventQueueClaims.
Import EventQueue EventQueueRuns EventQueueProofs.

(** C1: the drain does not deliver every pushed event exactly once.
    Callback 7 subscribed to [EVENT_SYS_TICK] receives the eight ticks
    pushed (payloads 100..107) in order, and the queue is then empty; a
    rejected [EVENT_NULL] push still advances the tail, so the next
    [event_queue_pop_and_notify] delivers the first tick (payload 100) to
    callback 7 a second time. *)
Theorem C1_stale_event_redelivered :
  fst wrap_run = map (fun i => (7%nat, mkEvent EVENT_SYS_TICK (100 + i))) [0;1;2;3;4;5;6;7] /\
  pending after_wrap = [] /\
  let '(r, s1) := event_queue_push after_wrap EVENT_NULL None in
  r = LCM_ERROR /\
  fst (event_queue_pop_and_notify s1) = [(7%nat, mkEvent EVENT_SYS_TICK 100)].
Proof. vm_compute. repeat split; reflexivity. Qed.

(** C2: a push rejected for its kind is not free of effects.  On the empty
    queue, pushing [EVENT_NULL] or the out-of-range kind [NUMBER_OF_EVENTS]
    returns [LCM_ERROR] with the tail advanced by one slot, and the depth
    goes from 0 to 1. *)
Theorem C2_rejected_kind_advances_tail :
  event_queue_get_num_events event_queue_init = 0 /\
  event_queue_push event_queue_init EVENT_NULL None = (LCM_ERROR, set_tail event_queue_init 1) /\
  event_queue_push event_queue_init NUMBER_OF_EVENTS (Some 5) = (LCM_ERROR, set_tail event_queue_init 1) /\
  event_queue_get_num_events (set_tail event_queue_init 1) = 1.
Proof. vm_compute. repeat split; reflexivity. Qed.

End EventQueueClaims.

(** ** The timer pool: claims *)
Module TimerClaims.
Import Timer TimerRuns.

(** C8: re-arming by callback fails once the ids have wrapped.  After 255
    ids have been handed out, [set_timer] for a new callback 77 arms a slot
    whose id is 0, [INVALID_TIMER_ID]; a second [set_timer] for callback 77
    does not find it (its id reads as "not found"), allocates another slot
    with id 1 and leaves two live timers for the same callback. *)
Theorem C8_rearm_after_id_wrap :
  next_timer_id wrapped = 255 /\
  let '(id1, s1, f1) := set_timer wrapped 10 77 false in
  let '(id2, s2, f2) := set_timer s1 20 77 true in
  id1 = INVALID_TIMER_ID /\ f1 = false /\ timer_active_count s1 = 1%nat /\
  id2 = 1 /\ f2 = false /\ timer_active_count s2 = 2%nat /\
  map callback (timers s2) = [Some 77%nat; Some 77%nat; None; None; None; None; None; None].
Proof. vm_compute. repeat split; reflexivity. Qed.

(** C10 (counterexample): with all eight slots live, [set_timer] with
    timeout 0 for a ninth callback returns [INVALID_TIMER_ID] and raises
    the overflow fault; nothing is armed. *)
Lemma C10_full_pool_no_handle :
  timer_active_count full = 8%nat /\
  set_timer full 0 9 false = (INVALID_TIMER_ID, full, true).
Proof. vm_compute. split; reflexivity. Qed.

End TimerClaims.

(** ** The hysteresis latch: claims *)
Module HysteresisClaims.
Import Hysteresis.

(** C9 (counterexample): set threshold 1, reset threshold 1/2 (R < S but
    R > S - 1): the third sample S - 1 = 0 is below R and resets the latch. *)
Lemma C9_narrow_band_resets :
  apply_all (snd (hysteresis_init zero_hysteresis 1 (1 # 2)%Q))
    [1 - 1; 1; 1 - 1; (1 # 2) + (1 # 10); (1 # 2) - (1 # 10)]%Q
  = [STATE_RESET; STATE_SET; STATE_RESET; STATE_RESET; STATE_RESET].
Proof. vm_compute. reflexivity. Qed.

Lemma Qle_bool_false (x y : Q) : (y < x)%Q -> Qle_bool x y = false.
Proof. intro H. apply not_true_is_false. rewrite Qle_bool_iff. lra. Qed.

Lemma Qle_bool_true (x y : Q) : (x <= y)%Q -> Qle_bool x y = true.
Proof. intro H. apply Qle_bool_iff. exact H. Qed.

(** Decides every [Qle_bool] comparison of the goal that [lra] settles. *)
Ltac qle_decide :=
  repeat match goal with
  | |- context [Qle_bool ?x ?y] =>
      (rewrite (Qle_bool_true x y) by lra) || (rewrite (Qle_bool_false x y) by lra)
  end.

(** C9 (amended): for a latch initialised with set threshold [S] and reset
    threshold [R < S], the samples [S-1, S, S-1, R+0.1, R-0.1] report
    RESET, SET, SET, SET, RESET exactly when [R <= S - 1]; when
    [S - 1 < R] the third sample drops below [R] and resets the latch. *)
Theorem C9_sequence_iff (S R : Q) :
  (R < S)%Q ->
  ((R <= S - 1)%Q <->
   apply_all (snd (hysteresis_init zero_hysteresis S R))
     [S - 1; S; S - 1; R + (1 # 10); R - (1 # 10)]%Q
   = [STATE_RESET; STATE_SET; STATE_SET; STATE_SET; STATE_RESET]) /\
  ((S - 1 < R)%Q ->
   firstn 3 (apply_all (snd (hysteresis_init zero_hysteresis S R))
     [S - 1; S; S - 1; R + (1 # 10); R - (1 # 10)]%Q)
   = [STATE_RESET; STATE_SET; STATE_RESET]).
Proof.
  intros HRS. unfold hysteresis_init.
  destruct (Qlt_le_dec S R) as [Hc | _]; [lra |].
  unfold snd, apply_all, apply_hysteresis.
  cbv beta iota delta [state set_threshold reset_threshold hys_state_eqb andb negb].
  qle_decide.
  cbv beta iota.
  destruct (Qle_bool R (S - 1)) eqn:E; cbv beta iota; qle_decide; cbv beta iota.
  - split; [split; [reflexivity | intros _; apply Qle_bool_iff; exact E] |].
    intro Hlt. apply Qle_bool_iff in E. lra.
  - split; [split |].
    + intro H. apply Qle_bool_iff in H. congruence.
    + destruct (Qle_bool S (R + (1 # 10))); intro Hd; discriminate.
    + intros _. destruct (Qle_bool S (R + (1 # 10))); reflexivity.
Qed.

(** Witness of C9: the duty-cycle danger latch of the board (90 / 85). *)
Lemma C9_witness :
  (85 < 90)%Q /\
  ((85 <= 90 - 1)%Q <->
   apply_all (snd (hysteresis_init zero_hysteresis 90 85))
     [90 - 1; 90; 90 - 1; 85 + (1 # 10); 85 - (1 # 10)]%Q
   = [STATE_RESET; STATE_SET; STATE_SET; STATE_SET; STATE_RESET]) /\
  ((90 - 1 < 85)%Q ->
   firstn 3 (apply_all (snd (hysteresis_init zero_hysteresis 90 85))
     [90 - 1; 90; 90 - 1; 85 + (1 # 10); 85 - (1 # 10)]%Q)
   = [STATE_RESET; STATE_SET; STATE_RESET]).
Proof. split; [vm_compute; reflexivity | apply C9_sequence_iff; vm_compute; reflexivity]. Defined.

End HysteresisClaims.


(** ** The VESC serial decoder: claims *)
Module VescSerialClaims.
Import VescSerial.

(** C6: a telemetry response whose declared length is not 16, whose field
    mask is not [COMM_GET_VALUES_SETUP_SELECTIVE_MASK], or whose duty
    cycle, RPM or battery level is out of range, aborts with a single
    fault push ([EMERGENCY_FAULT_INVALID_LENGTH] or
    [EMERGENCY_FAULT_OUT_OF_BOUNDS]): no telemetry-changed event is pushed
    and the retained values are unchanged. *)
Theorem C6_abort_without_telemetry (vals : values_t) (payload : list Z) (len : Z) :
  len <> COMM_GET_VALUES_SETUP_SELECTIVE_RESPONSE_LENGTH \/
  buffer_get_uint32 payload 1 <> COMM_GET_VALUES_SETUP_SELECTIVE_MASK \/
  ~ (-100 <= buffer_get_float16_10 payload 5 <= 100)%Q \/
  ~ (-25000 <= buffer_get_int32 payload 7 <= 25000) \/
  ~ (0 <= buffer_get_float16_10 payload 13 <= 100)%Q ->
  exists f, (f = EMERGENCY_FAULT_INVALID_LENGTH \/ f = EMERGENCY_FAULT_OUT_OF_BOUNDS) /\
    process_comm_get_values_setup_selective vals payload len = ([PushFault f], vals).
Proof.
  intro H. unfold process_comm_get_values_setup_selective.
  destruct (len =? COMM_GET_VALUES_SETUP_SELECTIVE_RESPONSE_LENGTH) eqn:E1; cbn [negb];
    [| eexists; split; [left; reflexivity | reflexivity]].
  destruct (buffer_get_uint32 payload 1 =? COMM_GET_VALUES_SETUP_SELECTIVE_MASK) eqn:E2; cbn [negb];
    [| eexists; split; [right; reflexivity | reflexivity]].
  destruct (Qle_bool (-100) (buffer_get_float16_10 payload 5)) eqn:E3; cbn [negb orb];
    [| eexists; split; [right; reflexivity | reflexivity]].
  destruct (Qle_bool (buffer_get_float16_10 payload 5) 100) eqn:E4; cbn [negb orb];
    [| eexists; split; [right; reflexivity | reflexivity]].
  destruct (buffer_get_int32 payload 7 <? -25000) eqn:E5; cbn [orb];
    [eexists; split; [right; reflexivity | reflexivity] |].
  destruct (25000 <? buffer_get_int32 payload 7) eqn:E6;
    [eexists; split; [right; reflexivity | reflexivity] |].
  destruct (Qle_bool 0 (buffer_get_float16_10 payload 13)) eqn:E7; cbn [negb orb];
    [| eexists; split; [right; reflexivity | reflexivity]].
  destruct (Qle_bool (buffer_get_float16_10 payload 13) 100) eqn:E8; cbn [negb orb];
    [| eexists; split; [right; reflexivity | reflexivity]].
  exfalso.
  apply Z.eqb_eq in E1. apply Z.eqb_eq in E2.
  apply Qle_bool_iff in E3, E4, E7, E8.
  apply Z.ltb_ge in E5. apply Z.ltb_ge in E6.
  destruct H as [H | [H | [H | [H | H]]]]; apply H; auto; lia.
Qed.

(** Witness of C6: a response declaring 15 bytes instead of 16. *)
Lemma C6_witness :
  (15 <> COMM_GET_VALUES_SETUP_SELECTIVE_RESPONSE_LENGTH \/
   buffer_get_uint32 (List.repeat 0%Z 16) 1 <> COMM_GET_VALUES_SETUP_SELECTIVE_MASK \/
   ~ (-100 <= buffer_get_float16_10 (List.repeat 0%Z 16) 5 <= 100)%Q \/
   ~ (-25000 <= buffer_get_int32 (List.repeat 0%Z 16) 7 <= 25000) \/
   ~ (0 <= buffer_get_float16_10 (List.repeat 0%Z 16) 13 <= 100)%Q) /\
  exists f, (f = EMERGENCY_FAULT_INVALID_LENGTH \/ f = EMERGENCY_FAULT_OUT_OF_BOUNDS) /\
    process_comm_get_values_setup_selective zero_values (List.repeat 0%Z 16) 15 = ([PushFault f], zero_values).
Proof.
  split.
  - left. vm_compute. discriminate.
  - apply C6_abort_without_telemetry. left. vm_compute. discriminate.
Defined.

Lemma process_packet_count s pl len :
  outstanding_packet_count (process_packet s pl len) = outstanding_packet_count s.
Proof.
  unfold process_packet.
  destruct (vesc_alive s); destruct (byte_at pl 0 =? COMM_GET_VALUES_SETUP_SELECTIVE);
    try reflexivity;
    destruct (process_comm_get_values_setup_selective _ pl len); reflexivity.
Qed.

Lemma ring_buffer_pop_count s b s1 :
  ring_buffer_pop s = Some (b, s1) -> outstanding_packet_count s1 = outstanding_packet_count s.
Proof.
  unfold ring_buffer_pop. destruct (rx_bytes s); intro H; inversion H; reflexivity.
Qed.

Lemma read_payload_count n i pl s :
  outstanding_packet_count (snd (read_payload n i pl s)) = outstanding_packet_count s.
Proof.
  revert i pl s. induction n as [|n IH]; intros i pl s; simpl; [reflexivity |].
  destruct (ring_buffer_pop s) as [[b s1]|] eqn:E; simpl; [| reflexivity].
  rewrite IH. eapply ring_buffer_pop_count; eauto.
Qed.

Lemma read_frame_count pl s :
  match read_frame pl s with
  | inl s2 => outstanding_packet_count s2 = outstanding_packet_count s
  | inr (_, _, s2) => outstanding_packet_count s2 = outstanding_packet_count s
  end.
Proof.
  unfold read_frame.
  destruct (ring_buffer_pop s) as [[len s1]|] eqn:E1; [| reflexivity].
  pose proof (ring_buffer_pop_count _ _ _ E1) as C1.
  destruct (MAX_PACKET_LENGTH <? len); [exact C1 |].
  pose proof (read_payload_count (Z.to_nat len) 0 pl s1) as C2.
  destruct (read_payload (Z.to_nat len) 0 pl s1) as [[pl'|] s2]; simpl in C2;
    [| congruence].
  destruct (ring_buffer_pop s2) as [[hi s3]|] eqn:E3; [| congruence].
  pose proof (ring_buffer_pop_count _ _ _ E3) as C3.
  destruct (ring_buffer_pop s3) as [[lo s4]|] eqn:E4; [| congruence].
  pose proof (ring_buffer_pop_count _ _ _ E4) as C4.
  destruct (ring_buffer_pop s4) as [[byte s5]|] eqn:E5; [| congruence].
  pose proof (ring_buffer_pop_count _ _ _ E5) as C5.
  destruct (_ && _); [rewrite process_packet_count |]; congruence.
Qed.

Lemma rx_loop_count fuel byte pl s :
  outstanding_packet_count (rx_loop fuel byte pl s) = outstanding_packet_count s.
Proof.
  revert byte pl s. induction fuel as [|f IH]; intros byte pl s; simpl; [reflexivity |].
  destruct (byte =? START_BYTE); [reflexivity |].
  destruct (ring_buffer_pop s) as [[b s1]|] eqn:E; [| reflexivity].
  pose proof (ring_buffer_pop_count _ _ _ E) as C.
  destruct (b =? START_BYTE).
  - pose proof (read_frame_count pl s1) as R.
    destruct (read_frame pl s1) as [s2 | [[b' pl'] s2]]; [congruence |].
    rewrite IH. congruence.
  - rewrite IH. exact C.
Qed.

(** C5 (counterexample): with the VESC alive and three requests
    unanswered, an RX event whose buffer holds no frame (here a single
    0x55 byte) resets the outstanding-request count to 0. *)
Lemma C5_rx_without_frame_resets :
  let s := mkState [85] zero_values true 3 None [] [] 0 in
  outstanding_packet_count s = 3 /\
  outstanding_packet_count (vesc_serial_rx_event_handler s) = 0 /\
  pushes (vesc_serial_rx_event_handler s) = [].
Proof. vm_compute. repeat split; reflexivity. Qed.

(** C5 (amended): every run of the RX handler leaves the
    outstanding-request count at 0, whatever the buffer holds (it calls
    [clear_outstanding_packets] on entry).  A poll-timer transmission
    always sends a frame; it increments the count only while the VESC is
    alive, and when the count before the call is already at least
    [MAX_OUTSTANDING_PACKETS] it instead raises
    [EMERGENCY_FAULT_VESC_COMM_TIMEOUT], marks the VESC not alive and resets
    the count to 0. *)
Theorem C5_outstanding_count (s : state) :
  outstanding_packet_count (vesc_serial_rx_event_handler s) = 0 /\
  frames_sent (vesc_serial_tx_timer_callback s) = S (frames_sent s) /\
  (vesc_alive s = false ->
   outstanding_packet_count (vesc_serial_tx_timer_callback s) = outstanding_packet_count s) /\
  (vesc_alive s = true -> 0 <= outstanding_packet_count s < MAX_OUTSTANDING_PACKETS ->
   outstanding_packet_count (vesc_serial_tx_timer_callback s) = outstanding_packet_count s + 1) /\
  (vesc_alive s = true -> MAX_OUTSTANDING_PACKETS <= outstanding_packet_count s ->
   outstanding_packet_count (vesc_serial_tx_timer_callback s) = 0 /\
   vesc_alive (vesc_serial_tx_timer_callback s) = false /\
   pushes (vesc_serial_tx_timer_callback s) =
     pushes s ++ [PushFault EMERGENCY_FAULT_VESC_COMM_TIMEOUT]).
Proof.
  split; [| split; [| split; [| split]]].
  - unfold vesc_serial_rx_event_handler. rewrite rx_loop_count.
    unfold clear_outstanding_packets. destruct (vesc_serial_callback s); reflexivity.
  - unfold vesc_serial_tx_timer_callback.
    destruct (vesc_alive s); [destruct (MAX_OUTSTANDING_PACKETS <=? _)|]; simpl; [| reflexivity..].
    destruct (vesc_serial_callback s); reflexivity.
  - intro A. unfold vesc_serial_tx_timer_callback. rewrite A. reflexivity.
  - intros A B. unfold vesc_serial_tx_timer_callback. rewrite A.
    unfold MAX_OUTSTANDING_PACKETS in *.
    replace (5 <=? outstanding_packet_count s) with false by (symmetry; apply Z.leb_gt; lia).
    simpl. apply Z.mod_small. lia.
  - intros A B. unfold vesc_serial_tx_timer_callback. rewrite A.
    replace (MAX_OUTSTANDING_PACKETS <=? outstanding_packet_count s) with true
      by (symmetry; apply Z.leb_le; exact B).
    unfold clear_outstanding_packets, with_push. simpl.
    destruct (vesc_serial_callback s); repeat split; reflexivity.
Qed.

(** Witness of C5: the sixth unanswered poll of a live VESC. *)
Lemma C5_witness :
  let s := mkState [] zero_values true 5 None [] [] 0 in
  (vesc_alive s = true /\ MAX_OUTSTANDING_PACKETS <= outstanding_packet_count s) /\
  outstanding_packet_count (vesc_serial_tx_timer_callback s) = 0 /\
  vesc_alive (vesc_serial_tx_timer_callback s) = false /\
  pushes (vesc_serial_tx_timer_callback s) =
    pushes s ++ [PushFault EMERGENCY_FAULT_VESC_COMM_TIMEOUT].
Proof.
  split; [split; [reflexivity | vm_compute; discriminate] |].
  destruct (C5_outstanding_count (mkState [] zero_values true 5 None [] [] 0))
    as [_ [_ [_ [_ H]]]].
  apply H; [reflexivity | vm_compute; discriminate].
Defined.

End VescSerialClaims.

(** ** The board mode: lemmas *)
Module BoardModeProofs.
Import Hysteresis BoardMode.

Lemma board_mode_beq_true a b : board_mode_t_beq a b = true -> a = b.
Proof. destruct a, b; simpl; congruence. Qed.

Lemma board_submode_beq_true a b : board_submode_t_beq a b = true -> a = b.
Proof. destruct a, b; simpl; congruence. Qed.

Lemma board_submode_beq_refl a : board_submode_t_beq a a = true.
Proof. destruct a; reflexivity. Qed.

Lemma arm_idle_timer_mode s t :
  board_mode (arm_idle_timer s t) = board_mode s /\
  board_submode (arm_idle_timer s t) = board_submode s.
Proof.
  unfold arm_idle_timer.
  destruct (Timer.set_timer _ _ _ _) as [[tid tm] flt]; destruct flt; split; reflexivity.
Qed.

Lemma cancel_idle_timer_mode s :
  board_mode (cancel_idle_timer s) = board_mode s /\
  board_submode (cancel_idle_timer s) = board_submode s.
Proof. unfold cancel_idle_timer. destruct (_ && _); split; reflexivity. Qed.

(** [set_board_mode m sm] always ends in mode [m], submode [sm]. *)
Lemma set_board_mode_mode s m sm :
  board_mode (set_board_mode s m sm) = m /\ board_submode (set_board_mode s m sm) = sm.
Proof.
  unfold set_board_mode.
  destruct (negb (board_mode_t_beq (board_mode s) m) || negb (board_submode_t_beq (board_submode s) sm)) eqn:E.
  - destruct m; try (split; reflexivity);
      try (destruct sm; try (split; reflexivity));
      first [ apply arm_idle_timer_mode | apply cancel_idle_timer_mode ].
  - apply orb_false_iff in E as [E1 E2].
    apply negb_false_iff in E1, E2.
    split; [apply board_mode_beq_true | apply board_submode_beq_true]; assumption.
Qed.

(** Unless the board lies on its side, [update_riding_submode] moves the
    board to [priority_submode], in mode RIDING; when it is already in that
    submode the mode and submode are left as they are. *)
Lemma update_riding_submode_mode s :
  Qle_bool s.(vesc_imu_roll) 45 = true -> Qle_bool (-45) s.(vesc_imu_roll) = true ->
  (board_mode (update_riding_submode s), board_submode (update_riding_submode s)) =
  if board_submode_t_beq (board_submode s) (priority_submode s)
  then (board_mode s, board_submode s)
  else (BOARD_MODE_RIDING, priority_submode s).
Proof.
  intros R1 R2. unfold update_riding_submode, priority_submode.
  rewrite R1, R2. cbn [negb orb].
  destruct (apply_hysteresis (danger_hysteresis s) (vesc_duty_cycle s)) as [d dg].
  cbn [fst with_hys board_submode board_mode warning_hysteresis slow_rpm_hysteresis
       stopped_rpm_hysteresis vesc_duty_cycle vesc_rpm].
  destruct (hys_state_eqb d STATE_SET).
  { destruct (board_submode_t_beq (board_submode s) BOARD_SUBMODE_RIDING_DANGER); cbn [negb];
      [reflexivity | destruct (set_board_mode_mode
         (with_hys s (stopped_rpm_hysteresis s) (slow_rpm_hysteresis s) dg (warning_hysteresis s))
         BOARD_MODE_RIDING BOARD_SUBMODE_RIDING_DANGER) as [-> ->]; reflexivity]. }
  destruct (apply_hysteresis (warning_hysteresis s) (vesc_duty_cycle s)) as [w wn].
  cbn [fst with_hys board_submode board_mode warning_hysteresis slow_rpm_hysteresis
       stopped_rpm_hysteresis danger_hysteresis vesc_duty_cycle vesc_rpm].
  destruct (hys_state_eqb w STATE_SET).
  { destruct (board_submode_t_beq (board_submode s) BOARD_SUBMODE_RIDING_WARNING); cbn [negb];
      [reflexivity | match goal with |- context [set_board_mode ?x _ _] =>
         destruct (set_board_mode_mode x BOARD_MODE_RIDING BOARD_SUBMODE_RIDING_WARNING) as [-> ->] end;
       reflexivity]. }
  destruct (apply_hysteresis (slow_rpm_hysteresis s) (abs_rpm (vesc_rpm s))) as [n sl].
  cbn [fst with_hys board_submode board_mode warning_hysteresis slow_rpm_hysteresis
       stopped_rpm_hysteresis danger_hysteresis vesc_duty_cycle vesc_rpm].
  destruct (hys_state_eqb n STATE_SET).
  { destruct (board_submode_t_beq (board_submode s) BOARD_SUBMODE_RIDING_NORMAL); cbn [negb];
      [reflexivity | match goal with |- context [set_board_mode ?x _ _] =>
         destruct (set_board_mode_mode x BOARD_MODE_RIDING BOARD_SUBMODE_RIDING_NORMAL) as [-> ->] end;
       reflexivity]. }
  destruct (apply_hysteresis (stopped_rpm_hysteresis s) (abs_rpm (vesc_rpm s))) as [l stp].
  cbn [fst with_hys board_submode board_mode warning_hysteresis slow_rpm_hysteresis
       stopped_rpm_hysteresis danger_hysteresis vesc_duty_cycle vesc_rpm].
  destruct (hys_state_eqb l STATE_SET).
  { destruct (board_submode_t_beq (board_submode s) BOARD_SUBMODE_RIDING_SLOW); cbn [negb];
      [reflexivity | match goal with |- context [set_board_mode ?x _ _] =>
         destruct (set_board_mode_mode x BOARD_MODE_RIDING BOARD_SUBMODE_RIDING_SLOW) as [-> ->] end;
       reflexivity]. }
  destruct (board_submode_t_beq (board_submode s) BOARD_SUBMODE_RIDING_STOPPED); cbn [negb];
    [reflexivity | match goal with |- context [set_board_mode ?x _ _] =>
       destruct (set_board_mode_mode x BOARD_MODE_RIDING BOARD_SUBMODE_RIDING_STOPPED) as [-> ->] end;
     reflexivity].
Qed.

Lemma priority_submode_riding s : is_riding_submode (priority_submode s) = true.
Proof.
  unfold priority_submode.
  repeat match goal with |- context [if ?b then _ else _] => destruct b end; reflexivity.
Qed.

Lemma consistent_set s m sm :
  (is_riding_submode sm = true -> m = BOARD_MODE_RIDING) ->
  riding_consistent (set_board_mode s m sm).
Proof.
  intros H. unfold riding_consistent.
  destruct (set_board_mode_mode s m sm) as [-> ->]. exact H.
Qed.

Lemma consistent_update s : riding_consistent s -> riding_consistent (update_riding_submode s).
Proof.
  intro H.
  destruct (Qle_bool (vesc_imu_roll s) 45) eqn:R1;
    [destruct (Qle_bool (-45) (vesc_imu_roll s)) eqn:R2 |].
  - pose proof (update_riding_submode_mode s R1 R2) as E. unfold riding_consistent.
    destruct (board_submode_t_beq (board_submode s) (priority_submode s));
      injection E as E1 E2; rewrite E1, E2; [exact H | intros _; reflexivity].
  - unfold update_riding_submode. rewrite R1, R2. exact H.
  - unfold update_riding_submode. rewrite R1. exact H.
Qed.

Ltac consistent_leaf H :=
  first [ exact H
        | apply consistent_update; exact H
        | apply consistent_set; cbn; intros; first [reflexivity | discriminate] ].

Lemma consistent_step s i : riding_consistent s -> riding_consistent (step s i).
Proof.
  intro H. destruct i as [c| | |r| | |fp|d r roll|fp|o]; cbn [step].
  - destruct c as [| |[|]| |roll]; unfold command_handler;
      repeat match goal with |- riding_consistent (if ?b then _ else _) => destruct b end;
      consistent_leaf H.
  - unfold vesc_alive_handler. destruct (board_mode_t_beq _ _); consistent_leaf H.
  - unfold idle_timer_handler. destruct (board_mode_t_beq _ _); [| exact H].
    destruct (board_submode s); consistent_leaf H.
  - unfold rpm_changed_handler. destruct (board_mode s) eqn:M; try exact H;
      repeat match goal with |- riding_consistent (if ?b then _ else _) => destruct b end;
      consistent_leaf H.
  - unfold duty_cycle_changed_handler. destruct (board_mode_t_beq _ _); consistent_leaf H.
  - apply consistent_set. discriminate.
  - unfold footpad_changed_handler. destruct (board_mode s) eqn:M; try exact H;
      repeat match goal with |- riding_consistent (if ?b then _ else _) => destruct b end;
      consistent_leaf H.
  - exact H.
  - exact H.
  - exact H.
Qed.

Lemma consistent_run is s : riding_consistent s -> riding_consistent (run s is).
Proof.
  revert s. induction is as [|i is IH]; intros s H; [exact H |].
  apply IH, consistent_step, H.
Qed.

Lemma consistent_init is : riding_consistent (run_from_init is).
Proof. apply consistent_run. discriminate. Qed.

End BoardModeProofs.

(** ** The board mode: claims *)
Module BoardModeClaims.
Import Hysteresis BoardMode BoardModeRuns BoardModeProofs.

(** C3: an emergency fault does not always leave the idle timer inactive.
    Other modules' timers wrap the uint8 timer ids, then the board boots and
    arms its idle timer, which receives id 0 ([INVALID_TIMER_ID]).  On
    [EVENT_EMERGENCY_FAULT] the board goes to FAULT/UNDEFINED, but
    [set_board_mode] skips the cancel because the stored id is
    [INVALID_TIMER_ID]; the idle timer stays live and fires after its
    4000 ms. *)
Theorem C3_fault_keeps_wrapped_idle_timer :
  board_mode wrapped_idle = BOARD_MODE_IDLE /\
  board_submode wrapped_idle = BOARD_SUBMODE_IDLE_ACTIVE /\
  board_mode_idle_timer_id wrapped_idle = Timer.INVALID_TIMER_ID /\
  let s := step wrapped_idle InEmergencyFault in
  board_mode s = BOARD_MODE_FAULT /\ board_submode s = BOARD_SUBMODE_UNDEFINED /\
  idle_timer_pending s = true /\
  In board_mode_idle_timer_handler_cb (fst (Timer.ticks 4000 (timers s))).
Proof. vm_compute. repeat split; auto 20. Qed.

(** C4 (counterexample): in IDLE/CONFIG with the VESC at 3000 rpm, an
    RPM-changed event of 3000 rpm runs the riding-submode recomputation and
    moves the board to RIDING/NORMAL. *)
Lemma C4_config_promoted_by_rpm :
  board_mode config_mode = BOARD_MODE_IDLE /\
  board_submode config_mode = BOARD_SUBMODE_IDLE_CONFIG /\
  board_mode (rpm_changed_handler config_mode 3000) = BOARD_MODE_RIDING /\
  board_submode (rpm_changed_handler config_mode 3000) = BOARD_SUBMODE_RIDING_NORMAL.
Proof. vm_compute. repeat split; reflexivity. Qed.

(** C4 (amended): in IDLE/CONFIG a footpad-changed event leaves the
    board as it is, and so does an RPM-changed event with RPM 0; an
    RPM-changed event with nonzero RPM runs [update_riding_submode] as in
    every IDLE submode, and unless the board lies on its side (roll beyond
    45 degrees) it leaves IDLE/CONFIG for RIDING, in the submode the
    latches select. *)
Theorem C4_config_mode_events (s : state) (fp r : Z) :
  board_mode s = BOARD_MODE_IDLE -> board_submode s = BOARD_SUBMODE_IDLE_CONFIG ->
  footpad_changed_handler s fp = s /\
  (r = 0 -> rpm_changed_handler s r = s) /\
  (r <> 0 ->
   rpm_changed_handler s r = update_riding_submode s /\
   (Qle_bool (vesc_imu_roll s) 45 = true -> Qle_bool (-45) (vesc_imu_roll s) = true ->
    board_mode (rpm_changed_handler s r) = BOARD_MODE_RIDING /\
    board_submode (rpm_changed_handler s r) = priority_submode s)).
Proof.
  intros M SM.
  split; [| split].
  - unfold footpad_changed_handler. rewrite M, SM. reflexivity.
  - intros ->. unfold rpm_changed_handler. rewrite M. reflexivity.
  - intro Hr.
    assert (E : rpm_changed_handler s r = update_riding_submode s).
    { unfold rpm_changed_handler. rewrite M.
      replace (0 <? Z.abs r) with true by (symmetry; apply Z.ltb_lt; lia). reflexivity. }
    split; [exact E |]. intros R1 R2. rewrite E.
    pose proof (update_riding_submode_mode s R1 R2) as U.
    rewrite SM in U.
    destruct (priority_submode s) eqn:P; cbn in U; injection U as U1 U2; rewrite U1, U2;
      split; try reflexivity;
      pose proof (priority_submode_riding s) as PR; rewrite P in PR; discriminate.
Qed.

(** Witness of C4: the configuration-mode scenario with both footpads
    pressed (state 3) and an RPM-changed event of 3000 rpm. *)
Lemma C4_witness :
  (board_mode config_mode = BOARD_MODE_IDLE /\
   board_submode config_mode = BOARD_SUBMODE_IDLE_CONFIG) /\
  footpad_changed_handler config_mode 3 = config_mode /\
  (3000 = 0 -> rpm_changed_handler config_mode 3000 = config_mode) /\
  (3000 <> 0 ->
   rpm_changed_handler config_mode 3000 = update_riding_submode config_mode /\
   (Qle_bool (vesc_imu_roll config_mode) 45 = true ->
    Qle_bool (-45) (vesc_imu_roll config_mode) = true ->
    board_mode (rpm_changed_handler config_mode 3000) = BOARD_MODE_RIDING /\
    board_submode (rpm_changed_handler config_mode 3000) = priority_submode config_mode)).
Proof.
  split; [split; vm_compute; reflexivity |].
  apply C4_config_mode_events; vm_compute; reflexivity.
Defined.

(** C7: after any sequence of inputs from boot, the riding-submode
    recomputation on a board that is not on its side ends in mode RIDING
    with the submode of [priority_submode]: DANGER whenever the danger
    latch reports SET, whatever the other latches would report; else
    WARNING, NORMAL, SLOW, STOPPED in that order. *)
Theorem C7_riding_priority (is : list input) :
  let s := run_from_init is in
  Qle_bool (vesc_imu_roll s) 45 = true -> Qle_bool (-45) (vesc_imu_roll s) = true ->
  board_mode (update_riding_submode s) = BOARD_MODE_RIDING /\
  board_submode (update_riding_submode s) = priority_submode s /\
  (fst (apply_hysteresis (danger_hysteresis s) (vesc_duty_cycle s)) = STATE_SET ->
   board_submode (update_riding_submode s) = BOARD_SUBMODE_RIDING_DANGER).
Proof.
  cbv zeta. intros R1 R2.
  pose proof (update_riding_submode_mode _ R1 R2) as U.
  pose proof (consistent_init is) as C. unfold riding_consistent in C.
  assert (Hms : board_mode (update_riding_submode (run_from_init is)) = BOARD_MODE_RIDING /\
                board_submode (update_riding_submode (run_from_init is)) =
                priority_submode (run_from_init is)).
  { destruct (board_submode_t_beq (board_submode (run_from_init is))
                (priority_submode (run_from_init is))) eqn:B;
      injection U as U1 U2; rewrite U1, U2; [| split; reflexivity].
    apply board_submode_beq_true in B. rewrite B in C |- *.
    split; [apply C, priority_submode_riding | reflexivity]. }
  destruct Hms as [Hm Hs]. split; [exact Hm | split; [exact Hs |]].
  intro D. rewrite Hs. unfold priority_submode. rewrite D. reflexivity.
Qed.

(** Witness of C7: booted, duty cycle 95% at 3000 rpm on a level board;
    the danger and slow-RPM latches would both set, and DANGER wins. *)
Lemma C7_witness :
  let s := run_from_init high_duty in
  (Qle_bool (vesc_imu_roll s) 45 = true /\ Qle_bool (-45) (vesc_imu_roll s) = true) /\
  board_mode (update_riding_submode s) = BOARD_MODE_RIDING /\
  board_submode (update_riding_submode s) = priority_submode s /\
  (fst (apply_hysteresis (danger_hysteresis s) (vesc_duty_cycle s)) = STATE_SET ->
   board_submode (update_riding_submode s) = BOARD_SUBMODE_RIDING_DANGER).
Proof.
  split; [split; vm_compute; reflexivity |].
  apply (C7_riding_priority high_duty); vm_compute; reflexivity.
Defined.

End BoardModeClaims.

(** ** The timer pool: lemmas on arming and ticking *)
Module TimerProofs.
Import Timer.

Lemma tick_slots_fst l : fst (tick_slots l) = flat_map (fun t => fst (tick_slot t)) l.
Proof.
  induction l as [|t l IH]; [reflexivity |]. cbn [tick_slots flat_map].
  destruct (tick_slot t) as [f t']. destruct (tick_slots l) as [f2 l2].
  cbn [fst] in *. rewrite IH. reflexivity.
Qed.

Lemma tick_slots_snd l : snd (tick_slots l) = map (fun t => snd (tick_slot t)) l.
Proof.
  induction l as [|t l IH]; [reflexivity |]. cbn [tick_slots map].
  destruct (tick_slot t) as [f t']. destruct (tick_slots l) as [f2 l2].
  cbn [snd] in *. rewrite IH. reflexivity.
Qed.

Lemma timer_system_tick_eq s :
  timer_system_tick s =
  (fst (tick_slots (timers s)), mkState (next_timer_id s) (snd (tick_slots (timers s)))).
Proof. unfold timer_system_tick. destruct (tick_slots (timers s)); reflexivity. Qed.

Lemma tick_slot_fired t c : In c (fst (tick_slot t)) -> callback t = Some c.
Proof.
  unfold tick_slot. destruct (callback t) as [c'|]; [| cbn; tauto].
  destruct (_ =? 0); cbn; [intros [<- | []]; reflexivity | tauto].
Qed.

Lemma tick_slot_callback t :
  callback (snd (tick_slot t)) = callback t \/ callback (snd (tick_slot t)) = None.
Proof.
  unfold tick_slot. destruct (callback t) eqn:E; [| cbn; auto].
  destruct (_ =? 0); [destruct (repeat t) |]; cbn; auto.
Qed.

Lemma nth_tick_slots l k :
  nth k (map (fun t => snd (tick_slot t)) l) zero_timer = snd (tick_slot (nth k l zero_timer)).
Proof. exact (map_nth (fun t => snd (tick_slot t)) l zero_timer k). Qed.

(** One tick on an armed slot whose counter does not reach 0. *)
Lemma tick_armed i cb c l :
  armed_slot i cb c l -> (c - 1) mod UINT32_MOD <> 0 ->
  ~ In cb (fst (tick_slots l)) /\ armed_slot i cb ((c - 1) mod UINT32_MOD) (snd (tick_slots l)).
Proof.
  intros [Hi [Hcb [Hc Ho]]] Hnz.
  rewrite tick_slots_fst, tick_slots_snd.
  assert (Hs : callback (snd (tick_slot (nth i l zero_timer))) = Some cb /\
               counter (snd (tick_slot (nth i l zero_timer))) = (c - 1) mod UINT32_MOD /\
               fst (tick_slot (nth i l zero_timer)) = []).
  { unfold tick_slot. rewrite Hcb, Hc.
    destruct (Z.eqb_spec ((c - 1) mod UINT32_MOD) 0); [contradiction |].
    repeat split. }
  destruct Hs as [Hs1 [Hs2 Hs3]].
  split.
  - intro H. apply in_flat_map in H as [t [Ht Hf]].
    apply In_nth with (d := zero_timer) in Ht as [j [Hj <-]].
    destruct (Nat.eq_dec j i) as [-> | Hne].
    + rewrite Hs3 in Hf. exact Hf.
    + apply tick_slot_fired in Hf. exact (Ho j Hne Hf).
  - unfold armed_slot. rewrite length_map, !nth_tick_slots.
    split; [exact Hi | split; [exact Hs1 | split; [exact Hs2 |]]].
    intros j Hne. rewrite nth_tick_slots.
    destruct (tick_slot_callback (nth j l zero_timer)) as [E | E]; rewrite E;
      [apply Ho; exact Hne | discriminate].
Qed.

(** The tick on which an armed slot's counter goes from 1 to 0 fires it. *)
Lemma tick_fires i cb l : armed_slot i cb 1 l -> In cb (fst (tick_slots l)).
Proof.
  intros [Hi [Hcb [Hc _]]]. rewrite tick_slots_fst. apply in_flat_map.
  exists (nth i l zero_timer). split; [apply nth_In; exact Hi |].
  unfold tick_slot. rewrite Hcb, Hc. left. reflexivity.
Qed.

Lemma ticks_S n s :
  ticks (S n) s =
  (fst (tick_slots (timers s)) ++ fst (ticks n (mkState (next_timer_id s) (snd (tick_slots (timers s))))),
   snd (ticks n (mkState (next_timer_id s) (snd (tick_slots (timers s)))))).
Proof.
  cbn [ticks]. rewrite timer_system_tick_eq.
  destruct (ticks n _); reflexivity.
Qed.

(** A slot armed with counter [c] in [1, 2^32) stays quiet for the first
    [c - 1] ticks, counting down. *)
Lemma ticks_quiet i cb n : forall s c,
  armed_slot i cb c (timers s) -> Z.of_nat n < c < UINT32_MOD ->
  ~ In cb (fst (ticks n s)) /\ armed_slot i cb (c - Z.of_nat n) (timers (snd (ticks n s))).
Proof.
  induction n as [|n IH]; intros s c Ha Hr.
  - cbn. split; [tauto | rewrite Z.sub_0_r; exact Ha].
  - rewrite ticks_S. cbn [fst snd].
    assert (Hm : (c - 1) mod UINT32_MOD = c - 1) by (apply Z.mod_small; lia).
    destruct (tick_armed i cb c (timers s) Ha) as [Hq Ha']; [rewrite Hm; lia |].
    rewrite Hm in Ha'.
    destruct (IH (mkState (next_timer_id s) (snd (tick_slots (timers s)))) (c - 1) Ha')
      as [Hq' Ha'']; [lia |].
    split.
    + intro H. apply in_app_or in H as [H | H]; contradiction.
    + replace (c - Z.of_nat (S n)) with (c - 1 - Z.of_nat n) by lia. exact Ha''.
Qed.

(** ... and fires on tick [c]. *)
Lemma ticks_fire i cb n : forall s c,
  armed_slot i cb c (timers s) -> c = Z.of_nat (S n) -> c < UINT32_MOD ->
  In cb (fst (ticks (S n) s)).
Proof.
  induction n as [|n IH]; intros s c Ha Hc Hr.
  - rewrite ticks_S. apply in_or_app. left. apply (tick_fires i). rewrite Hc in Ha. exact Ha.
  - rewrite ticks_S. apply in_or_app. right.
    assert (Hm : (c - 1) mod UINT32_MOD = c - 1) by (apply Z.mod_small; lia).
    destruct (tick_armed i cb c (timers s) Ha) as [_ Ha']; [rewrite Hm; lia |].
    rewrite Hm in Ha'.
    apply (IH (mkState (next_timer_id s) (snd (tick_slots (timers s)))) (c - 1) Ha'); lia.
Qed.

Lemma find_slot_none (p : timer_t -> bool) l k :
  forallb (fun t => negb (p t)) l = true -> find_slot p l k = None.
Proof.
  revert k. induction l as [|t l IH]; intros k H; [reflexivity |].
  cbn in H |- *. apply andb_true_iff in H as [H1 H2].
  destruct (p t); [discriminate | apply IH, H2].
Qed.

Lemma find_slot_some (p : timer_t -> bool) l k j :
  find_slot p l k = Some j -> (k <= j < k + length l)%nat.
Proof.
  revert k. induction l as [|t l IH]; intros k H; [discriminate |].
  cbn in H |- *. destruct (p t); [injection H as <-; lia |].
  apply IH in H. lia.
Qed.

(** [set_timer] for a callback that holds no slot, with a free slot [i]. *)
Lemma set_timer_fresh s tmo cb rep i :
  find_available_timer s = Some i ->
  forallb (fun t => negb (cb_eqb (callback t) (Some cb))) (timers s) = true ->
  let '(tid, s1, flt) := set_timer s tmo cb rep in
  flt = false /\ (i < length (timers s1))%nat /\
  nth i (timers s1) zero_timer = mkTimer tmo tmo (Some cb) rep tid /\
  forall j, j <> i -> nth j (timers s1) zero_timer = nth j (timers s) zero_timer.
Proof.
  intros Hav Hno.
  pose proof (find_slot_some _ _ _ _ Hav) as Hi. cbn [plus] in Hi.
  unfold set_timer, find_timer_id_by_callback.
  rewrite (find_slot_none _ _ _ Hno), Z.eqb_refl, Hav.
  unfold find_next_timer_id, update_slot. cbv beta iota zeta. cbn [timers next_timer_id].
  rewrite !length_list_set.
  split; [reflexivity | split; [lia | split]].
  - rewrite nth_list_set by (rewrite length_list_set; lia).
    rewrite Nat.eqb_refl, nth_list_set by lia. rewrite Nat.eqb_refl. reflexivity.
  - intros j Hne.
    rewrite nth_list_set by (rewrite length_list_set; lia).
    apply Nat.eqb_neq in Hne. rewrite Hne.
    rewrite nth_list_set by lia. rewrite Hne. reflexivity.
Qed.

End TimerProofs.

(** ** The timer pool: timeout 0 *)
Module TimerTickClaims.
Import Timer TimerProofs.

(** C10 (amended): when the pool has a free slot [i] and [cb] holds no
    slot, [set_timer(0, cb, r)] raises no fault, arms slot [i] with counter
    0 and returns that slot's id.  The first tick decrements the counter
    before testing it and wraps it to 2^32 - 1: for the first 2^32 - 1
    ticks [cb] does not fire and after [n] of them the counter reads
    (2^32 - n) mod 2^32; it fires on tick 2^32 (the other callbacks being
    observers that do not touch the pool). *)
Theorem C10_timeout_zero_waits (s : state) (cb : nat) (rep : bool) (i : nat) :
  find_available_timer s = Some i ->
  forallb (fun t => negb (cb_eqb (callback t) (Some cb))) (timers s) = true ->
  let '(tid, s1, flt) := set_timer s 0 cb rep in
  flt = false /\
  nth i (timers s1) zero_timer = mkTimer 0 0 (Some cb) rep tid /\
  (forall n : nat, (n < Z.to_nat UINT32_MOD)%nat ->
     ~ In cb (fst (ticks n s1)) /\
     counter (nth i (timers (snd (ticks n s1))) zero_timer) =
       (UINT32_MOD - Z.of_nat n) mod UINT32_MOD) /\
  In cb (fst (ticks (Z.to_nat UINT32_MOD) s1)).
Proof.
  intros Hav Hno.
  pose proof (set_timer_fresh s 0 cb rep i Hav Hno) as F.
  destruct (set_timer s 0 cb rep) as [[tid s1] flt].
  destruct F as [Hf [Hi [Hslot Ho]]].
  assert (A0 : armed_slot i cb 0 (timers s1)).
  { split; [exact Hi | rewrite Hslot; split; [reflexivity | split; [reflexivity |]]].
    intros j Hne. rewrite (Ho j Hne).
    destruct (Nat.lt_ge_cases j (length (timers s))) as [Hj | Hj].
    - rewrite forallb_forall in Hno.
      specialize (Hno _ (nth_In _ zero_timer Hj)).
      intro E. rewrite E in Hno. cbn in Hno. rewrite Nat.eqb_refl in Hno. discriminate.
    - rewrite nth_overflow by exact Hj. discriminate. }
  assert (HM : (UINT32_MOD - 1) mod UINT32_MOD = UINT32_MOD - 1)
    by (apply Z.mod_small; unfold UINT32_MOD; lia).
  destruct (tick_armed i cb 0 (timers s1) A0) as [Hq1 A1];
    [replace (0 - 1) with (-1) by reflexivity; unfold UINT32_MOD; cbv; discriminate |].
  replace ((0 - 1) mod UINT32_MOD) with (UINT32_MOD - 1) in A1
    by (unfold UINT32_MOD; reflexivity).
  split; [exact Hf | split; [exact Hslot | split]].
  - intros [|n] Hn.
    + cbn. split; [tauto |]. rewrite Hslot. unfold UINT32_MOD. reflexivity.
    + rewrite ticks_S. cbn [fst snd].
      destruct (ticks_quiet i cb n (mkState (next_timer_id s1) (snd (tick_slots (timers s1))))
                  (UINT32_MOD - 1) A1) as [Hq2 [_ [_ [Hc2 _]]]];
        [unfold UINT32_MOD in *; lia |].
      split.
      * intro H. apply in_app_or in H as [H | H]; contradiction.
      * rewrite Hc2. symmetry. rewrite Z.mod_small by (unfold UINT32_MOD in *; lia). lia.
  - assert (HN : Z.to_nat UINT32_MOD = S (S (Z.to_nat (UINT32_MOD - 2)))).
    { rewrite <- !Z2Nat.inj_succ by (unfold UINT32_MOD; lia).
      f_equal. }
    rewrite HN, ticks_S. apply in_or_app. right.
    apply (ticks_fire i cb (Z.to_nat (UINT32_MOD - 2))
             (mkState (next_timer_id s1) (snd (tick_slots (timers s1)))) (UINT32_MOD - 1) A1);
      unfold UINT32_MOD; lia.
Qed.

(** Witness of C10: on the fresh pool, slot 0 is free and callback 5 holds
    no slot. *)
Lemma C10_witness :
  (find_available_timer timer_init = Some 0%nat /\
   forallb (fun t => negb (cb_eqb (callback t) (Some 5%nat))) (timers timer_init) = true) /\
  let '(tid, s1, flt) := set_timer timer_init 0 5 false in
  flt = false /\
  nth 0 (timers s1) zero_timer = mkTimer 0 0 (Some 5%nat) false tid /\
  (forall n : nat, (n < Z.to_nat UINT32_MOD)%nat ->
     ~ In 5%nat (fst (ticks n s1)) /\
     counter (nth 0 (timers (snd (ticks n s1))) zero_timer) =
       (UINT32_MOD - Z.of_nat n) mod UINT32_MOD) /\
  In 5%nat (fst (ticks (Z.to_nat UINT32_MOD) s1)).
Proof.
  assert (H1 : find_available_timer timer_init = Some 0%nat) by (vm_compute; reflexivity).
  assert (H2 : forallb (fun t => negb (cb_eqb (callback t) (Some 5%nat))) (timers timer_init) = true)
    by (vm_compute; reflexivity).
  exact (conj (conj H1 H2) (C10_timeout_zero_waits timer_init 5 false 0 H1 H2)).
Defined.

End TimerTickClaims.

(** ** The event queue: delivery of valid pushes *)
Module EventQueueExtra.
Import EventQueue EventQueueRuns EventQueueProofs.

Lemma notify_subscribers_subs s1 s2 ev :
  subscribers s1 = subscribers s2 -> notify_subscribers s1 ev = notify_subscribers s2 ev.
Proof. intros H. unfold notify_subscribers, subscribers_of. rewrite H. reflexivity. Qed.

(** X1: from an empty well-formed queue, pushes of valid kinds (neither
    [EVENT_NULL] nor out of range), at most 7 of them, followed by one
    [event_queue_pop_and_notify] deliver every pushed event in push order,
    each to the subscribers of its kind in their chain order, and leave the
    queue empty. *)
Theorem X1_valid_pushes_delivered_fifo (s : state) (evs : list (Z * Z)) :
  queue_wf s -> event_queue_get_num_events s = 0 ->
  Forall (fun e => 0 < fst e < NUMBER_OF_EVENTS) evs -> (length evs <= 7)%nat ->
  fst (event_queue_pop_and_notify (push_all s evs)) =
    concat (map (fun e => notify_subscribers s (mkEvent (fst e) (snd e))) evs) /\
  is_queue_empty (snd (event_queue_pop_and_notify (push_all s evs))) = true.
Proof.
  intros Hwf Hz Hall Hlen.
  destruct (push_all_appends s evs Hwf Hall ltac:(lia)) as (Hwf' & Hp & Hsb & Hn).
  unfold event_queue_pop_and_notify.
  destruct (drain_delivers (Z.to_nat EVENT_QUEUE_SIZE) (push_all s evs) Hwf')
    as (Hd & He & _); [rewrite Hn, Hz; unfold EVENT_QUEUE_SIZE; lia |].
  split; [| exact He].
  rewrite Hd, Hp, pending_empty by exact Hz. cbn [app].
  rewrite map_map. f_equal. apply map_ext. intros e.
  apply notify_subscribers_subs. exact Hsb.
Qed.

(** Witness of X1: callback 7 subscribed to [EVENT_SYS_TICK], two ticks
    pushed. *)
Lemma X1_witness :
  (queue_wf subscribed /\ event_queue_get_num_events subscribed = 0 /\
   Forall (fun e => 0 < fst e < NUMBER_OF_EVENTS) [(EVENT_SYS_TICK, 5); (EVENT_SYS_TICK, 6)]) /\
  fst (event_queue_pop_and_notify (push_all subscribed [(EVENT_SYS_TICK, 5); (EVENT_SYS_TICK, 6)])) =
    concat (map (fun e => notify_subscribers subscribed (mkEvent (fst e) (snd e)))
                [(EVENT_SYS_TICK, 5); (EVENT_SYS_TICK, 6)]) /\
  is_queue_empty (snd (event_queue_pop_and_notify
                        (push_all subscribed [(EVENT_SYS_TICK, 5); (EVENT_SYS_TICK, 6)]))) = true.
Proof.
  assert (H1 : queue_wf subscribed)
    by (unfold queue_wf; vm_compute; repeat split; try reflexivity; intro H; discriminate).
  assert (H2 : event_queue_get_num_events subscribed = 0) by (vm_compute; reflexivity).
  assert (H3 : Forall (fun e => 0 < fst e < NUMBER_OF_EVENTS) [(EVENT_SYS_TICK, 5); (EVENT_SYS_TICK, 6)])
    by (constructor; [cbn; unfold EVENT_SYS_TICK, NUMBER_OF_EVENTS; lia |
                      constructor; [cbn; unfold EVENT_SYS_TICK, NUMBER_OF_EVENTS; lia | constructor]]).
  exact (conj (conj H1 (conj H2 H3))
              (X1_valid_pushes_delivered_fifo subscribed _ H1 H2 H3 ltac:(cbn; lia))).
Defined.

End EventQueueExtra.

(** ** The ring buffer *)
Module RingBufferProofs.
Import RingBuffer.

Lemma mod_hi x n : n <= x < 2 * n -> x mod n = x - n.
Proof.
  intros H. replace x with ((x - n) + 1 * n) at 1 by ring.
  rewrite Z.mod_add by lia. apply Z.mod_small. lia.
Qed.

Lemma mod_neg x n : - n <= x < 0 -> x mod n = x + n.
Proof.
  intros H. replace x with ((x + n) + (-1) * n) at 1 by ring.
  rewrite Z.mod_add by lia. apply Z.mod_small. lia.
Qed.

(** The index arithmetic of the buffer: with [r] and [w] inside [0, n),
    [c] the count, [(r + j) mod n] for [j < c] misses [w], and [j = c]
    hits it. *)
Lemma ring_idx_before r w n j :
  0 <= r < n -> 0 <= w < n -> 0 <= j < (w - r) mod n -> (r + j) mod n <> w.
Proof.
  intros Hr Hw Hj.
  destruct (Z.le_gt_cases r w).
  - rewrite Z.mod_small in Hj by lia. rewrite Z.mod_small by lia. lia.
  - rewrite mod_neg in Hj by lia.
    destruct (Z.lt_ge_cases (r + j) n).
    + rewrite Z.mod_small by lia. lia.
    + rewrite mod_hi by lia. lia.
Qed.

Lemma ring_idx_at r w n :
  0 <= r < n -> 0 <= w < n -> (r + (w - r) mod n) mod n = w.
Proof.
  intros Hr Hw. destruct (Z.le_gt_cases r w).
  - rewrite (Z.mod_small (w - r)) by lia. rewrite Z.mod_small by lia. ring.
  - rewrite (mod_neg (w - r)) by lia. rewrite mod_hi by lia. ring.
Qed.

Lemma ring_count_bound b : ring_wf b -> 0 <= ring_buffer_count b < size b.
Proof. intros (Hn & _). apply Z.mod_pos_bound. exact Hn. Qed.

(** [ring_buffer_push] on a well-formed buffer. *)
Lemma ring_push_spec (b : ring_buffer_t) (d : Z) :
  ring_wf b ->
  0 <= ring_buffer_count b <= size b - 1 /\
  let '(ok, b') := ring_buffer_push b d in
  if ring_buffer_count b <? size b - 1
  then ok = true /\ ring_wf b' /\ size b' = size b /\
       ring_buffer_contents b' = ring_buffer_contents b ++ [d]
  else ok = false /\ b' = b.
Proof.
  intros Hwf. pose proof (ring_count_bound b Hwf) as Hc.
  split; [lia |].
  destruct b as [buf r w n]. destruct Hwf as (Hn & Hl & Hr & Hw).
  unfold ring_buffer_count in *. cbn [size read_idx write_idx buffer] in *.
  unfold ring_buffer_push, ring_buffer_is_full, ring_buffer_next.
  cbn [size read_idx write_idx buffer].
  assert (Hfull : ((w + 1) mod n =? r) = negb ((w - r) mod n <? n - 1)).
  { destruct (Z.le_gt_cases r w), (Z.eq_dec (w + 1) n).
    - rewrite (Z.mod_small (w - r)) by lia. subst n. rewrite Z.mod_same by lia.
      destruct (Z.eqb_spec 0 r), (Z.ltb_spec (w - r) (w + 1 - 1)); cbn; first [reflexivity | lia].
    - rewrite (Z.mod_small (w - r)) by lia. rewrite (Z.mod_small (w + 1)) by lia.
      destruct (Z.eqb_spec (w + 1) r), (Z.ltb_spec (w - r) (n - 1)); cbn; first [reflexivity | lia].
    - lia.
    - rewrite (mod_neg (w - r)) by lia. rewrite (Z.mod_small (w + 1)) by lia.
      destruct (Z.eqb_spec (w + 1) r), (Z.ltb_spec (w - r + n) (n - 1)); cbn; first [reflexivity | lia]. }
  rewrite Hfull, negb_involutive.
  destruct (Z.ltb_spec ((w - r) mod n) (n - 1)) as [Hlt | Hge]; [| split; reflexivity].
  assert (Hw' : 0 <= (w + 1) mod n < n) by (apply Z.mod_pos_bound; lia).
  split; [reflexivity |].
  split; [unfold ring_wf; cbn; unfold aset; rewrite length_list_set; lia |].
  split; [reflexivity |].
  unfold ring_buffer_contents, ring_buffer_count. cbn [size read_idx write_idx buffer].
  assert (Hc' : ((w + 1) mod n - r) mod n = (w - r) mod n + 1).
  { rewrite Zminus_mod_idemp_l. replace (w + 1 - r) with ((w - r) + 1) by ring.
    destruct (Z.le_gt_cases r w).
    - rewrite (Z.mod_small (w - r)) in * by lia. apply Z.mod_small. lia.
    - rewrite (mod_neg (w - r)) in * by lia. rewrite mod_neg by lia. ring. }
  rewrite Hc', Z2Nat.inj_add, Nat.add_1_r, seq_S, map_app by lia.
  cbn [map]. f_equal; [| f_equal].
  - apply map_ext_in. intros j Hj. apply in_seq in Hj.
    assert (Hm : 0 <= (r + Z.of_nat j) mod n < n) by (apply Z.mod_pos_bound; lia).
    rewrite aget_aset by lia.
    destruct (Z.eqb_spec ((r + Z.of_nat j) mod n) w) as [E |]; [| reflexivity].
    exfalso. apply (ring_idx_before r w n (Z.of_nat j)); lia.
  - rewrite Nat.add_0_l, Z2Nat.id by lia. rewrite ring_idx_at by lia.
    rewrite aget_aset by lia. rewrite Z.eqb_refl. reflexivity.
Qed.

(** [ring_buffer_pop] on a well-formed buffer. *)
Lemma ring_pop_spec (b : ring_buffer_t) (x : Z) :
  ring_wf b ->
  let '(ok, y, b') := ring_buffer_pop b x in
  match ring_buffer_contents b with
  | [] => ok = false /\ y = x /\ b' = b
  | z :: zs => ok = true /\ y = z /\ ring_wf b' /\ size b' = size b /\ ring_buffer_contents b' = zs
  end.
Proof.
  intros Hwf. destruct b as [buf r w n]. destruct Hwf as (Hn & Hl & Hr & Hw).
  unfold ring_buffer_pop, ring_buffer_is_empty, ring_buffer_contents, ring_buffer_count,
    ring_buffer_next.
  cbn [size read_idx write_idx buffer] in *.
  destruct (Z.eqb_spec r w) as [<- | Hne].
  - rewrite Z.sub_diag, Z.mod_0_l by lia. cbn. repeat split.
  - assert (Hc : 1 <= (w - r) mod n).
    { destruct (Z.le_gt_cases r w).
      - rewrite Z.mod_small by lia. lia.
      - rewrite mod_neg by lia. lia. }
    replace (Z.to_nat ((w - r) mod n)) with (S (Z.to_nat ((w - r) mod n - 1))) by lia.
    cbn [seq map negb]. rewrite Z.add_0_r, (Z.mod_small r) by lia.
    assert (Hr' : 0 <= (r + 1) mod n < n) by (apply Z.mod_pos_bound; lia).
    split; [reflexivity | split; [reflexivity |]].
    split; [unfold ring_wf; cbn; lia |].
    split; [reflexivity |].
    assert (Hc' : (w - (r + 1) mod n) mod n = (w - r) mod n - 1).
    { rewrite Zminus_mod_idemp_r. replace (w - (r + 1)) with ((w - r) - 1) by ring.
      destruct (Z.le_gt_cases r w).
      - rewrite (Z.mod_small (w - r)) in * by lia. apply Z.mod_small. lia.
      - rewrite (mod_neg (w - r)) in * by lia.
        rewrite (mod_neg (w - r - 1)) by lia. ring. }
    cbn [size read_idx write_idx buffer]. rewrite Hc', <- seq_shift, map_map.
    apply map_ext. intros j.
    rewrite Zplus_mod_idemp_l. f_equal. f_equal. lia.
Qed.

Lemma ring_contents_length b :
  length (ring_buffer_contents b) = Z.to_nat (ring_buffer_count b).
Proof. unfold ring_buffer_contents. rewrite length_map, length_seq. reflexivity. Qed.

Lemma ring_is_full_spec b :
  ring_wf b ->
  ring_buffer_is_full b = negb (ring_buffer_count b <? size b - 1).
Proof.
  intros Hwf. destruct (ring_push_spec b 0 Hwf) as [_ H].
  unfold ring_buffer_push in H.
  destruct (ring_buffer_is_full b), (ring_buffer_count b <? size b - 1); cbn in H;
    first [reflexivity | destruct H as [H _]; discriminate H].
Qed.

Lemma ring_is_empty_spec b :
  ring_wf b ->
  ring_buffer_is_empty b = match ring_buffer_contents b with [] => true | _ => false end.
Proof.
  intros Hwf. pose proof (ring_pop_spec b 0 Hwf) as H.
  unfold ring_buffer_pop in H.
  destruct (ring_buffer_is_empty b), (ring_buffer_contents b); cbn in H;
    first [reflexivity | destruct H as [H _]; discriminate H].
Qed.

Lemma usart_rx_bytes_spec b ds :
  ring_wf b ->
  ring_wf (usart_rx_bytes b ds) /\ size (usart_rx_bytes b ds) = size b /\
  ring_buffer_contents (usart_rx_bytes b ds) =
    ring_buffer_contents b ++
    firstn (Z.to_nat (size b - 1) - length (ring_buffer_contents b)) ds.
Proof.
  revert b. induction ds as [| d ds IH]; intros b Hwf.
  - cbn [usart_rx_bytes]. rewrite firstn_nil, app_nil_r. auto.
  - cbn [usart_rx_bytes]. rewrite ring_contents_length.
    destruct (ring_push_spec b d Hwf) as [Hc H].
    destruct (ring_buffer_push b d) as [ok b'] eqn:Ep. cbn [snd].
    destruct (Z.ltb_spec (ring_buffer_count b) (size b - 1)) as [Hlt | Hge].
    + destruct H as (_ & Hwf' & Hs & Hct).
      destruct (IH b' Hwf') as (Hw2 & Hs2 & Hc2).
      split; [exact Hw2 |]. split; [congruence |].
      rewrite Hc2, Hct, Hs, length_app, ring_contents_length, <- app_assoc.
      cbn [length].
      replace (Z.to_nat (size b - 1) - Z.to_nat (ring_buffer_count b))%nat
        with (S (Z.to_nat (size b - 1) - (Z.to_nat (ring_buffer_count b) + 1)))
        by lia.
      reflexivity.
    + destruct H as (_ & ->).
      destruct (IH b Hwf) as (Hw2 & Hs2 & Hc2).
      split; [exact Hw2 |]. split; [exact Hs2 |].
      rewrite Hc2, ring_contents_length.
      replace (Z.to_nat (size b - 1) - Z.to_nat (ring_buffer_count b))%nat with 0%nat
        by lia.
      reflexivity.
Qed.

(** X2: [ring_buffer_push] on a well-formed buffer: it succeeds exactly when
    fewer than [size - 1] bytes are held (the buffer holds at most
    [size - 1] bytes), and then appends [d] after the bytes held; on a full
    buffer it returns false and leaves the buffer as it is. *)
Theorem X2_ring_buffer_push (b : ring_buffer_t) (d : Z) :
  ring_wf b ->
  0 <= ring_buffer_count b <= size b - 1 /\
  let '(ok, b') := ring_buffer_push b d in
  if ring_buffer_count b <? size b - 1
  then ok = true /\ ring_wf b' /\ size b' = size b /\
       ring_buffer_contents b' = ring_buffer_contents b ++ [d]
  else ok = false /\ b' = b.
Proof. exact (ring_push_spec b d). Qed.

(** X3: [ring_buffer_pop] on a well-formed buffer: on an empty buffer it
    returns false and changes neither [*data] nor the buffer; otherwise it
    returns the oldest byte and the buffer holds the others, in order. *)
Theorem X3_ring_buffer_pop (b : ring_buffer_t) (x : Z) :
  ring_wf b ->
  let '(ok, y, b') := ring_buffer_pop b x in
  match ring_buffer_contents b with
  | [] => ok = false /\ y = x /\ b' = b
  | z :: zs => ok = true /\ y = z /\ ring_wf b' /\ size b' = size b /\ ring_buffer_contents b' = zs
  end.
Proof. exact (ring_pop_spec b x). Qed.

Lemma X2_witness :
  ring_wf vesc_serial_rx_buffer_init /\
  (0 <= ring_buffer_count vesc_serial_rx_buffer_init <= size vesc_serial_rx_buffer_init - 1 /\
   let '(ok, b') := ring_buffer_push vesc_serial_rx_buffer_init 2 in
   if ring_buffer_count vesc_serial_rx_buffer_init <? size vesc_serial_rx_buffer_init - 1
   then ok = true /\ ring_wf b' /\ size b' = size vesc_serial_rx_buffer_init /\
        ring_buffer_contents b' = ring_buffer_contents vesc_serial_rx_buffer_init ++ [2]
   else ok = false /\ b' = vesc_serial_rx_buffer_init).
Proof.
  assert (H : ring_wf vesc_serial_rx_buffer_init)
    by (unfold ring_wf; vm_compute; repeat split; discriminate).
  split; [exact H | apply X2_ring_buffer_push; exact H].
Defined.

Lemma X3_witness :
  ring_wf (snd (ring_buffer_push vesc_serial_rx_buffer_init 2)) /\
  (let '(ok, y, b') := ring_buffer_pop (snd (ring_buffer_push vesc_serial_rx_buffer_init 2)) 0 in
   match ring_buffer_contents (snd (ring_buffer_push vesc_serial_rx_buffer_init 2)) with
   | [] => ok = false /\ y = 0 /\ b' = snd (ring_buffer_push vesc_serial_rx_buffer_init 2)
   | z :: zs => ok = true /\ y = z /\ ring_wf b' /\
                size b' = size (snd (ring_buffer_push vesc_serial_rx_buffer_init 2)) /\
                ring_buffer_contents b' = zs
   end).
Proof.
  assert (H : ring_wf (snd (ring_buffer_push vesc_serial_rx_buffer_init 2)))
    by (unfold ring_wf; vm_compute; repeat split; discriminate).
  split; [exact H | apply X3_ring_buffer_pop; exact H].
Defined.

(** X23: receiving a run of bytes [ds] in [USART1_IRQHandler] into a
    well-formed buffer holding [k] bytes keeps the first [size - 1 - k]
    of them, after the bytes already held and in arrival order, and drops
    the rest; the buffer stays well formed and keeps its size. *)
Theorem X23_usart_rx_overflow_drops_newest (b : ring_buffer_t) (ds : list Z) :
  ring_wf b ->
  ring_wf (usart_rx_bytes b ds) /\ size (usart_rx_bytes b ds) = size b /\
  ring_buffer_contents (usart_rx_bytes b ds) =
    ring_buffer_contents b ++
    firstn (Z.to_nat (size b - 1) - length (ring_buffer_contents b)) ds.
Proof. exact (usart_rx_bytes_spec b ds). Qed.

(** 130 bytes (0, 1, ..., 129) arrive at the empty 128-byte RX buffer: the
    first 127 are kept, the last one kept is 126, and 127, 128, 129 are
    dropped. *)
Lemma X23_witness :
  ring_wf vesc_serial_rx_buffer_init /\
  length (ring_buffer_contents (usart_rx_bytes vesc_serial_rx_buffer_init (map Z.of_nat (seq 0 130)))) = 127%nat /\
  last (ring_buffer_contents (usart_rx_bytes vesc_serial_rx_buffer_init (map Z.of_nat (seq 0 130)))) 0 = 126 /\
  (ring_wf (usart_rx_bytes vesc_serial_rx_buffer_init (map Z.of_nat (seq 0 130))) /\
   size (usart_rx_bytes vesc_serial_rx_buffer_init (map Z.of_nat (seq 0 130))) = size vesc_serial_rx_buffer_init /\
   ring_buffer_contents (usart_rx_bytes vesc_serial_rx_buffer_init (map Z.of_nat (seq 0 130))) =
     ring_buffer_contents vesc_serial_rx_buffer_init ++
     firstn (Z.to_nat (size vesc_serial_rx_buffer_init - 1) -
             length (ring_buffer_contents vesc_serial_rx_buffer_init)) (map Z.of_nat (seq 0 130))).
Proof.
  assert (H : ring_wf vesc_serial_rx_buffer_init)
    by (unfold ring_wf; vm_compute; repeat split; discriminate).
  assert (H1 : length (ring_buffer_contents (usart_rx_bytes vesc_serial_rx_buffer_init (map Z.of_nat (seq 0 130)))) = 127%nat)
    by (vm_compute; reflexivity).
  assert (H2 : last (ring_buffer_contents (usart_rx_bytes vesc_serial_rx_buffer_init (map Z.of_nat (seq 0 130)))) 0 = 126)
    by (vm_compute; reflexivity).
  exact (conj H (conj H1 (conj H2 (X23_usart_rx_overflow_drops_newest vesc_serial_rx_buffer_init (map Z.of_nat (seq 0 130)) H)))).
Defined.

(** X24: on a well-formed buffer, [ring_buffer_is_empty] holds exactly when
    the buffer holds no byte, and [ring_buffer_is_full] exactly when it
    holds [size - 1] bytes, the most it can hold. *)
Theorem X24_ring_buffer_empty_full (b : ring_buffer_t) :
  ring_wf b ->
  (ring_buffer_is_empty b = true <-> ring_buffer_contents b = []) /\
 (ring_buffer_is_full b = true <->
   length (ring_buffer_contents b) = Z.to_nat (size b - 1)).
Proof.
  intros Hwf. split.
  - rewrite (ring_is_empty_spec b Hwf).
    destruct (ring_buffer_contents b); split; congruence.
  - rewrite (ring_is_full_spec b Hwf), ring_contents_length.
    destruct (ring_push_spec b 0 Hwf) as [Hc _].
    destruct (Z.ltb_spec (ring_buffer_count b) (size b - 1)); cbn; split;
      first [discriminate | lia | reflexivity].
Qed.

Lemma X24_witness :
  ring_wf vesc_serial_rx_buffer_init /\
 ((ring_buffer_is_empty vesc_serial_rx_buffer_init = true <->
    ring_buffer_contents vesc_serial_rx_buffer_init = []) /\
  (ring_buffer_is_full vesc_serial_rx_buffer_init = true <->
    length (ring_buffer_contents vesc_serial_rx_buffer_init) =
      Z.to_nat (size vesc_serial_rx_buffer_init - 1))).
Proof.
  assert (H : ring_wf vesc_serial_rx_buffer_init)
    by (unfold ring_wf; vm_compute; repeat split; discriminate).
  split; [exact H | apply X24_ring_buffer_empty_full; exact H].
Defined.

End RingBufferProofs.

(** ** The hysteresis latch *)
Module HysteresisExtra.
Import Hysteresis HysteresisClaims.

(** X4: on a latch whose reset threshold [R] is at most its set threshold
    [S] and whose state is [STATE_SET] or [STATE_RESET] (the latches
    [hysteresis_init] accepts), [apply_hysteresis] is a Schmitt trigger: a
    value at or above [S] reports and stores [STATE_SET], a value below [R]
    reports and stores [STATE_RESET], a value in between keeps the state;
    the thresholds are never changed. *)
Theorem X4_apply_hysteresis_schmitt (st : hys_state_t) (S R v : Q) :
  (R <= S)%Q -> st <> STATE_ERROR ->
  let st' := if Qle_bool S v then STATE_SET
             else if Qle_bool R v then st else STATE_RESET in
  apply_hysteresis (mkHys st S R) v = (st', mkHys st' S R).
Proof.
  intros HRS Hst. cbv zeta.
  destruct st; [| | contradiction]; unfold apply_hysteresis; cbn [state set_threshold reset_threshold hys_state_eqb andb negb].
  - destruct (Qle_bool S v); [reflexivity |]. destruct (Qle_bool R v); reflexivity.
  - destruct (Qle_bool R v) eqn:ER.
    + destruct (Qle_bool S v); reflexivity.
    + destruct (Qle_bool S v) eqn:ES; [| reflexivity].
      exfalso. apply Qle_bool_iff in ES. rewrite Qle_bool_true in ER by lra. discriminate.
Qed.

Lemma X4_witness :
  (1 # 2 <= 1)%Q /\ STATE_RESET <> STATE_ERROR /\
  apply_hysteresis (mkHys STATE_RESET 1 (1 # 2)) (3 # 4) =
    (let st' := if Qle_bool 1 (3 # 4) then STATE_SET
                else if Qle_bool (1 # 2) (3 # 4) then STATE_RESET else STATE_RESET in
     (st', mkHys st' 1 (1 # 2))).
Proof.
  assert (H1 : (1 # 2 <= 1)%Q) by (vm_compute; discriminate).
  assert (H2 : STATE_RESET <> STATE_ERROR) by discriminate.
  exact (conj H1 (conj H2 (X4_apply_hysteresis_schmitt STATE_RESET 1 (1 # 2) (3 # 4) H1 H2))).
Defined.

(** X5: [hysteresis_init] with a set threshold below the reset threshold
    returns [LCM_ERROR] and leaves the latch in [STATE_ERROR], from which
    [apply_hysteresis] reports [STATE_ERROR] for every sample. *)
Theorem X5_inverted_thresholds_error (h : hysteresis_t) (S R : Q) (vs : list Q) :
  (S < R)%Q ->
  fst (hysteresis_init h S R) = EventQueue.LCM_ERROR /\
  apply_all (snd (hysteresis_init h S R)) vs = List.repeat STATE_ERROR (length vs).
Proof.
  intros HSR. unfold hysteresis_init.
  destruct (Qlt_le_dec S R) as [_ | Hle]; [| exfalso; lra].
  split; [reflexivity |]. cbn [snd].
  generalize (set_threshold h) (reset_threshold h). intros a b.
  induction vs as [| v vs IH]; [reflexivity |].
  cbn [apply_all length List.repeat]. unfold apply_hysteresis at 1.
  cbn [state hys_state_eqb andb]. rewrite IH. reflexivity.
Qed.

Lemma X5_witness :
  (0 < 1)%Q /\
  fst (hysteresis_init zero_hysteresis 0 1) = EventQueue.LCM_ERROR /\
  apply_all (snd (hysteresis_init zero_hysteresis 0 1)) [5; 0]%Q
    = List.repeat STATE_ERROR (length [5; 0]%Q).
Proof.
  assert (H : (0 < 1)%Q) by (vm_compute; reflexivity).
  exact (conj H (X5_inverted_thresholds_error zero_hysteresis 0 1 [5; 0]%Q H)).
Defined.

End HysteresisExtra.

(** ** The event queue: capacity and draining *)
Module EventQueueCapacity.
Import EventQueue EventQueueMore EventQueueProofs.

(** X6: a well-formed queue holds between 0 and
    [event_queue_get_max_items] (7) events; once it holds that many, every
    [event_queue_push] returns [LCM_ERROR] and changes nothing, whatever
    the kind and the payload. *)
Theorem X6_full_queue_refuses (s : state) (event : Z) (data : option Z) :
  queue_wf s ->
  0 <= event_queue_get_num_events s <= event_queue_get_max_items /\
  (event_queue_get_num_events s = event_queue_get_max_items ->
   event_queue_push s event data = (LCM_ERROR, s)).
Proof.
  intros Hwf. pose proof (num_events_mod s Hwf) as Hn.
  pose proof (tail_from_head s Hwf) as Ht.
  unfold event_queue_get_max_items, EVENT_QUEUE_SIZE.
  pose proof (Z.mod_pos_bound (event_queue_tail s - event_queue_head s) 8 ltac:(lia)).
  split; [lia |]. intros Hfull.
  unfold event_queue_push, get_free_index, EVENT_QUEUE_SIZE.
  rewrite Ht, Hfull. destruct Hwf as (Hh & _). unfold EVENT_QUEUE_SIZE in Hh.
  assert (E : ((event_queue_head s + (8 - 1)) mod 8 + 1) mod 8 = event_queue_head s).
  { rewrite Zplus_mod_idemp_l. replace (event_queue_head s + (8 - 1) + 1)
      with (event_queue_head s + 1 * 8) by ring.
    rewrite Z.mod_add, Z.mod_small by lia. reflexivity. }
  rewrite E, Z.eqb_refl. reflexivity.
Qed.

Lemma X6_witness :
  queue_wf EventQueueRuns.full_queue /\
  event_queue_get_num_events EventQueueRuns.full_queue = event_queue_get_max_items /\
  event_queue_push EventQueueRuns.full_queue EVENT_SYS_TICK (Some 1)
    = (LCM_ERROR, EventQueueRuns.full_queue).
Proof.
  assert (H : queue_wf EventQueueRuns.full_queue)
    by (unfold queue_wf; vm_compute; repeat split; try reflexivity; intro H; discriminate).
  assert (Hn : event_queue_get_num_events EventQueueRuns.full_queue = event_queue_get_max_items)
    by (vm_compute; reflexivity).
  destruct (X6_full_queue_refuses EventQueueRuns.full_queue EVENT_SYS_TICK (Some 1) H)
    as [_ Hf].
  exact (conj H (conj Hn (Hf Hn))).
Defined.

(** X7: on any well-formed queue, [event_queue_pop_and_notify] delivers the
    pending events oldest first, each to the callbacks of its kind's
    subscriber chain, empties the queue and leaves the subscriptions as
    they were. *)
Theorem X7_pop_and_notify_drains (s : state) :
  queue_wf s ->
  fst (event_queue_pop_and_notify s) = concat (map (notify_subscribers s) (pending s)) /\
  is_queue_empty (snd (event_queue_pop_and_notify s)) = true /\
  (snd (event_queue_pop_and_notify s)).(subscribers) = s.(subscribers).
Proof.
  intros Hwf. apply drain_delivers; [exact Hwf |].
  rewrite num_events_mod by exact Hwf.
  pose proof (Z.mod_pos_bound (event_queue_tail s - event_queue_head s) 8 ltac:(lia)).
  unfold EVENT_QUEUE_SIZE. lia.
Qed.

Lemma X7_witness :
  queue_wf EventQueueRuns.full_queue /\
  length (pending EventQueueRuns.full_queue) = 7%nat /\
  length (fst (event_queue_pop_and_notify EventQueueRuns.full_queue)) = 7%nat /\
  (fst (event_queue_pop_and_notify EventQueueRuns.full_queue)
     = concat (map (notify_subscribers EventQueueRuns.full_queue)
                 (pending EventQueueRuns.full_queue)) /\
   is_queue_empty (snd (event_queue_pop_and_notify EventQueueRuns.full_queue)) = true /\
   (snd (event_queue_pop_and_notify EventQueueRuns.full_queue)).(subscribers)
     = EventQueueRuns.full_queue.(subscribers)).
Proof.
  assert (H : queue_wf EventQueueRuns.full_queue)
    by (unfold queue_wf; vm_compute; repeat split; try reflexivity; intro H; discriminate).
  assert (H1 : length (pending EventQueueRuns.full_queue) = 7%nat) by (vm_compute; reflexivity).
  assert (H2 : length (fst (event_queue_pop_and_notify EventQueueRuns.full_queue)) = 7%nat)
    by (vm_compute; reflexivity).
  exact (conj H (conj H1 (conj H2 (X7_pop_and_notify_drains _ H)))).
Defined.

End EventQueueCapacity.

(** ** The board mode state machine: the pairs it reaches, the fault mode *)
Module BoardModeExtra.
Import Hysteresis BoardMode BoardModeMore BoardModeProofs.

Definition mode_ok (s : state) : Prop :=
  mode_submode_ok (board_mode s) (board_submode s) = true.

Lemma mode_ok_set s m sm : mode_submode_ok m sm = true -> mode_ok (set_board_mode s m sm).
Proof. intros H. unfold mode_ok. destruct (set_board_mode_mode s m sm) as [-> ->]. exact H. Qed.

Lemma mode_ok_update s : mode_ok s -> mode_ok (update_riding_submode s).
Proof.
  intro H.
  destruct (Qle_bool (vesc_imu_roll s) 45) eqn:R1;
    [destruct (Qle_bool (-45) (vesc_imu_roll s)) eqn:R2 |].
  - pose proof (update_riding_submode_mode s R1 R2) as E. unfold mode_ok.
    destruct (board_submode_t_beq (board_submode s) (priority_submode s));
      injection E as E1 E2; rewrite E1, E2; [exact H | apply priority_submode_riding].
  - unfold update_riding_submode. rewrite R1, R2. exact H.
  - unfold update_riding_submode. rewrite R1. exact H.
Qed.

Ltac mode_ok_leaf H :=
  first [ exact H
        | apply mode_ok_update; exact H
        | apply mode_ok_set; reflexivity ].

Lemma mode_ok_step s i : mode_ok s -> mode_ok (step s i).
Proof.
  intro H. destruct i as [c| | |r| | |fp|d r roll|fp|o]; cbn [step].
  - destruct c as [| |[|]| |roll]; unfold command_handler;
      repeat match goal with |- mode_ok (if ?b then _ else _) => destruct b end;
      mode_ok_leaf H.
  - unfold vesc_alive_handler. destruct (board_mode_t_beq _ _); mode_ok_leaf H.
  - unfold idle_timer_handler. destruct (board_mode_t_beq _ _); [| exact H].
    destruct (board_submode s); mode_ok_leaf H.
  - unfold rpm_changed_handler. destruct (board_mode s) eqn:M; try exact H;
      repeat match goal with |- mode_ok (if ?b then _ else _) => destruct b end;
      mode_ok_leaf H.
  - unfold duty_cycle_changed_handler. destruct (board_mode_t_beq _ _); mode_ok_leaf H.
  - apply mode_ok_set. reflexivity.
  - unfold footpad_changed_handler. destruct (board_mode s) eqn:M; try exact H;
      repeat match goal with |- mode_ok (if ?b then _ else _) => destruct b end;
      mode_ok_leaf H.
  - exact H.
  - exact H.
  - exact H.
Qed.

Lemma mode_ok_run is s : mode_ok s -> mode_ok (run s is).
Proof.
  revert s. induction is as [|i is IH]; intros s H; [exact H |].
  apply IH, mode_ok_step, H.
Qed.

(** X8: from [board_mode_init], whatever events arrive, the board's mode
    and submode always form one of the pairs [set_board_mode] is called
    with: OFF, BOOTING and FAULT with the UNDEFINED submode, IDLE with one
    of its five submodes, RIDING with one of the five riding submodes. In
    particular the branch of [set_board_mode] that faults on an IDLE
    submode it does not know is never taken, and the mode is never
    UNKNOWN or CHARGING. *)
Theorem X8_mode_submode_pairs (is : list input) :
  mode_submode_ok (board_mode (run_from_init is)) (board_submode (run_from_init is)) = true.
Proof. apply mode_ok_run. reflexivity. Qed.

(** X9: in mode FAULT the board stays in FAULT on every input except two
    commands, [CMD_SHUTDOWN] and [CMD_MODE_CONFIG] with [enable] false,
    which both take it to IDLE: to IDLE/SHUTTING_DOWN and IDLE/ACTIVE. *)
Theorem X9_fault_exits (s : state) (i : input) :
  board_mode s = BOARD_MODE_FAULT ->
  (board_mode (step s i) = BOARD_MODE_FAULT <->
   i <> InCommand CmdShutdown /\ i <> InCommand (CmdModeConfig false)) /\
  board_mode (step s (InCommand CmdShutdown)) = BOARD_MODE_IDLE /\
  board_submode (step s (InCommand CmdShutdown)) = BOARD_SUBMODE_IDLE_SHUTTING_DOWN /\
  board_mode (step s (InCommand (CmdModeConfig false))) = BOARD_MODE_IDLE /\
  board_submode (step s (InCommand (CmdModeConfig false))) = BOARD_SUBMODE_IDLE_ACTIVE.
Proof.
  intros HF.
  assert (Hx : board_mode (step s (InCommand CmdShutdown)) = BOARD_MODE_IDLE /\
    board_submode (step s (InCommand CmdShutdown)) = BOARD_SUBMODE_IDLE_SHUTTING_DOWN /\
    board_mode (step s (InCommand (CmdModeConfig false))) = BOARD_MODE_IDLE /\
    board_submode (step s (InCommand (CmdModeConfig false))) = BOARD_SUBMODE_IDLE_ACTIVE).
  { cbn [step command_handler].
    destruct (set_board_mode_mode s BOARD_MODE_IDLE BOARD_SUBMODE_IDLE_SHUTTING_DOWN) as [-> ->].
    destruct (set_board_mode_mode s BOARD_MODE_IDLE BOARD_SUBMODE_IDLE_ACTIVE) as [-> ->].
    repeat split. }
  refine (conj _ Hx).
  destruct i as [c| | |r| | |fp|d r roll|fp|o]; cbn [step].
  - destruct c as [| |[|]| |roll]; unfold command_handler; try rewrite HF; cbn [board_mode_t_beq andb].
    + split; [intros _; split; discriminate | intros _; exact HF].
    + destruct (set_board_mode_mode s BOARD_MODE_IDLE BOARD_SUBMODE_IDLE_SHUTTING_DOWN) as [-> _].
      split; [discriminate | intros [N _]; contradiction].
    + split; [intros _; split; discriminate | intros _; exact HF].
    + destruct (set_board_mode_mode s BOARD_MODE_IDLE BOARD_SUBMODE_IDLE_ACTIVE) as [-> _].
      split; [discriminate | intros [_ N]; contradiction].
    + split; [intros _; split; discriminate | intros _; exact HF].
    + split; [intros _; split; discriminate | intros _; exact HF].
  - unfold vesc_alive_handler. rewrite HF. cbn.
    split; [intros _; split; discriminate | intros _; exact HF].
  - unfold idle_timer_handler. rewrite HF. cbn.
    split; [intros _; split; discriminate | intros _; exact HF].
  - unfold rpm_changed_handler. rewrite HF.
    split; [intros _; split; discriminate | intros _; exact HF].
  - unfold duty_cycle_changed_handler. rewrite HF. cbn.
    split; [intros _; split; discriminate | intros _; exact HF].
  - unfold emergency_fault_handler.
    destruct (set_board_mode_mode s BOARD_MODE_FAULT BOARD_SUBMODE_UNDEFINED) as [-> _].
    split; [intros _; split; discriminate | intros _; reflexivity].
  - unfold footpad_changed_handler. rewrite HF.
    split; [intros _; split; discriminate | intros _; exact HF].
  - split; [intros _; split; discriminate | intros _; exact HF].
  - split; [intros _; split; discriminate | intros _; exact HF].
  - split; [intros _; split; discriminate | intros _; exact HF].
Qed.

Lemma X9_witness :
  board_mode (run_from_init [InEmergencyFault]) = BOARD_MODE_FAULT /\
  ((board_mode (step (run_from_init [InEmergencyFault]) InVescAlive) = BOARD_MODE_FAULT <->
    InVescAlive <> InCommand CmdShutdown /\ InVescAlive <> InCommand (CmdModeConfig false)) /\
   board_mode (step (run_from_init [InEmergencyFault]) (InCommand CmdShutdown)) = BOARD_MODE_IDLE /\
   board_submode (step (run_from_init [InEmergencyFault]) (InCommand CmdShutdown))
     = BOARD_SUBMODE_IDLE_SHUTTING_DOWN /\
   board_mode (step (run_from_init [InEmergencyFault]) (InCommand (CmdModeConfig false)))
     = BOARD_MODE_IDLE /\
   board_submode (step (run_from_init [InEmergencyFault]) (InCommand (CmdModeConfig false)))
     = BOARD_SUBMODE_IDLE_ACTIVE).
Proof.
  assert (H : board_mode (run_from_init [InEmergencyFault]) = BOARD_MODE_FAULT)
    by (vm_compute; reflexivity).
  exact (conj H (X9_fault_exits _ InVescAlive H)).
Defined.

End BoardModeExtra.

(** ** The VESC serial link: framing, decoding, the busy callback *)
Module VescSerialExtra.
Import VescSerial VescSerialMore.

(** *** Lemmas *)

Lemma with_rx_eta s : with_rx s (rx_bytes s) = s.
Proof. destruct s; reflexivity. Qed.

Lemma with_rx_with_rx s a b : with_rx (with_rx s a) b = with_rx s b.
Proof. reflexivity. Qed.

Lemma pop_with s b r : ring_buffer_pop (with_rx s (b :: r)) = Some (b, with_rx s r).
Proof. reflexivity. Qed.

Lemma pop_with_nil s : ring_buffer_pop (with_rx s []) = None.
Proof. reflexivity. Qed.

Lemma clear_rx s : rx_bytes (clear_outstanding_packets s) = rx_bytes s.
Proof. unfold clear_outstanding_packets. destruct (vesc_serial_callback s); reflexivity. Qed.

Lemma process_packet_keeps s pl len :
  rx_bytes (process_packet s pl len) = rx_bytes s /\
  callbacks_called (process_packet s pl len) = callbacks_called s /\
  vesc_serial_callback (process_packet s pl len) = vesc_serial_callback s.
Proof.
  unfold process_packet.
  destruct (vesc_alive s); destruct (byte_at pl 0 =? COMM_GET_VALUES_SETUP_SELECTIVE);
    try (repeat split; reflexivity);
    destruct (process_comm_get_values_setup_selective _ pl len); repeat split; reflexivity.
Qed.

Lemma list_set_app {A} (pre post : list A) x y :
  list_set (pre ++ x :: post) (length pre) y = pre ++ y :: post.
Proof. induction pre as [|a pre IH]; cbn; [reflexivity | rewrite IH; reflexivity]. Qed.

(** The payload loop reads the next [n] bytes into the array from index
    [length pre]. *)
Lemma read_payload_bytes bytes rest pre post s :
  (length bytes <= length post)%nat ->
  read_payload (length bytes) (length pre) (pre ++ post) (with_rx s (bytes ++ rest)) =
    (Some (pre ++ bytes ++ skipn (length bytes) post), with_rx s rest).
Proof.
  revert pre post. induction bytes as [|b bs IH]; intros pre post Hl.
  - cbn. reflexivity.
  - destruct post as [|p post]; cbn in Hl; [lia |].
    cbn [length read_payload app]. rewrite pop_with, list_set_app.
    replace (S (length pre)) with (length (pre ++ [b])) by (rewrite length_app; cbn; lia).
    replace (pre ++ b :: post) with ((pre ++ [b]) ++ post) by (rewrite <- app_assoc; reflexivity).
    rewrite (IH (pre ++ [b]) post) by lia.
    rewrite <- app_assoc. reflexivity.
Qed.

(** The search loop skips bytes other than [START_BYTE]. *)
Lemma rx_loop_skip junk r f byte pl s :
  byte <> START_BYTE -> Forall (fun b => b <> START_BYTE) junk ->
  exists byte', byte' <> START_BYTE /\
    rx_loop (length junk + f) byte pl (with_rx s (junk ++ r)) = rx_loop f byte' pl (with_rx s r).
Proof.
  revert byte. induction junk as [|b junk IH]; intros byte Hb Hj.
  - exists byte. split; [exact Hb | reflexivity].
  - inversion Hj as [|? ? Hb1 Hj1]; subst.
    cbn [length app Nat.add rx_loop].
    rewrite (proj2 (Z.eqb_neq byte START_BYTE) Hb).
    cbn [app]. rewrite pop_with.
    rewrite (proj2 (Z.eqb_neq b START_BYTE) Hb1).
    exact (IH b Hb1 Hj1).
Qed.

(** The CRC is a 16-bit value, and splitting it into its high and low
    bytes and joining them as the handler does gives it back. *)
Lemma land_65535_range x : 0 <= Z.land x 65535 < 65536.
Proof.
  change 65535 with (Z.ones 16). rewrite Z.land_ones by lia.
  apply Z.mod_pos_bound. reflexivity.
Qed.

Lemma crc_bits_S_range k c : 0 <= crc_bits (S k) c < 65536.
Proof.
  revert c. induction k as [|k IH]; intros c; [apply land_65535_range |].
  change (crc_bits (S (S k)) c) with
    (crc_bits (S k) (Z.land (if Z.testbit c 15 then Z.lxor (Z.shiftl c 1) 4129
                             else Z.shiftl c 1) 65535)).
  apply IH.
Qed.

Lemma crc16_ccitt_range pl : 0 <= crc16_ccitt pl < 65536.
Proof.
  unfold crc16_ccitt.
  assert (G : forall l c, 0 <= c < 65536 ->
    0 <= fold_left (fun crc b => crc_bits 8 (Z.lxor crc (Z.shiftl b 8))) l c < 65536).
  { induction l as [|b l IH]; intros c Hc; [exact Hc |].
    cbn [fold_left]. apply IH. apply (crc_bits_S_range 7). }
  apply G. lia.
Qed.

Lemma crc_split c : 0 <= c < 65536 ->
  Z.lor (Z.land (Z.shiftl (Z.shiftr c 8) 8) 65535) (Z.land c 255) = c.
Proof.
  intros Hc. apply Z.bits_inj'. intros n Hn.
  change 65535 with (Z.ones 16). change 255 with (Z.ones 8).
  rewrite Z.lor_spec, !Z.land_spec.
  destruct (Z.lt_ge_cases n 8).
  - rewrite Z.shiftl_spec_low, (Z.ones_spec_low 8 n) by lia.
    rewrite andb_true_r. reflexivity.
  - rewrite Z.shiftl_spec_high, Z.shiftr_spec, (Z.ones_spec_high 8 n) by lia.
    rewrite andb_false_r, orb_false_r. replace (n - 8 + 8) with n by ring.
    destruct (Z.lt_ge_cases n 16).
    + rewrite Z.ones_spec_low by lia. apply andb_true_r.
    + rewrite (Z.ones_spec_high 16 n), andb_false_r by lia.
      rewrite <- (Z.mod_small c (2 ^ 16)) by (cbn; lia).
      symmetry. apply Z.mod_pow2_bits_high. lia.
Qed.

(** [read_frame] on a well-formed frame (after its start byte). *)
Lemma read_frame_ok pl payload s r :
  (length pl <= 32)%nat -> (length pl <= length payload)%nat ->
  read_frame payload (with_rx s (tl (vesc_frame pl) ++ r)) =
    inr (END_BYTE, pl ++ skipn (length pl) payload,
         process_packet (with_rx s r) (pl ++ skipn (length pl) payload) (Z.of_nat (length pl))).
Proof.
  intros H32 Hpl. unfold read_frame, vesc_frame. cbn [tl app].
  rewrite pop_with.
  rewrite (proj2 (Z.ltb_ge MAX_PACKET_LENGTH (Z.of_nat (length pl)))) by (unfold MAX_PACKET_LENGTH; lia).
  rewrite Nat2Z.id.
  pose proof (read_payload_bytes pl ([Z.shiftr (crc16_ccitt pl) 8; Z.land (crc16_ccitt pl) 255; END_BYTE] ++ r)
                [] payload s Hpl) as RP.
  cbn [length app] in RP. rewrite <- app_assoc. cbn [app]. rewrite RP. rewrite !pop_with.
  rewrite firstn_app, firstn_all, Nat.sub_diag, firstn_O, app_nil_r.
  rewrite crc_split by apply crc16_ccitt_range.
  rewrite !Z.eqb_refl. reflexivity.
Qed.

(** The state a check leaves the callback fields in. *)
Definition same_cb (s1 s2 : state) : Prop :=
  callbacks_called s1 = callbacks_called s2 /\ vesc_serial_callback s1 = vesc_serial_callback s2.

Lemma pop_same_cb s b s1 : ring_buffer_pop s = Some (b, s1) -> same_cb s1 s.
Proof.
  unfold ring_buffer_pop. destruct (rx_bytes s); intro H; inversion H; split; reflexivity.
Qed.

Lemma read_payload_same_cb n i pl s : same_cb (snd (read_payload n i pl s)) s.
Proof.
  revert i pl s. induction n as [|n IH]; intros i pl s; cbn [read_payload];
    [split; reflexivity |].
  destruct (ring_buffer_pop s) as [[b s1]|] eqn:E; [| split; reflexivity].
  destruct (IH (S i) (list_set pl i b) s1) as [A B].
  destruct (pop_same_cb _ _ _ E) as [C D]. split; congruence.
Qed.

Lemma read_frame_same_cb pl s :
  match read_frame pl s with
  | inl s2 => same_cb s2 s
  | inr (_, _, s2) => same_cb s2 s
  end.
Proof.
  unfold read_frame.
  destruct (ring_buffer_pop s) as [[len s1]|] eqn:E1; [| split; reflexivity].
  destruct (pop_same_cb _ _ _ E1) as [A1 B1].
  destruct (MAX_PACKET_LENGTH <? len); [split; assumption |].
  pose proof (read_payload_same_cb (Z.to_nat len) 0 pl s1) as [A2 B2].
  destruct (read_payload (Z.to_nat len) 0 pl s1) as [[pl'|] s2]; cbn [snd] in A2, B2;
    [| split; congruence].
  destruct (ring_buffer_pop s2) as [[hi s3]|] eqn:E3; [| split; congruence].
  destruct (pop_same_cb _ _ _ E3) as [A3 B3].
  destruct (ring_buffer_pop s3) as [[lo s4]|] eqn:E4; [| split; congruence].
  destruct (pop_same_cb _ _ _ E4) as [A4 B4].
  destruct (ring_buffer_pop s4) as [[byte s5]|] eqn:E5; [| split; congruence].
  destruct (pop_same_cb _ _ _ E5) as [A5 B5].
  destruct (_ && _); [destruct (process_packet_keeps s5 pl' len) as (_ & A6 & B6) |];
    split; congruence.
Qed.

Lemma rx_loop_same_cb fuel byte pl s : same_cb (rx_loop fuel byte pl s) s.
Proof.
  revert byte pl s. induction fuel as [|f IH]; intros byte pl s; cbn [rx_loop];
    [split; reflexivity |].
  destruct (byte =? START_BYTE); [split; reflexivity |].
  destruct (ring_buffer_pop s) as [[b s1]|] eqn:E; [| split; reflexivity].
  destruct (pop_same_cb _ _ _ E) as [A B].
  destruct (b =? START_BYTE).
  - pose proof (read_frame_same_cb pl s1) as R.
    destruct (read_frame pl s1) as [s2 | [[b' pl'] s2]]; destruct R as [C D];
      [split; congruence |].
    destruct (IH b' pl' s2) as [F G]. split; congruence.
  - destruct (IH b pl s1) as [F G]. split; congruence.
Qed.

(** The RX handler invokes the pending callback, if any, once, and clears
    it. *)
Lemma handler_callbacks s :
  callbacks_called (vesc_serial_rx_event_handler s) =
    callbacks_called s ++ match vesc_serial_callback s with Some c => [c] | None => [] end /\
  vesc_serial_callback (vesc_serial_rx_event_handler s) = None.
Proof.
  unfold vesc_serial_rx_event_handler.
  destruct (rx_loop_same_cb (S (length (rx_bytes (clear_outstanding_packets s)))) 0
              (List.repeat 0 (Z.to_nat MAX_PACKET_LENGTH)) (clear_outstanding_packets s)) as [A B].
  rewrite A, B. unfold clear_outstanding_packets.
  destruct (vesc_serial_callback s); cbn; [split; reflexivity |].
  rewrite app_nil_r. split; reflexivity.
Qed.

Lemma mod_neg' x n : - n <= x < 0 -> x mod n = x + n.
Proof.
  intros H. replace x with ((x + n) + (-1) * n) at 1 by ring.
  rewrite Z.mod_add by lia. apply Z.mod_small. lia.
Qed.

Lemma nth_app_length {A} (pre l : list A) (d : A) : nth (length pre) (pre ++ l) d = nth 0 l d.
Proof. induction pre as [|a pre IH]; [reflexivity | exact IH]. Qed.

Lemma skipn_repeat {A} (x : A) n m : skipn n (List.repeat x m) = List.repeat x (m - n).
Proof.
  revert m. induction n as [|n IH]; intros m; [rewrite Nat.sub_0_r; reflexivity |].
  destruct m; [reflexivity | cbn [List.repeat skipn]; rewrite IH; reflexivity].
Qed.

(** *** Properties *)

(** X10: an RX event whose buffer holds no [START_BYTE] consumes every
    byte, processes no packet, and only clears the outstanding packets
    (calling the pending callback, if any). *)
Theorem X10_rx_without_start_byte (s : state) :
  Forall (fun b => b <> START_BYTE) (rx_bytes s) ->
  vesc_serial_rx_event_handler s = with_rx (clear_outstanding_packets s) [].
Proof.
  intros H. unfold vesc_serial_rx_event_handler. rewrite clear_rx.
  set (s1 := clear_outstanding_packets s).
  assert (E : s1 = with_rx s1 (rx_bytes s ++ [])).
  { rewrite app_nil_r, <- (clear_rx s). symmetry. apply with_rx_eta. }
  rewrite E at 1. clear E.
  replace (S (length (rx_bytes s))) with (length (rx_bytes s) + 1)%nat by lia.
  destruct (rx_loop_skip (rx_bytes s) [] 1 0 (List.repeat 0 (Z.to_nat MAX_PACKET_LENGTH)) s1
              ltac:(discriminate) H) as (b' & Hb' & ->).
  cbn [rx_loop]. rewrite (proj2 (Z.eqb_neq _ _) Hb'), pop_with_nil. reflexivity.
Qed.

Lemma X10_witness :
  Forall (fun b => b <> START_BYTE) [85; 3; 0] /\
  vesc_serial_rx_event_handler (mkState [85; 3; 0] zero_values true 2 (Some 4%nat) [] [] 0) =
    with_rx (clear_outstanding_packets (mkState [85; 3; 0] zero_values true 2 (Some 4%nat) [] [] 0)) [].
Proof.
  assert (H : Forall (fun b => b <> START_BYTE) [85; 3; 0])
    by (repeat constructor; unfold START_BYTE; discriminate).
  exact (conj H (X10_rx_without_start_byte (mkState [85; 3; 0] zero_values true 2 (Some 4%nat) [] [] 0) H)).
Defined.

(** X11: a frame built as the VESC builds it (start byte, length, payload
    of at most [MAX_PACKET_LENGTH] bytes, CRC16 high and low bytes, end
    byte), preceded by any bytes other than [START_BYTE], is accepted by the
    RX handler: the payload (padded with the zeros the payload array
    starts with) is passed to [process_packet] with its length, after the
    outstanding packets are cleared and the whole buffer is consumed. *)
Theorem X11_frame_round_trip (s : state) (junk pl : list Z) :
  Forall (fun b => b <> START_BYTE) junk -> (length pl <= 32)%nat ->
  rx_bytes s = junk ++ vesc_frame pl ->
  vesc_serial_rx_event_handler s =
    process_packet (with_rx (clear_outstanding_packets s) [])
      (pl ++ List.repeat 0 (32 - length pl)) (Z.of_nat (length pl)).
Proof.
  intros Hj H32 Hrx. unfold vesc_serial_rx_event_handler. rewrite clear_rx, Hrx.
  set (s1 := clear_outstanding_packets s).
  assert (E : s1 = with_rx s1 (junk ++ START_BYTE :: tl (vesc_frame pl) ++ [])).
  { rewrite app_nil_r. change (START_BYTE :: tl (vesc_frame pl)) with (vesc_frame pl).
    rewrite <- Hrx, <- (clear_rx s). symmetry. apply with_rx_eta. }
  rewrite E at 1. clear E.
  replace (S (length (junk ++ vesc_frame pl))) with (length junk + S (S (length pl + 4)))%nat
    by (unfold vesc_frame; rewrite !length_app; cbn [length]; lia).
  destruct (rx_loop_skip junk (START_BYTE :: tl (vesc_frame pl) ++ []) (S (S (length pl + 4))) 0
              (List.repeat 0 (Z.to_nat MAX_PACKET_LENGTH)) s1 ltac:(discriminate) Hj)
    as (b' & Hb' & ->).
  cbn [rx_loop]. rewrite (proj2 (Z.eqb_neq _ _) Hb'), pop_with, Z.eqb_refl.
  rewrite read_frame_ok by (try rewrite repeat_length; unfold MAX_PACKET_LENGTH; cbn; lia).
  cbn [rx_loop]. change (END_BYTE =? START_BYTE) with false. cbv iota.
  unfold ring_buffer_pop at 1.
  rewrite (proj1 (process_packet_keeps _ _ _)). cbn [rx_bytes with_rx].
  rewrite skipn_repeat. reflexivity.
Qed.

Lemma X11_witness :
  (Forall (fun b => b <> START_BYTE) [85] /\ (length [51; 0] <= 32)%nat /\
   rx_bytes (mkState ([85] ++ vesc_frame [51; 0]) zero_values false 1 None [] [] 0) =
     [85] ++ vesc_frame [51; 0]) /\
  vesc_serial_rx_event_handler (mkState ([85] ++ vesc_frame [51; 0]) zero_values false 1 None [] [] 0) =
    process_packet (with_rx (clear_outstanding_packets
                      (mkState ([85] ++ vesc_frame [51; 0]) zero_values false 1 None [] [] 0)) [])
      ([51; 0] ++ List.repeat 0 (32 - length [51; 0])) (Z.of_nat (length [51; 0])).
Proof.
  assert (H1 : Forall (fun b => b <> START_BYTE) [85])
    by (repeat constructor; unfold START_BYTE; discriminate).
  assert (H2 : (length [51; 0] <= 32)%nat) by (cbn; lia).
  assert (H3 : rx_bytes (mkState ([85] ++ vesc_frame [51; 0]) zero_values false 1 None [] [] 0) =
               [85] ++ vesc_frame [51; 0]) by reflexivity.
  exact (conj (conj H1 (conj H2 H3)) (X11_frame_round_trip _ [85] [51; 0] H1 H2 H3)).
Defined.

(** X12: [buffer_get_int16], [buffer_get_uint32] and [buffer_get_int32]
    read back, at any offset in a payload, the big-endian encodings of a
    value: a 16-bit signed value, and any 32-bit signed value (read as
    unsigned: the value modulo 2^32). *)
Theorem X12_buffer_get_round_trip (pre post : list Z) (v w : Z) :
  -32768 <= v < 32768 -> -2147483648 <= w < 2147483648 ->
  buffer_get_int16 (pre ++ int16_be_bytes v ++ post) (length pre) = v /\
  buffer_get_uint32 (pre ++ int32_be_bytes w ++ post) (length pre) = w mod 4294967296 /\
  buffer_get_int32 (pre ++ int32_be_bytes w ++ post) (length pre) = w.
Proof.
  intros Hv Hw.
  assert (U32 : buffer_get_uint32 (pre ++ int32_be_bytes w ++ post) (length pre) = w mod 4294967296).
  { unfold buffer_get_uint32, byte_at.
    replace (S (length pre)) with (length pre + 1)%nat by lia.
    replace (S (length pre + 1)) with (length pre + 2)%nat by lia.
    replace (S (length pre + 2)) with (length pre + 3)%nat by lia.
    rewrite nth_app_length, !app_nth2_plus. unfold int32_be_bytes. cbn [nth app].
    set (u := w mod 4294967296).
    assert (Hu : 0 <= u < 4294967296) by (apply Z.mod_pos_bound; lia).
    assert (E1 : u / 256 / 256 = u / 65536) by (rewrite Z.div_div by lia; reflexivity).
    assert (E2 : u / 65536 / 256 = u / 16777216) by (rewrite Z.div_div by lia; reflexivity).
    pose proof (Z.div_mod u 256 ltac:(lia)).
    pose proof (Z.div_mod (u / 256) 256 ltac:(lia)) as D1. rewrite E1 in D1.
    pose proof (Z.div_mod (u / 65536) 256 ltac:(lia)) as D2. rewrite E2 in D2.
    lia. }
  split; [| split; [exact U32 |]].
  - unfold buffer_get_int16, byte_at. cbv zeta.
    replace (S (length pre)) with (length pre + 1)%nat by lia.
    rewrite nth_app_length, !app_nth2_plus. unfold int16_be_bytes. cbn [nth app].
    set (u := v mod 65536).
    pose proof (Z.div_mod u 256 ltac:(lia)).
    replace (u / 256 * 256 + u mod 256) with u by lia.
    destruct (Z.le_gt_cases 0 v).
    + assert (E : u = v) by (apply Z.mod_small; lia). rewrite E.
      rewrite (proj2 (Z.ltb_lt v 32768)) by lia. reflexivity.
    + assert (E : u = v + 65536) by (apply mod_neg'; lia). rewrite E.
      rewrite (proj2 (Z.ltb_ge (v + 65536) 32768)) by lia. ring.
  - unfold buffer_get_int32. rewrite U32.
    destruct (Z.le_gt_cases 0 w).
    + rewrite Z.mod_small by lia. rewrite (proj2 (Z.ltb_lt w 2147483648)) by lia. reflexivity.
    + rewrite mod_neg' by lia. rewrite (proj2 (Z.ltb_ge (w + 4294967296) 2147483648)) by lia. ring.
Qed.

Lemma X12_witness :
  (-32768 <= -300 < 32768 /\ -2147483648 <= -70000 < 2147483648) /\
  buffer_get_int16 ([51] ++ int16_be_bytes (-300) ++ [0]) (length [51]) = -300 /\
  buffer_get_uint32 ([51] ++ int32_be_bytes (-70000) ++ [0]) (length [51]) = -70000 mod 4294967296 /\
  buffer_get_int32 ([51] ++ int32_be_bytes (-70000) ++ [0]) (length [51]) = -70000.
Proof.
  assert (H1 : -32768 <= -300 < 32768) by lia.
  assert (H2 : -2147483648 <= -70000 < 2147483648) by lia.
  exact (conj (conj H1 H2) (X12_buffer_get_round_trip [51] [0] (-300) (-70000) H1 H2)).
Defined.

(** X13: [vesc_serial_check_busy_and_set_callback] reports [LCM_BUSY]
    exactly when the VESC is alive with packets outstanding, and then
    stores the callback, which the next RX event invokes once and clears;
    otherwise it reports [LCM_SUCCESS] and changes nothing. *)
Theorem X13_busy_callback (s : state) (cb : nat) :
  let '(st, s') := vesc_serial_check_busy_and_set_callback s cb in
  match st with
  | LCM_BUSY =>
      vesc_alive s = true /\ 0 < outstanding_packet_count s /\
      callbacks_called (vesc_serial_rx_event_handler s') = callbacks_called s ++ [cb] /\
      vesc_serial_callback (vesc_serial_rx_event_handler s') = None
  | LCM_SUCCESS => s' = s /\ (vesc_alive s = false \/ outstanding_packet_count s <= 0)
  end.
Proof.
  unfold vesc_serial_check_busy_and_set_callback.
  destruct (vesc_alive s) eqn:A; cbn [andb].
  - destruct (Z.ltb_spec 0 (outstanding_packet_count s)).
    + destruct (handler_callbacks (mkState (rx_bytes s) (comm_values s) (vesc_alive s)
                  (outstanding_packet_count s) (Some cb) (pushes s) (callbacks_called s)
                  (frames_sent s))) as [C N].
      cbn [callbacks_called vesc_serial_callback] in C. rewrite A in C, N. repeat split; assumption.
    + split; [reflexivity | right; lia].
  - split; [reflexivity | left; reflexivity].
Qed.

(** X14: when a second callback is registered while the link is still
    busy, it replaces the first: the next RX event invokes only the
    second. *)
Theorem X14_second_callback_replaces (s s1 : state) (cb1 cb2 : nat) :
  vesc_serial_check_busy_and_set_callback s cb1 = (LCM_BUSY, s1) ->
  fst (vesc_serial_check_busy_and_set_callback s1 cb2) = LCM_BUSY /\
  callbacks_called (vesc_serial_rx_event_handler (snd (vesc_serial_check_busy_and_set_callback s1 cb2)))
    = callbacks_called s ++ [cb2].
Proof.
  unfold vesc_serial_check_busy_and_set_callback at 1.
  destruct (vesc_alive s && (0 <? outstanding_packet_count s)) eqn:B; [| discriminate].
  intros E. injection E as <-.
  unfold vesc_serial_check_busy_and_set_callback. cbn [vesc_alive outstanding_packet_count].
  rewrite B. split; [reflexivity |].
  destruct (handler_callbacks (mkState (rx_bytes s) (comm_values s) (vesc_alive s)
              (outstanding_packet_count s) (Some cb2) (pushes s) (callbacks_called s)
              (frames_sent s))) as [C _].
  exact C.
Qed.

Lemma X14_witness :
  vesc_serial_check_busy_and_set_callback (mkState [] zero_values true 1 None [] [] 0) 4 =
    (LCM_BUSY, mkState [] zero_values true 1 (Some 4%nat) [] [] 0) /\
  fst (vesc_serial_check_busy_and_set_callback (mkState [] zero_values true 1 (Some 4%nat) [] [] 0) 5) = LCM_BUSY /\
  callbacks_called (vesc_serial_rx_event_handler
    (snd (vesc_serial_check_busy_and_set_callback (mkState [] zero_values true 1 (Some 4%nat) [] [] 0) 5)))
    = callbacks_called (mkState [] zero_values true 1 None [] [] 0) ++ [5%nat].
Proof.
  assert (H : vesc_serial_check_busy_and_set_callback (mkState [] zero_values true 1 None [] [] 0) 4 =
              (LCM_BUSY, mkState [] zero_values true 1 (Some 4%nat) [] [] 0)) by reflexivity.
  exact (conj H (X14_second_callback_replaces _ _ 4 5 H)).
Defined.

(** Turns the decoder's passed range checks into propositions. *)
Ltac guard_norm :=
  repeat match goal with
  | H : (_ || _) = false |- _ => apply orb_false_iff in H; destruct H
  | H : negb _ = false |- _ => apply negb_false_iff in H
  | H : (_ =? _) = true |- _ => apply Z.eqb_eq in H
  | H : (_ =? _) = false |- _ => apply Z.eqb_neq in H
  | H : (_ <? _) = false |- _ => apply Z.ltb_ge in H
  | H : Qle_bool _ _ = true |- _ => apply Qle_bool_iff in H
  end.

(** X15: processing the same telemetry response twice: the retained values
    are the same after both calls; when the response passes the length,
    mask and range checks, the second call pushes nothing (every retained
    value already equals the decoded one); when it fails one of them, the
    first call pushes a single fault and keeps the values, and the second
    call repeats that same fault. *)
Theorem X15_repeated_response_quiet (vals : values_t) (payload : list Z) (len : Z) :
  let r1 := process_comm_get_values_setup_selective vals payload len in
  let r2 := process_comm_get_values_setup_selective (snd r1) payload len in
  snd r2 = snd r1 /\
  (len = COMM_GET_VALUES_SETUP_SELECTIVE_RESPONSE_LENGTH /\
   buffer_get_uint32 payload 1 = COMM_GET_VALUES_SETUP_SELECTIVE_MASK /\
   (-100 <= buffer_get_float16_10 payload 5 <= 100)%Q /\
   -25000 <= buffer_get_int32 payload 7 <= 25000 /\
   (0 <= buffer_get_float16_10 payload 13 <= 100)%Q ->
   fst r2 = []) /\
  (~ (len = COMM_GET_VALUES_SETUP_SELECTIVE_RESPONSE_LENGTH /\
      buffer_get_uint32 payload 1 = COMM_GET_VALUES_SETUP_SELECTIVE_MASK /\
      (-100 <= buffer_get_float16_10 payload 5 <= 100)%Q /\
      -25000 <= buffer_get_int32 payload 7 <= 25000 /\
      (0 <= buffer_get_float16_10 payload 13 <= 100)%Q) ->
   exists f, fst r1 = [PushFault f] /\ fst r2 = fst r1 /\ snd r1 = vals).
Proof.
  cbv zeta. unfold process_comm_get_values_setup_selective.
  set (duty := buffer_get_float16_10 payload 5).
  set (rr := buffer_get_int32 payload 7).
  set (batt := buffer_get_float16_10 payload 13).
  destruct (negb (len =? COMM_GET_VALUES_SETUP_SELECTIVE_RESPONSE_LENGTH)) eqn:G1;
    [cbn [fst snd]; split; [reflexivity | split];
     [intros (A & _); apply negb_true_iff, Z.eqb_neq in G1; contradiction
     | intros _; eexists; split; [reflexivity | split; reflexivity]] |].
  destruct (negb (buffer_get_uint32 payload 1 =? COMM_GET_VALUES_SETUP_SELECTIVE_MASK)) eqn:G2;
    [cbn [fst snd]; split; [reflexivity | split];
     [intros (_ & A & _); apply negb_true_iff, Z.eqb_neq in G2; contradiction
     | intros _; eexists; split; [reflexivity | split; reflexivity]] |].
  destruct (negb (Qle_bool (-100) duty) || negb (Qle_bool duty 100)) eqn:G3;
    [cbn [fst snd]; split; [reflexivity | split];
     [intros (_ & _ & [A B] & _); apply orb_true_iff in G3;
      destruct G3 as [G3 | G3]; apply negb_true_iff in G3;
      [rewrite (proj2 (Qle_bool_iff _ _) A) in G3 | rewrite (proj2 (Qle_bool_iff _ _) B) in G3];
      discriminate
     | intros _; eexists; split; [reflexivity | split; reflexivity]] |].
  destruct ((rr <? -25000) || (25000 <? rr)) eqn:G4;
    [cbn [fst snd]; split; [reflexivity | split];
     [intros (_ & _ & _ & A & _); apply orb_true_iff in G4;
      destruct G4 as [G4 | G4]; apply Z.ltb_lt in G4; lia
     | intros _; eexists; split; [reflexivity | split; reflexivity]] |].
  destruct (negb (Qle_bool 0 batt) || negb (Qle_bool batt 100)) eqn:G5;
    [cbn [fst snd]; split; [reflexivity | split];
     [intros (_ & _ & _ & _ & [A B]); apply orb_true_iff in G5;
      destruct G5 as [G5 | G5]; apply negb_true_iff in G5;
      [rewrite (proj2 (Qle_bool_iff _ _) A) in G5 | rewrite (proj2 (Qle_bool_iff _ _) B) in G5];
      discriminate
     | intros _; eexists; split; [reflexivity | split; reflexivity]] |].
  assert (Acc : len = COMM_GET_VALUES_SETUP_SELECTIVE_RESPONSE_LENGTH /\
      buffer_get_uint32 payload 1 = COMM_GET_VALUES_SETUP_SELECTIVE_MASK /\
      (-100 <= duty <= 100)%Q /\ -25000 <= rr <= 25000 /\ (0 <= batt <= 100)%Q).
  { guard_norm. repeat split; assumption. }
  cbn [snd].

  repeat match goal with
         | |- context [if ?b then _ else _] => destruct b eqn:?
         end;
    cbn [fst snd duty_cycle rpm battery_level vfault app] in *;
    (split; [| split; [intros _ | intros N; exfalso; exact (N Acc)]]);
    try reflexivity;
    exfalso;
    repeat match goal with
           | H : negb (Qeq_bool ?x ?x) = true |- _ => rewrite Qeq_bool_refl in H; discriminate H
           | H : negb (?x =? ?x) = true |- _ => rewrite Z.eqb_refl in H; discriminate H
           | H : negb ?b = true, H' : ?b = true |- _ => rewrite H' in H; discriminate H
           | H : negb ?b = false, H' : negb ?b = true |- _ => rewrite H' in H; discriminate H
           end.
Qed.

(** An accepted response (duty 50.0, 1000 ERPM, battery 60.0, no fault):
    the first call from [zero_values] pushes three changes. *)
Definition X15_payload : list Z :=
  [COMM_GET_VALUES_SETUP_SELECTIVE; 0; 1; 1; 176; 1; 244; 0; 0; 3; 232; 0; 0; 2; 88; 0].

Lemma X15_witness :
  length (fst (process_comm_get_values_setup_selective zero_values X15_payload 16)) = 3%nat /\
  (let r1 := process_comm_get_values_setup_selective zero_values X15_payload 16 in
   let r2 := process_comm_get_values_setup_selective (snd r1) X15_payload 16 in
   snd r2 = snd r1 /\
   (16 = COMM_GET_VALUES_SETUP_SELECTIVE_RESPONSE_LENGTH /\
    buffer_get_uint32 X15_payload 1 = COMM_GET_VALUES_SETUP_SELECTIVE_MASK /\
    (-100 <= buffer_get_float16_10 X15_payload 5 <= 100)%Q /\
    -25000 <= buffer_get_int32 X15_payload 7 <= 25000 /\
    (0 <= buffer_get_float16_10 X15_payload 13 <= 100)%Q ->
    fst r2 = []) /\
   (~ (16 = COMM_GET_VALUES_SETUP_SELECTIVE_RESPONSE_LENGTH /\
       buffer_get_uint32 X15_payload 1 = COMM_GET_VALUES_SETUP_SELECTIVE_MASK /\
       (-100 <= buffer_get_float16_10 X15_payload 5 <= 100)%Q /\
       -25000 <= buffer_get_int32 X15_payload 7 <= 25000 /\
       (0 <= buffer_get_float16_10 X15_payload 13 <= 100)%Q) ->
    exists f, fst r1 = [PushFault f] /\ fst r2 = fst r1 /\ snd r1 = zero_values)).
Proof.
  split; [vm_compute; reflexivity |].
  exact (X15_repeated_response_quiet zero_values X15_payload 16).
Defined.

End VescSerialExtra.

(** ** The timer pool: ids, cancel, re-arm, periods *)
Module TimerExtra.
Import Timer TimerMore TimerProofs.

(** *** Lemmas on the slot search and the id invariant *)

Lemma find_slot_spec (p : timer_t -> bool) l k j :
  find_slot p l k = Some j ->
  (k <= j)%nat /\ (j - k < length l)%nat /\ p (nth (j - k) l zero_timer) = true.
Proof.
  revert k. induction l as [|t l IH]; intros k H; [discriminate |].
  cbn in H. destruct (p t) eqn:E.
  - injection H as <-. rewrite Nat.sub_diag. cbn. split; [lia | split; [lia | exact E]].
  - destruct (IH (S k) H) as (A & B & C).
    replace (j - k)%nat with (S (j - S k)) by lia. cbn [length nth].
    split; [lia | split; [lia | exact C]].
Qed.

Lemma find_slot_exists (p : timer_t -> bool) l k i :
  (i < length l)%nat -> p (nth i l zero_timer) = true ->
  exists j, find_slot p l k = Some j.
Proof.
  revert k i. induction l as [|t l IH]; intros k i Hi Hp; [cbn in Hi; lia |].
  cbn. destruct (p t) eqn:E; [eexists; reflexivity |].
  destruct i as [|i]; [cbn in Hp; congruence |].
  apply (IH (S k) i); cbn in Hi, Hp; [lia | exact Hp].
Qed.

Lemma find_slot_first (p : timer_t -> bool) l j :
  find_slot p l 0 = Some j -> forall k, (k < j)%nat -> p (nth k l zero_timer) = false.
Proof.
  assert (G : forall l m j, find_slot p l m = Some j ->
            forall k, (m <= k < j)%nat -> p (nth (k - m) l zero_timer) = false).
  { induction l0 as [|t l0 IH]; intros m j0 H k Hk; [discriminate |].
    cbn in H. destruct (p t) eqn:E; [injection H as <-; lia |].
    destruct (Nat.eq_dec k m) as [-> | Hne].
    - rewrite Nat.sub_diag. exact E.
    - replace (k - m)%nat with (S (k - S m)) by lia. cbn [nth].
      apply (IH (S m) j0 H). lia. }
  intros H k Hk. rewrite <- (Nat.sub_0_r k). apply (G l 0%nat j H). lia.
Qed.

Lemma id_nth l j : id (nth j l zero_timer) = nth j (map id l) 0.
Proof. symmetry. exact (map_nth id l zero_timer j). Qed.

(** [pool_ok] depends only on the slots' ids and the id counter. *)
Lemma pool_ok_ids s s' :
  pool_ok s -> map id (timers s') = map id (timers s) ->
  0 <= next_timer_id s' < UINT8_MOD -> pool_ok s'.
Proof.
  intros (Hl & _ & Hu) Hm Hn.
  assert (Hl' : length (timers s') = length (timers s))
    by (rewrite <- (length_map id (timers s')), <- (length_map id (timers s)), Hm; reflexivity).
  split; [congruence | split; [exact Hn |]].
  intros j k Hj Hk Hne. rewrite !id_nth, Hm, <- !id_nth.
  apply Hu; lia.
Qed.

(** [find_timer_by_id] on a nonzero id held by slot [i] finds slot [i]. *)
Lemma find_by_id_unique s tid i :
  pool_ok s -> tid <> INVALID_TIMER_ID -> (i < length (timers s))%nat ->
  id (nth i (timers s) zero_timer) = tid -> find_timer_by_id s tid = Some i.
Proof.
  intros (Hl & _ & Hu) Hz Hi Hid. unfold find_timer_by_id.
  destruct (find_slot_exists (fun t => id t =? tid) (timers s) 0 i Hi)
    as [j Hj]; [apply Z.eqb_eq; exact Hid |].
  rewrite Hj. destruct (find_slot_spec _ _ _ _ Hj) as (_ & Hjl & Hp).
  rewrite Nat.sub_0_r in Hjl, Hp. apply Z.eqb_eq in Hp.
  destruct (Nat.eq_dec j i) as [-> | Hne]; [reflexivity |].
  exfalso. apply Hz. unfold INVALID_TIMER_ID. rewrite <- Hp.
  apply (Hu j i); [exact Hjl | exact Hi | exact Hne | congruence].
Qed.

Lemma mod256_inj n a b :
  (a < 256)%nat -> (b < 256)%nat ->
  (n + Z.of_nat a) mod 256 = (n + Z.of_nat b) mod 256 -> a = b.
Proof.
  intros Ha Hb E.
  pose proof (Z.div_mod (n + Z.of_nat a) 256 ltac:(lia)).
  pose proof (Z.div_mod (n + Z.of_nat b) 256 ltac:(lia)).
  lia.
Qed.

(** The id search loop either stops on an id no slot holds, or has found
    every id it tried. *)
Lemma next_id_loop_spec s fuel : forall n,
  0 <= n < UINT8_MOD ->
  0 <= next_id_loop fuel s n < UINT8_MOD /\
  (find_timer_by_id s (next_id_loop fuel s n) = None \/
   forall k, (k < fuel)%nat -> find_timer_by_id s ((n + Z.of_nat k) mod UINT8_MOD) <> None).
Proof.
  unfold UINT8_MOD. induction fuel as [|f IH]; intros n Hn.
  - cbn. split; [exact Hn | right; intros k Hk; lia].
  - cbn [next_id_loop]. destruct (find_timer_by_id s n) eqn:E.
    + destruct (IH ((n + 1) mod 256)) as [Hr [Hl | Hall]];
        [apply Z.mod_pos_bound; lia | | ].
      * split; [exact Hr | left; exact Hl].
      * split; [exact Hr | right]. intros [|k] Hk.
        -- rewrite Z.add_0_r, Z.mod_small by lia. rewrite E. discriminate.
        -- specialize (Hall k ltac:(lia)).
           rewrite Zplus_mod_idemp_l in Hall.
           replace (n + Z.of_nat (S k)) with (n + 1 + Z.of_nat k) by lia. exact Hall.
    + split; [exact Hn | left; exact E].
Qed.

(** At most [MAX_TIMERS] ids are held, so the loop of
    [find_next_timer_id] stops on a free id. *)
Lemma find_next_timer_id_free s :
  pool_ok s ->
  0 <= fst (find_next_timer_id s) < UINT8_MOD /\
  find_timer_by_id s (fst (find_next_timer_id s)) = None.
Proof.
  intros Hok. pose proof Hok as (Hl & Hn & _).
  unfold find_next_timer_id. cbn [fst].
  destruct (next_id_loop_spec s (Z.to_nat UINT8_MOD) (next_timer_id s) Hn) as [Hr [Hf | Hall]];
    [split; assumption | exfalso].
  set (vals := map (fun k => (next_timer_id s + Z.of_nat k) mod UINT8_MOD) (seq 0 (Z.to_nat UINT8_MOD))).
  assert (Hnd : NoDup vals).
  { apply NoDup_map_NoDup_ForallPairs; [| apply seq_NoDup].
    intros a b Ha Hb. apply in_seq in Ha, Hb. unfold UINT8_MOD in *.
    apply mod256_inj; lia. }
  assert (Hin : incl vals (map id (timers s))).
  { intros v Hv. unfold vals in Hv. apply in_map_iff in Hv as [k [<- Hk]].
    apply in_seq in Hk. specialize (Hall k ltac:(lia)).
    unfold find_timer_by_id in Hall.
    destruct (find_slot _ _ _) as [j|] eqn:Ej; [| contradiction].
    destruct (find_slot_spec _ _ _ _ Ej) as (_ & Hj & Hp).
    rewrite Nat.sub_0_r in Hj, Hp. apply Z.eqb_eq in Hp.
    rewrite <- Hp, id_nth. apply nth_In. rewrite length_map. exact Hj. }
  pose proof (NoDup_incl_length Hnd Hin) as Hlen.
  unfold vals in Hlen. rewrite length_map, length_seq, length_map, Hl in Hlen.
  assert (E1 : Z.to_nat UINT8_MOD = 256%nat) by reflexivity.
  assert (E2 : Z.to_nat MAX_TIMERS = 8%nat) by reflexivity.
  rewrite E1, E2 in Hlen. clear - Hlen. apply Nat.leb_le in Hlen. discriminate Hlen.
Qed.

Lemma map_id_update_slot s i f :
  (forall t, id (f t) = id t) ->
  map id (timers (update_slot s i f)) = map id (timers s).
Proof.
  intros Hf. unfold update_slot. cbn [timers].
  generalize (timers s) i. clear s i.
  induction l as [|t l IH]; intros [|i]; cbn; [reflexivity | reflexivity | rewrite Hf; reflexivity |].
  rewrite IH. reflexivity.
Qed.

Lemma map_id_tick_slots l : map id (snd (tick_slots l)) = map id l.
Proof.
  rewrite tick_slots_snd, map_map. apply map_ext. intros t.
  unfold tick_slot. destruct (callback t); [destruct (_ =? 0); [destruct (repeat t) |] |]; reflexivity.
Qed.

Lemma find_next_timer_id_pair s :
  find_next_timer_id s = (fst (find_next_timer_id s), mkState (fst (find_next_timer_id s)) (timers s)).
Proof. reflexivity. Qed.

Lemma pool_ok_set_timer s tmo cb rep : pool_ok s -> pool_ok (snd (fst (set_timer s tmo cb rep))).
Proof.
  intros Hok. pose proof Hok as (Hl & Hn & Hu).
  unfold set_timer.
  destruct (find_timer_id_by_callback s (Some cb) =? INVALID_TIMER_ID).
  - destruct (find_available_timer s) as [i|] eqn:Ea; [| exact Hok].
    set (s1 := update_slot s i (fun t => mkTimer tmo tmo (Some cb) rep (id t))).
    assert (Hok1 : pool_ok s1) by (apply (pool_ok_ids s); [exact Hok | apply map_id_update_slot; reflexivity | exact Hn]).
    destruct (find_next_timer_id_free s1 Hok1) as [Hr Hfree].
    rewrite (find_next_timer_id_pair s1).
    set (nid := fst (find_next_timer_id s1)) in *. cbn [fst snd].
    destruct (find_slot_spec _ _ _ _ Ea) as (_ & Hi & _). rewrite Nat.sub_0_r in Hi.
    pose proof Hok1 as (Hl1 & _ & Hu1).
    assert (Hnone : forall j, (j < length (timers s1))%nat -> id (nth j (timers s1) zero_timer) <> nid).
    { intros j Hj E. destruct (find_slot_exists (fun t => id t =? nid) (timers s1) 0 j Hj)
        as [k Hk]; [apply Z.eqb_eq; exact E |].
      unfold find_timer_by_id in Hfree. congruence. }
    unfold update_slot. cbn [timers next_timer_id].
    assert (Hil : (i < length (timers s1))%nat) by (rewrite Hl1, <- Hl; exact Hi).
    unfold pool_ok; cbn [timers next_timer_id].
    split; [rewrite length_list_set; exact Hl1 | split; [exact Hr |]].
    intros j k Hj Hk Hne. rewrite length_list_set in Hj, Hk.
    rewrite !nth_list_set by assumption.
    destruct (Nat.eqb_spec j i) as [-> | Hji]; destruct (Nat.eqb_spec k i) as [-> | Hki];
      cbn [id]; intros E.
    + contradiction.
    + exfalso. apply (Hnone k Hk). congruence.
    + exfalso. apply (Hnone j Hj). exact E.
    + apply (Hu1 j k); assumption.
  - destruct (find_timer_by_id s _) as [i|]; [| exact Hok].
    apply (pool_ok_ids s); [exact Hok | apply map_id_update_slot; reflexivity | exact Hn].
Qed.

Lemma pool_ok_cancel s tid : pool_ok s -> pool_ok (snd (cancel_timer s tid)).
Proof.
  intros Hok. pose proof Hok as (_ & Hn & _). unfold cancel_timer.
  destruct (negb _); [| exact Hok].
  destruct (find_timer_by_id s tid); [| exact Hok].
  apply (pool_ok_ids s); [exact Hok | apply map_id_update_slot; reflexivity | exact Hn].
Qed.

Lemma pool_ok_tick s : pool_ok s -> pool_ok (snd (timer_system_tick s)).
Proof.
  intros Hok. pose proof Hok as (_ & Hn & _). rewrite timer_system_tick_eq.
  apply (pool_ok_ids s); [exact Hok | apply map_id_tick_slots | exact Hn].
Qed.

Lemma pool_ok_run_ops os : forall s, pool_ok s -> pool_ok (run_ops s os).
Proof.
  induction os as [|o os IH]; intros s Hok; [exact Hok |].
  cbn [run_ops fold_left]. apply IH.
  destruct o; cbn [run_op];
    [apply pool_ok_set_timer | apply pool_ok_cancel | apply pool_ok_tick]; exact Hok.
Qed.

Lemma pool_ok_init : pool_ok timer_init.
Proof.
  split; [reflexivity | split; [unfold FIRST_TIMER_ID, INVALID_TIMER_ID, UINT8_MOD; cbn; lia |]].
  intros j k Hj Hk _ _. cbn [timers timer_init].
  rewrite nth_repeat. reflexivity.
Qed.

Lemma pool_ok_reachable os : pool_ok (run_ops timer_init os).
Proof. apply pool_ok_run_ops, pool_ok_init. Qed.

(** *** Lemmas on ticks *)

Lemma count_tick_other t cb :
  callback t <> Some cb -> count_occ Nat.eq_dec (fst (tick_slot t)) cb = 0%nat.
Proof.
  intros H. apply (count_occ_not_In Nat.eq_dec). intros Hin.
  exact (H (tick_slot_fired t cb Hin)).
Qed.

Lemma count_flat_none cb l :
  (forall t, In t l -> callback t <> Some cb) ->
  count_occ Nat.eq_dec (flat_map (fun t => fst (tick_slot t)) l) cb = 0%nat.
Proof.
  intros H. apply (count_occ_not_In Nat.eq_dec). intros Hin.
  apply in_flat_map in Hin as [t [Ht Hf]].
  exact (H t Ht (tick_slot_fired t cb Hf)).
Qed.

(** When only slot [i] may hold [cb], only slot [i] can fire it. *)
Lemma count_ticks_single i cb l :
  (i < length l)%nat -> (forall j, j <> i -> callback (nth j l zero_timer) <> Some cb) ->
  count_occ Nat.eq_dec (fst (tick_slots l)) cb =
  count_occ Nat.eq_dec (fst (tick_slot (nth i l zero_timer))) cb.
Proof.
  rewrite tick_slots_fst. revert i.
  induction l as [|t l IH]; intros i Hi Ho; [cbn in Hi; lia |].
  cbn [flat_map]. rewrite count_occ_app.
  destruct i as [|i].
  - rewrite count_flat_none; [cbn [nth]; lia |].
    intros t' Ht'. apply In_nth with (d := zero_timer) in Ht' as [j [_ <-]].
    exact (Ho (S j) ltac:(lia)).
  - rewrite count_tick_other by exact (Ho 0%nat ltac:(lia)).
    cbn [nth Nat.add]. apply IH; [cbn in Hi; lia |].
    intros j Hj. exact (Ho (S j) ltac:(lia)).
Qed.

Lemma no_holder_tick cb l :
  (forall j, callback (nth j l zero_timer) <> Some cb) ->
  forall j, callback (nth j (snd (tick_slots l)) zero_timer) <> Some cb.
Proof.
  intros H j. rewrite tick_slots_snd, nth_tick_slots.
  destruct (tick_slot_callback (nth j l zero_timer)) as [E | E]; rewrite E;
    [apply H | discriminate].
Qed.

(** A callback no slot holds never fires. *)
Lemma ticks_no_holder cb n : forall s,
  (forall j, callback (nth j (timers s) zero_timer) <> Some cb) ->
  count_occ Nat.eq_dec (fst (ticks n s)) cb = 0%nat.
Proof.
  induction n as [|n IH]; intros s H; [reflexivity |].
  rewrite ticks_S. cbn [fst]. rewrite count_occ_app, tick_slots_fst.
  rewrite count_flat_none.
  - rewrite IH; [reflexivity |]. cbn [timers]. apply no_holder_tick, H.
  - intros t Ht. apply In_nth with (d := zero_timer) in Ht as [j [_ <-]]. apply H.
Qed.

(** A tick on a live slot whose counter is in [1, 2^32]. *)
Lemma tick_slot_live t cb :
  callback t = Some cb -> 1 <= counter t <= UINT32_MOD ->
  tick_slot t =
  if counter t =? 1
  then ([cb], if repeat t then mkTimer (timeout t) (timeout t) (Some cb) true (id t)
              else mkTimer (timeout t) 0 None false (id t))
  else ([], mkTimer (timeout t) (counter t - 1) (Some cb) (repeat t) (id t)).
Proof.
  intros Hc Hr. unfold tick_slot. rewrite Hc, Z.mod_small by (unfold UINT32_MOD in *; lia).
  destruct (Z.eqb_spec (counter t) 1) as [E | E].
  - rewrite E. reflexivity.
  - replace (counter t - 1 =? 0) with false by (symmetry; apply Z.eqb_neq; lia).
    reflexivity.
Qed.

Lemma tick_live i cb T c rep l :
  live_slot i cb T c rep l -> 1 <= c < UINT32_MOD ->
  count_occ Nat.eq_dec (fst (tick_slots l)) cb = (if c =? 1 then 1%nat else 0%nat) /\
  (c <> 1 -> live_slot i cb T (c - 1) rep (snd (tick_slots l))) /\
  (c = 1 -> if rep then live_slot i cb T T rep (snd (tick_slots l))
            else forall j, callback (nth j (snd (tick_slots l)) zero_timer) <> Some cb).
Proof.
  intros (Hi & Hcb & HT & Hc & Hrep & Ho) Hr.
  pose proof (tick_slot_live (nth i l zero_timer) cb Hcb ltac:(lia)) as Ht.
  rewrite Hc, HT, Hrep in Ht.
  assert (Hother : forall j, j <> i -> callback (nth j (snd (tick_slots l)) zero_timer) <> Some cb).
  { intros j Hj. rewrite tick_slots_snd, nth_tick_slots.
    destruct (tick_slot_callback (nth j l zero_timer)) as [E | E]; rewrite E;
      [exact (Ho j Hj) | discriminate]. }
  assert (Hn : nth i (snd (tick_slots l)) zero_timer = snd (tick_slot (nth i l zero_timer)))
    by (rewrite tick_slots_snd; apply nth_tick_slots).
  assert (Hlen : length (snd (tick_slots l)) = length l)
    by (rewrite tick_slots_snd; apply length_map).
  rewrite (count_ticks_single i cb l Hi Ho), Ht.
  unfold live_slot. rewrite Hlen, Hn, Ht.
  destruct (Z.eqb_spec c 1) as [E | E]; cbn [fst snd].
  - split; [cbn; destruct (Nat.eq_dec cb cb); [reflexivity | contradiction] |].
    split; [intros; contradiction |]. intros _.
    destruct rep; cbn [callback timeout counter repeat].
    + repeat split; [exact Hi | exact Hother].
    + intros j. destruct (Nat.eq_dec j i) as [-> | Hj]; [rewrite Hn, Ht; discriminate |].
      exact (Hother j Hj).
  - split; [reflexivity |]. split; [| intros; contradiction]. intros _.
    cbn [callback timeout counter repeat]. repeat split; [exact Hi | exact Hother].
Qed.

(** A repeating slot with counter [c] in [1, T] fires [(n + T - c) / T]
    times in [n] ticks. *)
Lemma ticks_periodic i cb T n : forall s c,
  live_slot i cb T c true (timers s) -> 1 <= c <= T -> T < UINT32_MOD ->
  Z.of_nat (count_occ Nat.eq_dec (fst (ticks n s)) cb) = (Z.of_nat n + T - c) / T.
Proof.
  induction n as [|n IH]; intros s c Hl Hc HT.
  - cbn [ticks fst count_occ Z.of_nat]. symmetry. apply Z.div_small. lia.
  - rewrite ticks_S. cbn [fst]. rewrite count_occ_app, Nat2Z.inj_add.
    destruct (tick_live i cb T c true (timers s) Hl ltac:(lia)) as (Hn & Hd & Hf).
    rewrite Hn. destruct (Z.eqb_spec c 1) as [E | E].
    + rewrite (IH (mkState (next_timer_id s) (snd (tick_slots (timers s)))) T (Hf E)) by lia.
      subst c. rewrite (Nat2Z.inj_succ n).
      replace (Z.succ (Z.of_nat n) + T - 1) with (Z.of_nat n + 1 * T) by lia.
      replace (Z.of_nat n + T - T) with (Z.of_nat n) by lia.
      rewrite Z.div_add by lia. cbn [Z.of_nat]. apply Z.add_comm.
    + rewrite (IH (mkState (next_timer_id s) (snd (tick_slots (timers s)))) (c - 1) (Hd E)) by lia.
      rewrite (Nat2Z.inj_succ n).
      replace (Z.of_nat n + T - (c - 1)) with (Z.succ (Z.of_nat n) + T - c) by lia.
      reflexivity.
Qed.

(** A one-shot slot with counter [c] in [1, 2^32) fires once, on tick [c]. *)
Lemma ticks_oneshot i cb T n : forall s c,
  live_slot i cb T c false (timers s) -> 1 <= c < UINT32_MOD ->
  count_occ Nat.eq_dec (fst (ticks n s)) cb = (if Z.of_nat n <? c then 0%nat else 1%nat).
Proof.
  induction n as [|n IH]; intros s c Hl Hc.
  - cbn [ticks fst count_occ Z.of_nat]. replace (0 <? c) with true by (symmetry; apply Z.ltb_lt; lia).
    reflexivity.
  - rewrite ticks_S. cbn [fst]. rewrite count_occ_app.
    destruct (tick_live i cb T c false (timers s) Hl Hc) as (Hn & Hd & Hf).
    rewrite Hn. destruct (Z.eqb_spec c 1) as [E | E].
    + rewrite ticks_no_holder by exact (Hf E).
      replace (Z.of_nat (S n) <? c) with false by (symmetry; apply Z.ltb_ge; lia).
      reflexivity.
    + rewrite (IH (mkState (next_timer_id s) (snd (tick_slots (timers s)))) (c - 1) (Hd E)) by lia.
      replace (Z.of_nat (S n) <? c) with (Z.of_nat n <? c - 1)
        by (destruct (Z.ltb_spec (Z.of_nat (S n)) c), (Z.ltb_spec (Z.of_nat n) (c - 1)); lia).
      reflexivity.
Qed.

(** The slots [set_timer] leaves alone keep not holding [cb]. *)
Lemma fresh_others s s1 cb i :
  forallb (fun t => negb (holds cb t)) (timers s) = true ->
  (forall j, j <> i -> nth j (timers s1) zero_timer = nth j (timers s) zero_timer) ->
  forall j, j <> i -> callback (nth j (timers s1) zero_timer) <> Some cb.
Proof.
  intros Hno Ho j Hne. rewrite (Ho j Hne).
  destruct (Nat.lt_ge_cases j (length (timers s))) as [Hj | Hj].
  - rewrite forallb_forall in Hno.
    specialize (Hno _ (nth_In _ zero_timer Hj)).
    intro E. unfold holds in Hno. rewrite E in Hno. cbn in Hno.
    rewrite Nat.eqb_refl in Hno. discriminate.
  - rewrite nth_overflow by exact Hj. discriminate.
Qed.

Lemma set_timer_live s T cb rep i :
  find_available_timer s = Some i ->
  forallb (fun t => negb (holds cb t)) (timers s) = true ->
  let '(tid, s1, flt) := set_timer s T cb rep in
  flt = false /\ live_slot i cb T T rep (timers s1).
Proof.
  intros Hav Hno.
  pose proof (set_timer_fresh s T cb rep i Hav Hno) as F.
  destruct (set_timer s T cb rep) as [[tid s1] flt].
  destruct F as [Hf [Hi [Hslot Ho]]].
  split; [exact Hf |]. unfold live_slot. rewrite Hslot. cbn [callback timeout counter repeat].
  repeat split; [exact Hi |]. exact (fresh_others s s1 cb i Hno Ho).
Qed.

(** *** Lemmas on re-arming and queries *)

Lemma cb_eqb_some x cb : cb_eqb x (Some cb) = true -> x = Some cb.
Proof.
  destruct x as [c|]; cbn; [intros H; apply Nat.eqb_eq in H; subst; reflexivity | discriminate].
Qed.

Lemma length_filter_list_set {A} (f : A -> bool) l i x d :
  (i < length l)%nat -> f x = f (nth i l d) ->
  length (filter f (list_set l i x)) = length (filter f l).
Proof.
  revert i; induction l as [|y l IH]; intros [|i] Hi Hf; cbn in Hi; try lia.
  - cbn in Hf |- *. rewrite Hf. destruct (f y); reflexivity.
  - cbn in Hf |- *. destruct (f y); cbn; [f_equal |]; apply IH; first [lia | exact Hf].
Qed.

(** [set_timer] on a fresh callback in a pool satisfying [pool_ok]: the
    armed slot, the other slots, and where [find_timer_by_id] finds the
    returned id. *)
Lemma set_timer_fresh_found s tmo cb rep i :
  pool_ok s -> find_available_timer s = Some i ->
  forallb (fun t => negb (holds cb t)) (timers s) = true ->
  let '(tid, s1, flt) := set_timer s tmo cb rep in
  flt = false /\ pool_ok s1 /\ (i < length (timers s1))%nat /\
  nth i (timers s1) zero_timer = mkTimer tmo tmo (Some cb) rep tid /\
  (forall j, j <> i -> callback (nth j (timers s1) zero_timer) <> Some cb) /\
  (tid <> INVALID_TIMER_ID -> find_timer_by_id s1 tid = Some i).
Proof.
  intros Hok Hav Hno.
  pose proof (pool_ok_set_timer s tmo cb rep Hok) as Hok1.
  pose proof (set_timer_fresh s tmo cb rep i Hav Hno) as F.
  destruct (set_timer s tmo cb rep) as [[tid s1] flt]. cbn [fst snd] in Hok1.
  destruct F as [Hf [Hi [Hslot Ho]]].
  split; [exact Hf | split; [exact Hok1 | split; [exact Hi | split; [exact Hslot | split]]]].
  - exact (fresh_others s s1 cb i Hno Ho).
  - intros Hz. apply find_by_id_unique; [exact Hok1 | exact Hz | exact Hi | rewrite Hslot; reflexivity].
Qed.

(** Cancelling the id found in slot [i] clears that slot's callback only. *)
Lemma cancel_timer_found s tid i :
  find_timer_by_id s tid = Some i -> tid <> INVALID_TIMER_ID ->
  (i < length (timers s))%nat ->
  forall j, nth j (timers (snd (cancel_timer s tid))) zero_timer =
    if Nat.eqb j i then
      mkTimer (timeout (nth i (timers s) zero_timer)) (counter (nth i (timers s) zero_timer))
        None (repeat (nth i (timers s) zero_timer)) (id (nth i (timers s) zero_timer))
    else nth j (timers s) zero_timer.
Proof.
  intros Hf Hz Hi j. unfold cancel_timer.
  replace (tid =? INVALID_TIMER_ID) with false by (symmetry; apply Z.eqb_neq; exact Hz).
  cbn [negb]. rewrite Hf. unfold update_slot. cbn [snd timers].
  apply nth_list_set. exact Hi.
Qed.

End TimerExtra.

(** ** The tick handler with the callbacks' effects *)
Module TimerTickCbProofs.
Import Timer TimerMore TimerProofs TimerExtra TimerTickCb.

Lemma list_set_mid {A} (l1 l2 : list A) (x y : A) k :
  length l1 = k -> list_set (l1 ++ x :: l2) k y = l1 ++ y :: l2.
Proof.
  intros <-. induction l1 as [|a l1 IH]; [reflexivity |]. cbn. rewrite IH. reflexivity.
Qed.

Lemma nth_mid {A} (l1 l2 : list A) (x d : A) k :
  length l1 = k -> nth k (l1 ++ x :: l2) d = x.
Proof. intros <-. induction l1 as [|a l1 IH]; [reflexivity | exact IH]. Qed.

Lemma skipn_nth_cons {A} (l : list A) (d : A) k :
  (k < length l)%nat -> skipn k l = nth k l d :: skipn (S k) l.
Proof.
  revert k. induction l as [|a l IH]; intros k Hk; [cbn in Hk; lia |].
  destruct k; [reflexivity |]. cbn. apply IH. cbn in Hk. lia.
Qed.

Lemma firstn_S_nth {A} (l : list A) (d : A) k :
  (k < length l)%nat -> firstn (S k) l = firstn k l ++ [nth k l d].
Proof.
  revert k. induction l as [|a l IH]; intros k Hk; [cbn in Hk; lia |].
  destruct k; [reflexivity |].
  change (firstn (S (S k)) (a :: l)) with (a :: firstn (S k) l).
  change (firstn (S k) (a :: l)) with (a :: firstn k l).
  change (nth (S k) (a :: l) d) with (nth k l d).
  rewrite (IH k) by (cbn in Hk; lia). reflexivity.
Qed.

Lemma tick_prefix run_cb st nid l k :
  (forall c t p, run_cb c t p = p) -> (k <= length l)%nat ->
  fold_left (tick_index run_cb st) (seq 0 k) ([], mkState nid l) =
  (flat_map (fun t => fst (tick_slot t)) (firstn k l),
   mkState nid (map (fun t => snd (tick_slot t)) (firstn k l) ++ skipn k l)).
Proof.
  intros Hobs. induction k as [|k IH]; intros Hk; [reflexivity |].
  rewrite seq_S, fold_left_app, IH by lia. cbn [fold_left Nat.add].
  assert (Hlen : length (map (fun t => snd (tick_slot t)) (firstn k l)) = k)
    by (rewrite length_map, length_firstn; lia).
  rewrite (skipn_nth_cons l zero_timer k) by lia.
  rewrite (firstn_S_nth l zero_timer k) by lia.
  rewrite flat_map_app, map_app. cbn [flat_map map app]. rewrite app_nil_r.
  set (M := map (fun t => snd (tick_slot t)) (firstn k l)) in *.
  set (F := flat_map (fun t => fst (tick_slot t)) (firstn k l)).
  unfold tick_index. cbn [timers next_timer_id].
  rewrite (nth_mid _ _ _ _ _ Hlen).
  set (t := nth k l zero_timer). destruct t as [tmo cnt cb rep tid] eqn:Et.
  unfold tick_slot. cbn [callback counter timeout repeat id].
  destruct cb as [c |].
  - unfold update_slot. cbn [timers next_timer_id].
    rewrite (nth_mid _ _ _ _ _ Hlen), (list_set_mid _ _ _ _ _ Hlen).
    cbn [timeout counter callback repeat id].
    destruct ((cnt - 1) mod UINT32_MOD =? 0) eqn:E.
    + pose proof E as E'. apply Z.eqb_eq in E'.
      rewrite Hobs. cbn [timers next_timer_id].
      rewrite (nth_mid _ _ _ _ _ Hlen). cbn [timeout counter callback repeat id].
      rewrite E.
      destruct rep; cbv beta iota; cbn [timers next_timer_id];
        rewrite (list_set_mid _ _ _ _ _ Hlen), <- app_assoc, ?E'; reflexivity.
    + cbn [fst snd]. rewrite app_nil_r, <- app_assoc. reflexivity.
  - cbn [fst snd]. rewrite app_nil_r, <- app_assoc. reflexivity.
Qed.

(** When every callback leaves the pool as it is, the tick handler is the
    observer tick [timer_system_tick]. *)
Lemma tick_cb_observer run_cb st s :
  (forall c t p, run_cb c t p = p) -> length (timers s) = Z.to_nat MAX_TIMERS ->
  timer_system_tick_cb run_cb st s = timer_system_tick s.
Proof.
  intros Hobs Hl. destruct s as [nid l]. cbn [timers] in Hl.
  unfold timer_system_tick_cb. rewrite <- Hl.
  rewrite tick_prefix by (exact Hobs || lia).
  rewrite firstn_all, skipn_all, app_nil_r.
  rewrite timer_system_tick_eq, tick_slots_fst, tick_slots_snd. reflexivity.
Qed.

Lemma ticks_cb_observer run_cb n : forall st s,
  (forall c t p, run_cb c t p = p) -> length (timers s) = Z.to_nat MAX_TIMERS ->
  ticks_cb run_cb n st s = ticks n s.
Proof.
  induction n as [|n IH]; intros st s Hobs Hl; [reflexivity |].
  cbn [ticks_cb ticks]. rewrite tick_cb_observer by assumption.
  destruct (timer_system_tick s) as [f1 s1] eqn:E.
  rewrite IH; [reflexivity | exact Hobs |].
  replace s1 with (snd (timer_system_tick s)) by (rewrite E; reflexivity).
  rewrite timer_system_tick_eq. cbn [snd timers]. rewrite tick_slots_snd, length_map. exact Hl.
Qed.

End TimerTickCbProofs.

(** ** The timer pool: extra properties *)
Module TimerPoolExtra.
Import Timer TimerMore TimerProofs TimerExtra TimerTickCb TimerTickCbProofs.

(** X16: whatever sequence of [set_timer], [cancel_timer] and system ticks
    runs from [timer_init], the pool keeps its [MAX_TIMERS] slots,
    [next_timer_id] stays in [0, 256) and no two slots share a nonzero
    id. *)
Theorem X16_pool_invariant (os : list op) : pool_ok (run_ops timer_init os).
Proof. apply pool_ok_run_ops, pool_ok_init. Qed.

(** X17: in a pool satisfying [pool_ok], cancelling the nonzero id held by
    slot [i] succeeds, clears only that slot's callback (timeout, counter,
    repeat flag and id stay), leaves the other slots alone and keeps
    [pool_ok]; afterwards the id is reported inactive. *)
Theorem X17_cancel_timer_by_id (s : state) (tid : Z) (i : nat) :
  pool_ok s -> tid <> INVALID_TIMER_ID -> (i < length (timers s))%nat ->
  id (nth i (timers s) zero_timer) = tid ->
  let t := nth i (timers s) zero_timer in
  let '(ok, s') := cancel_timer s tid in
  ok = true /\ is_timer_active s' tid = false /\
  nth i (timers s') zero_timer = mkTimer (timeout t) (counter t) None (repeat t) tid /\
  (forall j, j <> i -> nth j (timers s') zero_timer = nth j (timers s) zero_timer) /\
  pool_ok s'.
Proof.
  intros Hok Hz Hi Hid.
  pose proof (find_by_id_unique s tid i Hok Hz Hi Hid) as Hf.
  cbv zeta. unfold cancel_timer.
  replace (tid =? INVALID_TIMER_ID) with false by (symmetry; apply Z.eqb_neq; exact Hz).
  cbn [negb]. rewrite Hf.
  set (s' := update_slot s i (fun t => mkTimer t.(timeout) t.(counter) None t.(repeat) t.(id))).
  assert (Hn : forall j, nth j (timers s') zero_timer =
    if Nat.eqb j i then mkTimer (timeout (nth i (timers s) zero_timer))
      (counter (nth i (timers s) zero_timer)) None (repeat (nth i (timers s) zero_timer))
      (id (nth i (timers s) zero_timer))
    else nth j (timers s) zero_timer).
  { intros j. unfold s', update_slot. cbn [timers]. apply nth_list_set. exact Hi. }
  assert (Hok' : pool_ok s').
  { apply (pool_ok_ids s); [exact Hok | apply map_id_update_slot; reflexivity |].
    exact (proj1 (proj2 Hok)). }
  assert (Hl' : length (timers s') = length (timers s))
    by (unfold s', update_slot; cbn [timers]; apply length_list_set).
  assert (Hni : nth i (timers s') zero_timer =
    mkTimer (timeout (nth i (timers s) zero_timer)) (counter (nth i (timers s) zero_timer))
      None (repeat (nth i (timers s) zero_timer)) tid)
    by (rewrite Hn, Nat.eqb_refl, Hid; reflexivity).
  split; [reflexivity | split; [| split; [exact Hni | split; [| exact Hok']]]].
  - unfold is_timer_active.
    rewrite (find_by_id_unique s' tid i Hok' Hz); [| rewrite Hl'; exact Hi | rewrite Hni; reflexivity].
    rewrite Hni. apply andb_false_r.
  - intros j Hj. rewrite Hn. apply Nat.eqb_neq in Hj. rewrite Hj. reflexivity.
Qed.

(** X18: in a pool satisfying [pool_ok], [set_timer] on a callback whose
    first slot [i] has a nonzero id returns that id without a fault,
    re-arms slot [i] with the new timeout (counter reset to it) and repeat
    flag, keeps its callback and id, and leaves the other slots and the
    number of active timers unchanged. *)
Theorem X18_set_timer_rearms (s : state) (tmo : Z) (cb : nat) (rep : bool) (i : nat) :
  pool_ok s -> find_slot (holds cb) (timers s) 0 = Some i ->
  id (nth i (timers s) zero_timer) <> INVALID_TIMER_ID ->
  let '(tid, s', flt) := set_timer s tmo cb rep in
  tid = id (nth i (timers s) zero_timer) /\ flt = false /\
  nth i (timers s') zero_timer = mkTimer tmo tmo (Some cb) rep tid /\
  (forall j, j <> i -> nth j (timers s') zero_timer = nth j (timers s) zero_timer) /\
  timer_active_count s' = timer_active_count s.
Proof.
  intros Hok Hs Hz.
  destruct (find_slot_spec _ _ _ _ Hs) as (_ & Hi & Hp). rewrite Nat.sub_0_r in Hi, Hp.
  unfold holds in Hp. apply cb_eqb_some in Hp.
  pose proof (find_by_id_unique s _ i Hok Hz Hi eq_refl) as Hf.
  unfold set_timer. cbv zeta. unfold find_timer_id_by_callback.
  change (find_slot (fun t => cb_eqb (callback t) (Some cb)) (timers s) 0)
    with (find_slot (holds cb) (timers s) 0).
  rewrite Hs. cbv beta iota.
  replace (id (nth i (timers s) zero_timer) =? INVALID_TIMER_ID) with false
    by (symmetry; apply Z.eqb_neq; exact Hz).
  rewrite Hf. unfold update_slot, timer_active_count. cbn [timers].
  split; [reflexivity | split; [reflexivity | split; [| split]]].
  - rewrite nth_list_set by exact Hi. rewrite Nat.eqb_refl, Hp. reflexivity.
  - intros j Hj. rewrite nth_list_set by exact Hi.
    apply Nat.eqb_neq in Hj. rewrite Hj. reflexivity.
  - apply length_filter_list_set with (d := zero_timer); [exact Hi |].
    cbn [callback]. rewrite Hp. reflexivity.
Qed.

(** X19: in a pool satisfying [pool_ok], when slot [i] is the first free
    slot and [cb] holds no slot, [set_timer(T, cb, true)] with
    [0 < T < 2^32] raises no fault; when every callback leaves the pool as
    it is (it calls neither [set_timer] nor [cancel_timer]), [cb] then
    fires exactly [n / T] times in the first [n] runs of
    [timer_system_tick_event_handler]. *)
Theorem X19_periodic_timer_count (run_cb : nat -> Z -> state -> state) (st : Z)
  (s : state) (T : Z) (cb : nat) (i : nat) :
  (forall c t p, run_cb c t p = p) ->
  pool_ok s -> find_available_timer s = Some i ->
  forallb (fun t => negb (holds cb t)) (timers s) = true ->
  0 < T < UINT32_MOD ->
  let '(tid, s1, flt) := set_timer s T cb true in
  flt = false /\
  forall n : nat,
    Z.of_nat (count_occ Nat.eq_dec (fst (ticks_cb run_cb n st s1)) cb) = Z.of_nat n / T.
Proof.
  intros Hobs Hok Hav Hno HT.
  pose proof (pool_ok_set_timer s T cb true Hok) as Hok1.
  pose proof (set_timer_live s T cb true i Hav Hno) as F.
  destruct (set_timer s T cb true) as [[tid s1] flt]. cbn [fst snd] in Hok1.
  destruct F as [Hf Hl]. split; [exact Hf |]. intros n.
  rewrite ticks_cb_observer by (exact Hobs || apply Hok1).
  rewrite (ticks_periodic i cb T n s1 T Hl) by lia.
  f_equal. lia.
Qed.

(** X20: under the same conditions, [set_timer(T, cb, false)] raises no
    fault and, when every callback leaves the pool as it is, [cb] fires
    once, on tick [T]: never in the first [T - 1] ticks and exactly once
    in any [n >= T] ticks. *)
Theorem X20_oneshot_timer_count (run_cb : nat -> Z -> state -> state) (st : Z)
  (s : state) (T : Z) (cb : nat) (i : nat) :
  (forall c t p, run_cb c t p = p) ->
  pool_ok s -> find_available_timer s = Some i ->
  forallb (fun t => negb (holds cb t)) (timers s) = true ->
  0 < T < UINT32_MOD ->
  let '(tid, s1, flt) := set_timer s T cb false in
  flt = false /\
  forall n : nat,
    count_occ Nat.eq_dec (fst (ticks_cb run_cb n st s1)) cb =
    (if Z.of_nat n <? T then 0%nat else 1%nat).
Proof.
  intros Hobs Hok Hav Hno HT.
  pose proof (pool_ok_set_timer s T cb false Hok) as Hok1.
  pose proof (set_timer_live s T cb false i Hav Hno) as F.
  destruct (set_timer s T cb false) as [[tid s1] flt]. cbn [fst snd] in Hok1.
  destruct F as [Hf Hl]. split; [exact Hf |]. intros n.
  rewrite ticks_cb_observer by (exact Hobs || apply Hok1).
  exact (ticks_oneshot i cb T n s1 T Hl ltac:(lia)).
Qed.

(** X21: in a pool satisfying [pool_ok], with a free slot and [cb] holding
    no slot, [set_timer(tmo, cb, rep)] raises no fault, and when the
    returned id is nonzero the queries on it report the new timer: active,
    [tmo] ticks remaining, repeating iff [rep]. *)
Theorem X21_set_timer_then_query (s : state) (tmo : Z) (cb : nat) (rep : bool) (i : nat) :
  pool_ok s -> find_available_timer s = Some i ->
  forallb (fun t => negb (holds cb t)) (timers s) = true ->
  let '(tid, s1, flt) := set_timer s tmo cb rep in
  flt = false /\
  (tid <> INVALID_TIMER_ID ->
   is_timer_active s1 tid = true /\ get_timer_remaining s1 tid = tmo /\
   is_timer_repeating s1 tid = rep).
Proof.
  intros Hok Hav Hno.
  pose proof (pool_ok_set_timer s tmo cb rep Hok) as Hok1.
  pose proof (set_timer_fresh s tmo cb rep i Hav Hno) as F.
  destruct (set_timer s tmo cb rep) as [[tid s1] flt]. cbn [fst snd] in Hok1.
  destruct F as [Hf [Hi [Hslot _]]]. split; [exact Hf |]. intros Hz.
  assert (Hfind : find_timer_by_id s1 tid = Some i)
    by (apply find_by_id_unique; [exact Hok1 | exact Hz | exact Hi | rewrite Hslot; reflexivity]).
  unfold is_timer_active, get_timer_remaining, is_timer_repeating.
  replace (tid =? INVALID_TIMER_ID) with false by (symmetry; apply Z.eqb_neq; exact Hz).
  rewrite Hfind, Hslot. cbn. repeat split.
Qed.

(** Witness of X17: in the pool filled with callbacks 1 to 8, slot 2
    holds id 3. *)
Lemma X17_witness :
  (pool_ok TimerRuns.full /\ 3 <> INVALID_TIMER_ID /\
   (2 < length (timers TimerRuns.full))%nat /\ id (nth 2 (timers TimerRuns.full) zero_timer) = 3) /\
  let t := nth 2 (timers TimerRuns.full) zero_timer in
  let '(ok, s') := cancel_timer TimerRuns.full 3 in
  ok = true /\ is_timer_active s' 3 = false /\
  nth 2 (timers s') zero_timer = mkTimer (timeout t) (counter t) None (repeat t) 3 /\
  (forall j, j <> 2%nat -> nth j (timers s') zero_timer = nth j (timers TimerRuns.full) zero_timer) /\
  pool_ok s'.
Proof.
  assert (H1 : pool_ok TimerRuns.full) by exact (pool_ok_reachable TimerRuns.fill_ops).
  assert (H2 : 3 <> INVALID_TIMER_ID) by (unfold INVALID_TIMER_ID; lia).
  assert (H3 : (2 < length (timers TimerRuns.full))%nat) by (apply Nat.ltb_lt; vm_compute; reflexivity).
  assert (H4 : id (nth 2 (timers TimerRuns.full) zero_timer) = 3) by (vm_compute; reflexivity).
  exact (conj (conj H1 (conj H2 (conj H3 H4))) (X17_cancel_timer_by_id TimerRuns.full 3 2 H1 H2 H3 H4)).
Defined.

(** Witness of X18: in the filled pool, callback 3 is first held by slot 2,
    whose id is 3. *)
Lemma X18_witness :
  (pool_ok TimerRuns.full /\ find_slot (holds 3) (timers TimerRuns.full) 0 = Some 2%nat /\
   id (nth 2 (timers TimerRuns.full) zero_timer) <> INVALID_TIMER_ID) /\
  let '(tid, s', flt) := set_timer TimerRuns.full 50 3 true in
  tid = id (nth 2 (timers TimerRuns.full) zero_timer) /\ flt = false /\
  nth 2 (timers s') zero_timer = mkTimer 50 50 (Some 3%nat) true tid /\
  (forall j, j <> 2%nat -> nth j (timers s') zero_timer = nth j (timers TimerRuns.full) zero_timer) /\
  timer_active_count s' = timer_active_count TimerRuns.full.
Proof.
  assert (H1 : pool_ok TimerRuns.full) by exact (pool_ok_reachable TimerRuns.fill_ops).
  assert (H2 : find_slot (holds 3) (timers TimerRuns.full) 0 = Some 2%nat) by (vm_compute; reflexivity).
  assert (H3 : id (nth 2 (timers TimerRuns.full) zero_timer) <> INVALID_TIMER_ID)
    by (vm_compute; discriminate).
  exact (conj (conj H1 (conj H2 H3)) (X18_set_timer_rearms TimerRuns.full 50 3 true 2 H1 H2 H3)).
Defined.

(** Witness of X19: callbacks that leave the pool as it is; on the fresh
    pool, slot 0 is free and callback 5 holds no slot; the period is 10,
    the first system tick 1. *)
Lemma X19_witness :
  ((forall (c : nat) (t : Z) (p : state), (fun _ _ q => q) c t p = p) /\
   pool_ok timer_init /\ find_available_timer timer_init = Some 0%nat /\
   forallb (fun t => negb (holds 5 t)) (timers timer_init) = true /\ 0 < 10 < UINT32_MOD) /\
  let '(tid, s1, flt) := set_timer timer_init 10 5 true in
  flt = false /\
  forall n : nat,
    Z.of_nat (count_occ Nat.eq_dec (fst (ticks_cb (fun _ _ q => q) n 1 s1)) 5%nat) = Z.of_nat n / 10.
Proof.
  assert (H0 : forall (c : nat) (t : Z) (p : state), (fun _ _ q => q) c t p = p)
    by (intros; reflexivity).
  assert (H1 : pool_ok timer_init) by apply pool_ok_init.
  assert (H2 : find_available_timer timer_init = Some 0%nat) by (vm_compute; reflexivity).
  assert (H3 : forallb (fun t => negb (holds 5 t)) (timers timer_init) = true) by (vm_compute; reflexivity).
  assert (H4 : 0 < 10 < UINT32_MOD) by (unfold UINT32_MOD; lia).
  exact (conj (conj H0 (conj H1 (conj H2 (conj H3 H4))))
              (X19_periodic_timer_count (fun _ _ q => q) 1 timer_init 10 5 0 H0 H1 H2 H3 H4)).
Defined.

(** Witness of X20: the same callbacks, pool and callback, one-shot with
    timeout 10. *)
Lemma X20_witness :
  ((forall (c : nat) (t : Z) (p : state), (fun _ _ q => q) c t p = p) /\
   pool_ok timer_init /\ find_available_timer timer_init = Some 0%nat /\
   forallb (fun t => negb (holds 5 t)) (timers timer_init) = true /\ 0 < 10 < UINT32_MOD) /\
  let '(tid, s1, flt) := set_timer timer_init 10 5 false in
  flt = false /\
  forall n : nat,
    count_occ Nat.eq_dec (fst (ticks_cb (fun _ _ q => q) n 1 s1)) 5%nat =
    (if Z.of_nat n <? 10 then 0%nat else 1%nat).
Proof.
  assert (H0 : forall (c : nat) (t : Z) (p : state), (fun _ _ q => q) c t p = p)
    by (intros; reflexivity).
  assert (H1 : pool_ok timer_init) by apply pool_ok_init.
  assert (H2 : find_available_timer timer_init = Some 0%nat) by (vm_compute; reflexivity).
  assert (H3 : forallb (fun t => negb (holds 5 t)) (timers timer_init) = true) by (vm_compute; reflexivity).
  assert (H4 : 0 < 10 < UINT32_MOD) by (unfold UINT32_MOD; lia).
  exact (conj (conj H0 (conj H1 (conj H2 (conj H3 H4))))
              (X20_oneshot_timer_count (fun _ _ q => q) 1 timer_init 10 5 0 H0 H1 H2 H3 H4)).
Defined.

(** Witness of X21: on the fresh pool, callback 5 with timeout 100, not
    repeating. *)
Lemma X21_witness :
  (pool_ok timer_init /\ find_available_timer timer_init = Some 0%nat /\
   forallb (fun t => negb (holds 5 t)) (timers timer_init) = true) /\
  let '(tid, s1, flt) := set_timer timer_init 100 5 false in
  flt = false /\
  (tid <> INVALID_TIMER_ID ->
   is_timer_active s1 tid = true /\ get_timer_remaining s1 tid = 100 /\
   is_timer_repeating s1 tid = false).
Proof.
  assert (H1 : pool_ok timer_init) by exact pool_ok_init.
  assert (H2 : find_available_timer timer_init = Some 0%nat) by (vm_compute; reflexivity).
  assert (H3 : forallb (fun t => negb (holds 5 t)) (timers timer_init) = true) by (vm_compute; reflexivity).
  exact (conj (conj H1 (conj H2 H3)) (X21_set_timer_then_query timer_init 100 5 false 0 H1 H2 H3)).
Defined.

End TimerPoolExtra.

(** ** vesc_serial.c: the poll timer across board-mode changes *)
Module VescSerialPollExtra.
Import BoardMode.
Import Timer TimerMore TimerProofs TimerExtra VescSerialPoll.

Lemma poll_mode_idle p m :
  In m [BOARD_MODE_BOOTING; BOARD_MODE_IDLE; BOARD_MODE_RIDING] ->
  vesc_serial_board_mode_change p m = vesc_serial_board_mode_change p BOARD_MODE_IDLE.
Proof. intros [<- | [<- | [<- | []]]]; reflexivity. Qed.

Lemma poll_mode_off p m :
  ~ In m [BOARD_MODE_BOOTING; BOARD_MODE_IDLE; BOARD_MODE_RIDING] ->
  vesc_serial_board_mode_change p m = vesc_serial_board_mode_change p BOARD_MODE_OFF.
Proof.
  intros H. destruct m; try reflexivity; exfalso; apply H; cbn; tauto.
Qed.

(** X22: from a pool satisfying [pool_ok] with a free slot [i], where the
    poll callback holds no slot and the stored poll-timer id is invalid or
    inactive, a board-mode change to BOOTING, IDLE or RIDING arms a
    repeating poll timer without a fault: the poll callback then fires
    exactly [n / 250] times in [n] ticks.  When the returned id is nonzero,
    the timer is active, a second change to the same mode changes nothing,
    and a following change to any other mode marks the VESC not alive,
    stores the invalid id and cancels the timer, so the poll callback
    never fires again. *)
Theorem X22_poll_timer_start_stop (p : poll_state) (m1 m2 : board_mode_t) (i : nat) :
  pool_ok (pool p) -> find_available_timer (pool p) = Some i ->
  forallb (fun t => negb (holds vesc_serial_tx_timer_cb t)) (timers (pool p)) = true ->
  vesc_serial_tx_timerid p = INVALID_TIMER_ID \/
    is_timer_active (pool p) (vesc_serial_tx_timerid p) = false ->
  In m1 [BOARD_MODE_BOOTING; BOARD_MODE_IDLE; BOARD_MODE_RIDING] ->
  ~ In m2 [BOARD_MODE_BOOTING; BOARD_MODE_IDLE; BOARD_MODE_RIDING] ->
  let p1 := vesc_serial_board_mode_change p m1 in
  let p2 := vesc_serial_board_mode_change p1 m2 in
  vs p1 = vs p /\
  (forall n : nat, Z.of_nat (count_occ Nat.eq_dec (fst (ticks n (pool p1))) vesc_serial_tx_timer_cb) =
                   Z.of_nat n / POLLING_INTERVAL_MS) /\
  (vesc_serial_tx_timerid p1 <> INVALID_TIMER_ID ->
   is_timer_active (pool p1) (vesc_serial_tx_timerid p1) = true /\
   vesc_serial_board_mode_change p1 m1 = p1 /\
   VescSerial.vesc_alive (vs p2) = false /\ vesc_serial_tx_timerid p2 = INVALID_TIMER_ID /\
   forall n : nat, count_occ Nat.eq_dec (fst (ticks n (pool p2))) vesc_serial_tx_timer_cb = 0%nat).
Proof.
  intros Hok Hav Hno Hcond Hm1 Hm2. cbv zeta.
  rewrite (poll_mode_idle p m1 Hm1), (poll_mode_off _ m2 Hm2).
  assert (Hc : ((vesc_serial_tx_timerid p =? INVALID_TIMER_ID) ||
                negb (is_timer_active (pool p) (vesc_serial_tx_timerid p))) = true).
  { destruct Hcond as [E | E]; [rewrite E; reflexivity | rewrite E, orb_true_r; reflexivity]. }
  pose proof (set_timer_fresh_found (pool p) POLLING_INTERVAL_MS vesc_serial_tx_timer_cb true i
                Hok Hav Hno) as F.
  pose proof (set_timer_live (pool p) POLLING_INTERVAL_MS vesc_serial_tx_timer_cb true i Hav Hno) as L.
  assert (Hp1 : vesc_serial_board_mode_change p BOARD_MODE_IDLE =
    let '(nid, t, flt) := set_timer (pool p) POLLING_INTERVAL_MS vesc_serial_tx_timer_cb true in
    mkPoll (if flt then VescSerial.with_push (vs p)
                          [VescSerial.PushFault EventQueue.EMERGENCY_FAULT_OVERFLOW] else vs p) t nid).
  { unfold vesc_serial_board_mode_change. cbv beta iota zeta. rewrite Hc. reflexivity. }
  rewrite Hp1. clear Hp1.
  destruct (set_timer (pool p) POLLING_INTERVAL_MS vesc_serial_tx_timer_cb true) as [[nid t] flt].
  destruct F as (Hf & Hok1 & Hi & Hslot & Ho & Hfind). destruct L as [_ Hl]. subst flt.
  cbn [vs pool vesc_serial_tx_timerid].
  split; [reflexivity | split].
  - intros n. rewrite (ticks_periodic i vesc_serial_tx_timer_cb POLLING_INTERVAL_MS n t
                         POLLING_INTERVAL_MS Hl) by (unfold POLLING_INTERVAL_MS, UINT32_MOD; lia).
    f_equal. lia.
  - intros Hz. specialize (Hfind Hz).
    assert (Hneq : (nid =? INVALID_TIMER_ID) = false) by (apply Z.eqb_neq; exact Hz).
    assert (Hact : is_timer_active t nid = true).
    { unfold is_timer_active. rewrite Hneq, Hfind, Hslot. reflexivity. }
    split; [exact Hact | split; [| split; [| split]]].
    + rewrite (poll_mode_idle _ m1 Hm1).
      unfold vesc_serial_board_mode_change. cbv beta iota zeta. cbn [vesc_serial_tx_timerid pool].
      rewrite Hneq, Hact. reflexivity.
    + unfold vesc_serial_board_mode_change. cbv beta iota zeta. cbn [vesc_serial_tx_timerid pool].
      rewrite Hneq, Hact. reflexivity.
    + unfold vesc_serial_board_mode_change. cbv beta iota zeta. cbn [vesc_serial_tx_timerid pool].
      rewrite Hneq, Hact. reflexivity.
    + unfold vesc_serial_board_mode_change. cbv beta iota zeta. cbn [vesc_serial_tx_timerid pool].
      rewrite Hneq, Hact. cbn [negb andb pool]. intros n.
      apply ticks_no_holder. intros j.
      rewrite (cancel_timer_found t nid i Hfind Hz Hi j).
      destruct (Nat.eqb_spec j i) as [-> | Hj]; [discriminate | exact (Ho j Hj)].
Qed.

(** Witness of X22: the fresh pool, the invalid stored id, IDLE then
    OFF. *)
Lemma X22_witness :
  let p := mkPoll (VescSerial.mkState [] VescSerial.zero_values true 0 None [] [] 0)
             timer_init INVALID_TIMER_ID in
  (pool_ok (pool p) /\ find_available_timer (pool p) = Some 0%nat /\
   forallb (fun t => negb (holds vesc_serial_tx_timer_cb t)) (timers (pool p)) = true /\
   (vesc_serial_tx_timerid p = INVALID_TIMER_ID \/
    is_timer_active (pool p) (vesc_serial_tx_timerid p) = false) /\
   In BOARD_MODE_IDLE [BOARD_MODE_BOOTING; BOARD_MODE_IDLE; BOARD_MODE_RIDING] /\
   ~ In BOARD_MODE_OFF [BOARD_MODE_BOOTING; BOARD_MODE_IDLE; BOARD_MODE_RIDING]) /\
  let p1 := vesc_serial_board_mode_change p BOARD_MODE_IDLE in
  let p2 := vesc_serial_board_mode_change p1 BOARD_MODE_OFF in
  vs p1 = vs p /\
  (forall n : nat, Z.of_nat (count_occ Nat.eq_dec (fst (ticks n (pool p1))) vesc_serial_tx_timer_cb) =
                   Z.of_nat n / POLLING_INTERVAL_MS) /\
  (vesc_serial_tx_timerid p1 <> INVALID_TIMER_ID ->
   is_timer_active (pool p1) (vesc_serial_tx_timerid p1) = true /\
   vesc_serial_board_mode_change p1 BOARD_MODE_IDLE = p1 /\
   VescSerial.vesc_alive (vs p2) = false /\ vesc_serial_tx_timerid p2 = INVALID_TIMER_ID /\
   forall n : nat, count_occ Nat.eq_dec (fst (ticks n (pool p2))) vesc_serial_tx_timer_cb = 0%nat).
Proof.
  set (p := mkPoll (VescSerial.mkState [] VescSerial.zero_values true 0 None [] [] 0)
              timer_init INVALID_TIMER_ID).
  assert (H1 : pool_ok (pool p)) by exact pool_ok_init.
  assert (H2 : find_available_timer (pool p) = Some 0%nat) by (vm_compute; reflexivity).
  assert (H3 : forallb (fun t => negb (holds vesc_serial_tx_timer_cb t)) (timers (pool p)) = true)
    by (vm_compute; reflexivity).
  assert (H4 : vesc_serial_tx_timerid p = INVALID_TIMER_ID \/
               is_timer_active (pool p) (vesc_serial_tx_timerid p) = false) by (left; reflexivity).
  assert (H5 : In BOARD_MODE_IDLE [BOARD_MODE_BOOTING; BOARD_MODE_IDLE; BOARD_MODE_RIDING])
    by (right; left; reflexivity).
  assert (H6 : ~ In BOARD_MODE_OFF [BOARD_MODE_BOOTING; BOARD_MODE_IDLE; BOARD_MODE_RIDING])
    by (cbn; intros [E | [E | [E | []]]]; discriminate E).
  exact (conj (conj H1 (conj H2 (conj H3 (conj H4 (conj H5 H6)))))
              (X22_poll_timer_start_stop p BOARD_MODE_IDLE BOARD_MODE_OFF 0 H1 H2 H3 H4 H5 H6)).
Defined.

End VescSerialPollExtra.

(** ** board_mode.c: the idle timer *)
Module BoardModeIdleExtra.
Import BoardMode BoardModeProofs.
Import Timer TimerMore TimerProofs TimerExtra.

(** The timed idle submodes and the timeout [set_board_mode] arms for
    each. *)
Lemma set_board_mode_idle_arm (s : BoardMode.state) sm tmo :
  In (sm, tmo) [(BOARD_SUBMODE_IDLE_ACTIVE, IDLE_ACTIVE_TIMEOUT);
                (BOARD_SUBMODE_IDLE_DEFAULT, IDLE_DEFAULT_TIMEOUT);
                (BOARD_SUBMODE_IDLE_DOZING, IDLE_DOZING_TIMEOUT);
                (BOARD_SUBMODE_IDLE_SHUTTING_DOWN, IDLE_SHUTTING_DOWN_TIMEOUT)] ->
  (board_mode s, board_submode s) <> (BOARD_MODE_IDLE, sm) ->
  set_board_mode s BOARD_MODE_IDLE sm =
  arm_idle_timer (with_mode (with_push s EventQueue.EVENT_BOARD_MODE_CHANGED) BOARD_MODE_IDLE sm) tmo.
Proof.
  intros Hin Hne. unfold set_board_mode.
  destruct (negb (board_mode_t_beq (board_mode s) BOARD_MODE_IDLE) ||
            negb (board_submode_t_beq (board_submode s) sm)) eqn:E.
  - cbn in Hin. destruct Hin as [H | [H | [H | [H | []]]]]; injection H as <- <-; reflexivity.
  - exfalso. apply orb_false_iff in E as [E1 E2]. apply negb_false_iff in E1, E2.
    apply Hne. rewrite (board_mode_beq_true _ _ E1), (board_submode_beq_true _ _ E2).
    reflexivity.
Qed.

Lemma idle_handler_mode (s : BoardMode.state) :
  board_mode s = BOARD_MODE_IDLE ->
  (board_mode (idle_timer_handler s), board_submode (idle_timer_handler s)) =
  match board_submode s with
  | BOARD_SUBMODE_IDLE_ACTIVE => (BOARD_MODE_IDLE, BOARD_SUBMODE_IDLE_DEFAULT)
  | BOARD_SUBMODE_IDLE_DEFAULT => (BOARD_MODE_IDLE, BOARD_SUBMODE_IDLE_DOZING)
  | BOARD_SUBMODE_IDLE_DOZING => (BOARD_MODE_IDLE, BOARD_SUBMODE_IDLE_SHUTTING_DOWN)
  | BOARD_SUBMODE_IDLE_SHUTTING_DOWN => (BOARD_MODE_OFF, BOARD_SUBMODE_UNDEFINED)
  | sm => (BOARD_MODE_IDLE, sm)
  end.
Proof.
  intros Hm. unfold idle_timer_handler. rewrite Hm. cbn [board_mode_t_beq].
  destruct (board_submode s) eqn:Esm;
    first [ destruct (set_board_mode_mode s BOARD_MODE_IDLE BOARD_SUBMODE_IDLE_DEFAULT) as [-> ->]
          | destruct (set_board_mode_mode s BOARD_MODE_IDLE BOARD_SUBMODE_IDLE_DOZING) as [-> ->]
          | destruct (set_board_mode_mode s BOARD_MODE_IDLE BOARD_SUBMODE_IDLE_SHUTTING_DOWN) as [-> ->]
          | destruct (set_board_mode_mode s BOARD_MODE_OFF BOARD_SUBMODE_UNDEFINED) as [-> ->]
          | idtac ];
    rewrite ?Hm, ?Esm; reflexivity.
Qed.

(** X25: [set_board_mode(BOARD_MODE_IDLE, sm)] for a timed idle submode
    [sm] (ACTIVE, DEFAULT, DOZING, SHUTTING_DOWN, with timeouts 4000,
    120000, 480000 and 1000 ms), from another mode or submode, with a free
    timer slot and no slot holding [board_mode_idle_timer_handler]: the
    board is in IDLE/[sm], one [EVENT_BOARD_MODE_CHANGED] is pushed, the id
    [set_timer] returns is stored, and the idle handler first fires on
    system tick [tmo]: not in the first [tmo - 1] ticks, once in the first
    [tmo] ticks. *)
Theorem X25_idle_submode_arms_timer (s : BoardMode.state) (sm : board_submode_t) (tmo : Z) (i : nat) :
  In (sm, tmo) [(BOARD_SUBMODE_IDLE_ACTIVE, IDLE_ACTIVE_TIMEOUT);
                (BOARD_SUBMODE_IDLE_DEFAULT, IDLE_DEFAULT_TIMEOUT);
                (BOARD_SUBMODE_IDLE_DOZING, IDLE_DOZING_TIMEOUT);
                (BOARD_SUBMODE_IDLE_SHUTTING_DOWN, IDLE_SHUTTING_DOWN_TIMEOUT)] ->
  (board_mode s, board_submode s) <> (BOARD_MODE_IDLE, sm) ->
  find_available_timer (BoardMode.timers s) = Some i ->
  forallb (fun t => negb (holds board_mode_idle_timer_handler_cb t))
    (timers (BoardMode.timers s)) = true ->
  let s' := set_board_mode s BOARD_MODE_IDLE sm in
  board_mode s' = BOARD_MODE_IDLE /\ board_submode s' = sm /\
  pushed s' = pushed s ++ [EventQueue.EVENT_BOARD_MODE_CHANGED] /\
  board_mode_idle_timer_id s' =
    fst (fst (set_timer (BoardMode.timers s) tmo board_mode_idle_timer_handler_cb false)) /\
  (forall n : nat, Z.of_nat n < tmo ->
     count_occ Nat.eq_dec (fst (ticks n (BoardMode.timers s'))) board_mode_idle_timer_handler_cb
     = 0%nat) /\
  count_occ Nat.eq_dec (fst (ticks (Z.to_nat tmo) (BoardMode.timers s')))
    board_mode_idle_timer_handler_cb = 1%nat.
Proof.
  intros Hin Hne Hav Hno. cbv zeta.
  assert (Htmo : 0 < tmo < UINT32_MOD)
    by (cbn in Hin; destruct Hin as [H | [H | [H | [H | []]]]]; injection H as _ <-;
        unfold UINT32_MOD, IDLE_ACTIVE_TIMEOUT, IDLE_DEFAULT_TIMEOUT, IDLE_DOZING_TIMEOUT,
          IDLE_SHUTTING_DOWN_TIMEOUT; lia).
  destruct (set_board_mode_mode s BOARD_MODE_IDLE sm) as [Hm Hsm].
  split; [exact Hm |]. split; [exact Hsm |].
  rewrite (set_board_mode_idle_arm s sm tmo Hin Hne). unfold arm_idle_timer.
  cbn [BoardMode.timers with_mode with_push].
  pose proof (set_timer_live (BoardMode.timers s) tmo board_mode_idle_timer_handler_cb false i Hav Hno)
    as F.
  destruct (set_timer (BoardMode.timers s) tmo board_mode_idle_timer_handler_cb false)
    as [[tid t] flt].
  destruct F as [-> Hl]. cbn.
  split; [reflexivity |]. split; [reflexivity |]. split.
  - intros n Hn.
    rewrite (ticks_oneshot i board_mode_idle_timer_handler_cb tmo n t tmo Hl ltac:(lia)).
    replace (Z.of_nat n <? tmo) with true by (symmetry; apply Z.ltb_lt; exact Hn).
    reflexivity.
  - rewrite (ticks_oneshot i board_mode_idle_timer_handler_cb tmo (Z.to_nat tmo) t tmo Hl
               ltac:(lia)).
    rewrite Z2Nat.id, Z.ltb_irrefl by lia. reflexivity.
Qed.

Lemma X25_witness :
  (In (BOARD_SUBMODE_IDLE_ACTIVE, IDLE_ACTIVE_TIMEOUT)
      [(BOARD_SUBMODE_IDLE_ACTIVE, IDLE_ACTIVE_TIMEOUT);
       (BOARD_SUBMODE_IDLE_DEFAULT, IDLE_DEFAULT_TIMEOUT);
       (BOARD_SUBMODE_IDLE_DOZING, IDLE_DOZING_TIMEOUT);
       (BOARD_SUBMODE_IDLE_SHUTTING_DOWN, IDLE_SHUTTING_DOWN_TIMEOUT)] /\
   (board_mode (board_mode_init timer_init), board_submode (board_mode_init timer_init)) <>
     (BOARD_MODE_IDLE, BOARD_SUBMODE_IDLE_ACTIVE) /\
   find_available_timer (BoardMode.timers (board_mode_init timer_init)) = Some 0%nat /\
   forallb (fun t => negb (holds board_mode_idle_timer_handler_cb t))
     (timers (BoardMode.timers (board_mode_init timer_init))) = true) /\
  (let s' := set_board_mode (board_mode_init timer_init) BOARD_MODE_IDLE BOARD_SUBMODE_IDLE_ACTIVE in
   board_mode s' = BOARD_MODE_IDLE /\ board_submode s' = BOARD_SUBMODE_IDLE_ACTIVE /\
   pushed s' = pushed (board_mode_init timer_init) ++ [EventQueue.EVENT_BOARD_MODE_CHANGED] /\
   board_mode_idle_timer_id s' =
     fst (fst (set_timer (BoardMode.timers (board_mode_init timer_init)) IDLE_ACTIVE_TIMEOUT
                 board_mode_idle_timer_handler_cb false)) /\
   (forall n : nat, Z.of_nat n < IDLE_ACTIVE_TIMEOUT ->
      count_occ Nat.eq_dec (fst (ticks n (BoardMode.timers s'))) board_mode_idle_timer_handler_cb
      = 0%nat) /\
   count_occ Nat.eq_dec (fst (ticks (Z.to_nat IDLE_ACTIVE_TIMEOUT) (BoardMode.timers s')))
     board_mode_idle_timer_handler_cb = 1%nat).
Proof.
  assert (H1 : In (BOARD_SUBMODE_IDLE_ACTIVE, IDLE_ACTIVE_TIMEOUT)
      [(BOARD_SUBMODE_IDLE_ACTIVE, IDLE_ACTIVE_TIMEOUT);
       (BOARD_SUBMODE_IDLE_DEFAULT, IDLE_DEFAULT_TIMEOUT);
       (BOARD_SUBMODE_IDLE_DOZING, IDLE_DOZING_TIMEOUT);
       (BOARD_SUBMODE_IDLE_SHUTTING_DOWN, IDLE_SHUTTING_DOWN_TIMEOUT)]) by (left; reflexivity).
  assert (H2 : (board_mode (board_mode_init timer_init), board_submode (board_mode_init timer_init)) <>
     (BOARD_MODE_IDLE, BOARD_SUBMODE_IDLE_ACTIVE)) by discriminate.
  assert (H3 : find_available_timer (BoardMode.timers (board_mode_init timer_init)) = Some 0%nat)
    by (vm_compute; reflexivity).
  assert (H4 : forallb (fun t => negb (holds board_mode_idle_timer_handler_cb t))
     (timers (BoardMode.timers (board_mode_init timer_init))) = true) by (vm_compute; reflexivity).
  exact (conj (conj H1 (conj H2 (conj H3 H4)))
              (X25_idle_submode_arms_timer (board_mode_init timer_init) BOARD_SUBMODE_IDLE_ACTIVE
                 IDLE_ACTIVE_TIMEOUT 0 H1 H2 H3 H4)).
Defined.

(** X26: successive expiries of the idle timer walk an IDLE board from
    ACTIVE through DEFAULT, DOZING and SHUTTING_DOWN to OFF/UNDEFINED;
    once the board is OFF, [board_mode_idle_timer_handler] leaves the
    whole state as it is. *)
Theorem X26_idle_cascade (s : BoardMode.state) :
  board_mode s = BOARD_MODE_IDLE -> board_submode s = BOARD_SUBMODE_IDLE_ACTIVE ->
  let s1 := idle_timer_handler s in
  let s2 := idle_timer_handler s1 in
  let s3 := idle_timer_handler s2 in
  let s4 := idle_timer_handler s3 in
  (board_mode s1, board_submode s1) = (BOARD_MODE_IDLE, BOARD_SUBMODE_IDLE_DEFAULT) /\
  (board_mode s2, board_submode s2) = (BOARD_MODE_IDLE, BOARD_SUBMODE_IDLE_DOZING) /\
  (board_mode s3, board_submode s3) = (BOARD_MODE_IDLE, BOARD_SUBMODE_IDLE_SHUTTING_DOWN) /\
  (board_mode s4, board_submode s4) = (BOARD_MODE_OFF, BOARD_SUBMODE_UNDEFINED) /\
  idle_timer_handler s4 = s4.
Proof.
  intros Hm Hsm. cbv zeta.
  pose proof (idle_handler_mode s Hm) as E1. rewrite Hsm in E1.
  injection E1 as M1 S1.
  pose proof (idle_handler_mode _ M1) as E2. rewrite S1 in E2.
  injection E2 as M2 S2.
  pose proof (idle_handler_mode _ M2) as E3. rewrite S2 in E3.
  injection E3 as M3 S3.
  pose proof (idle_handler_mode _ M3) as E4. rewrite S3 in E4.
  injection E4 as M4 S4.
  rewrite M1, S1, M2, S2, M3, S3, M4, S4.
  split; [reflexivity |]. split; [reflexivity |]. split; [reflexivity |]. split; [reflexivity |].
  unfold idle_timer_handler at 1. rewrite M4. reflexivity.
Qed.

Lemma X26_witness :
  (board_mode (set_board_mode (board_mode_init timer_init) BOARD_MODE_IDLE BOARD_SUBMODE_IDLE_ACTIVE)
     = BOARD_MODE_IDLE /\
   board_submode (set_board_mode (board_mode_init timer_init) BOARD_MODE_IDLE BOARD_SUBMODE_IDLE_ACTIVE)
     = BOARD_SUBMODE_IDLE_ACTIVE) /\
  (let s1 := idle_timer_handler
               (set_board_mode (board_mode_init timer_init) BOARD_MODE_IDLE BOARD_SUBMODE_IDLE_ACTIVE) in
   let s2 := idle_timer_handler s1 in
   let s3 := idle_timer_handler s2 in
   let s4 := idle_timer_handler s3 in
   (board_mode s1, board_submode s1) = (BOARD_MODE_IDLE, BOARD_SUBMODE_IDLE_DEFAULT) /\
   (board_mode s2, board_submode s2) = (BOARD_MODE_IDLE, BOARD_SUBMODE_IDLE_DOZING) /\
   (board_mode s3, board_submode s3) = (BOARD_MODE_IDLE, BOARD_SUBMODE_IDLE_SHUTTING_DOWN) /\
   (board_mode s4, board_submode s4) = (BOARD_MODE_OFF, BOARD_SUBMODE_UNDEFINED) /\
   idle_timer_handler s4 = s4).
Proof.
  destruct (set_board_mode_mode (board_mode_init timer_init) BOARD_MODE_IDLE BOARD_SUBMODE_IDLE_ACTIVE)
    as [H1 H2].
  exact (conj (conj H1 H2) (X26_idle_cascade _ H1 H2)).
Defined.

End BoardModeIdleExtra.
